(** * veloserver: the route trie and the request dispatcher

    A shallow embedding of [src/router.ts], [src/context.ts] and
    [src/server.ts].

    - JavaScript strings are [string]; arrays are [list]; the [Map] of path
      variables is a [gmap string string].
    - A callback supplied by the application (handler, request inspector,
      response inspector) is a labelled function that receives the request
      and the current [Context] and yields a [Completion] together with the
      [Context] it leaves behind: callbacks share the one mutable context
      object of the request.
    - A promise is represented by the way it settles ([Settled]); a callback
      that never returns, or a promise that never settles, is outside the
      model.
    - Every call of a callback and every line written to the console is
      recorded, in program order, as an [Event]. *)

From Stdlib Require Import String Ascii List Bool Arith Lia.
From stdpp Require Import base option list gmap strings.

Local Open Scope string_scope.
Local Open Scope list_scope.

(** ** JavaScript string helpers *)

(** [s.split(sep)] for a one-character separator: never empty, the empty
    string splits into one empty piece. *)
Fixpoint split (sep : ascii) (s : string) : list string :=
  match s with
  | EmptyString => [EmptyString]
  | String c s' =>
      if Ascii.eqb c sep then EmptyString :: split sep s'
      else match split sep s' with
           | piece :: pieces => String c piece :: pieces
           | [] => [String c EmptyString]
           end
  end.

Definition slash : ascii := "/"%char.
Definition colon : ascii := ":"%char.

(** [seg.length > 1 && seg.charAt(0) == ":"] *)
Definition isVariableSegment (seg : string) : bool :=
  match seg with
  | String c (String _ _) => Ascii.eqb c colon
  | _ => false
  end.

(** [seg.substring(1)] *)
Definition substring1 (seg : string) : string :=
  match seg with
  | EmptyString => EmptyString
  | String _ rest => rest
  end.

(** JavaScript truthiness of a string: only the empty string is falsy. *)
Definition truthy (s : string) : bool :=
  match s with EmptyString => false | _ => true end.

(** ** Values exchanged with callbacks *)

(** A thrown value or a rejection reason. *)
Definition Fault := string.

(** How a promise settles. *)
Inductive Settled (A : Type) : Type :=
| Fulfilled (a : A)
| Rejected (e : Fault).
Arguments Fulfilled {A} a.
Arguments Rejected {A} e.

(** A value of type [A | Promise<A>]. *)
Inductive MaybePromise (A : Type) : Type :=
| Now (a : A)
| Later (s : Settled A).
Arguments Now {A} a.
Arguments Later {A} s.

(** The result of calling a callback: it returns, or it throws. *)
Inductive Completion (A : Type) : Type :=
| Done (v : MaybePromise A)
| Thrown (e : Fault).
Arguments Done {A} v.
Arguments Thrown {A} e.

Record URL := mkURL { pathname : string }.
Record Request := mkRequest { method : string; requestUrl : URL }.
Record Response := mkResponse { status : nat; body : string }.

(** [class RequestInspectorResponse] *)
Record RequestInspectorResponse := mkRequestInspectorResponse {
  shouldContinue : bool;
  response : option Response
}.

(** Lines written with [console.log]. *)
Inductive LogMsg : Type :=
| ErrSetHandlerTwice
| ErrWildcardMoreSegments (remaining : nat)
| ErrVariableMoreThanOneChild (children : nat) (segment : string)
| ErrVariableInconsistent (current registering : string)
| WarnUnsupportedMethod (m : string)
| ErrNoResponseNoContinue (path : string)
| ErrCaught (e : Fault).

(** What a synchronous call yields. *)
Inductive Sync (A : Type) : Type :=
| Ok (a : A)
| Raise (e : Fault).
Arguments Ok {A} a.
Arguments Raise {A} e.

(** [paths: string | string[]] *)
Inductive Paths : Type :=
| OnePath (path : string)
| ManyPaths (paths : list string).

Definition pathList (paths : Paths) : list string :=
  match paths with
  | OnePath p => [p]
  | ManyPaths ps => ps
  end.

(** The four places where [requestHandler] calls a handler. *)
Inductive CallSite : Type :=
| ExactMatch       (* [nextRouteNode.handler(request, context)] *)
| SplatFallback    (* [closestWildcard.handler(request, context)] *)
| NotFound         (* [this.#not_found_handler(request, context)] *)
| ServerError.     (* [this.#server_error_handler(request, context)] *)

(** How a statement of the [try] block ends: control goes on, a [return]
    is executed, or a fault is thrown. *)
Inductive Flow (A : Type) : Type :=
| Next (a : A)
| Returns (v : MaybePromise Response)
| Throws (e : Fault).
Arguments Next {A} a.
Arguments Returns {A} v.
Arguments Throws {A} e.

Set Implicit Arguments.
Set Maximal Implicit Insertion.

Section Model.

Variable Meta : Type.

(** ** context.ts *)

Record Context := mkContext {
  url : URL;
  pathVariables : option (gmap string string);
  meta : Meta;
  pathParts : option (list string)   (* the private field [#pathParts] *)
}.

(** [new Context(request, meta)] *)
Definition newContext (request : Request) (m : Meta) : Context :=
  mkContext (requestUrl request) None m None.

(** [getPathParts()]: the array is created on the first call and the same
    array is handed out afterwards. *)
Definition getPathParts (c : Context) : list string * Context :=
  match pathParts c with
  | None =>
      let p := pathname (url c) in
      let parts := split slash (if truthy p then p else "/") in
      (parts, mkContext (url c) (pathVariables c) (meta c) (Some parts))
  | Some parts => (parts, c)
  end.

(** [addPathVariable(name, value)] *)
Definition addPathVariable (name value : string) (c : Context) : Context :=
  let m := match pathVariables c with
           | None => ∅
           | Some m => m
           end in
  mkContext (url c) (Some (<[name := value]> m)) (meta c) (pathParts c).

(** The array behind [#pathParts], as seen through any reference to it. *)
Definition pathPartsArray (c : Context) : list string :=
  match pathParts c with
  | Some parts => parts
  | None => []
  end.

(** [pathParts.shift()] on that array. *)
Definition shiftPathParts (c : Context) : Context :=
  mkContext (url c) (pathVariables c) (meta c) (Some (tail (pathPartsArray c))).

(** [#pathParts] is private: a callback can change the contents of the
    array that [getPathParts()] hands out, but it cannot detach the array
    from the context.  [retainArray before after] is the context a callback
    leaves behind, with the array still attached. *)
Definition retainArray (before after : Context) : Context :=
  match pathParts before, pathParts after with
  | Some parts, None => mkContext (url after) (pathVariables after) (meta after) (Some parts)
  | _, _ => after
  end.

(** ** router.ts: callbacks *)

Record Handler := mkHandler {
  handlerName : string;
  runHandler : Request -> Context -> Completion Response * Context
}.

Record RequestInspector := mkRequestInspector {
  requestInspectorName : string;
  runRequestInspector :
    Request -> Context -> Completion RequestInspectorResponse * Context
}.

Record ResponseInspector := mkResponseInspector {
  responseInspectorName : string;
  runResponseInspector :
    Request -> Response -> Context -> Completion unit * Context
}.

(** [class Inspector] *)
Record Inspector := mkInspector {
  requestInspector : option RequestInspector;
  responseInspector : option ResponseInspector;
  observeChildPaths : bool
}.

(** [new Inspector(req, resp, observeChildPaths)]: the flag defaults to true. *)
Definition newInspector (req : option RequestInspector)
    (resp : option ResponseInspector) (observe : option bool) : Inspector :=
  mkInspector req resp (match observe with Some b => b | None => true end).

(** ** router.ts: [class RouteNode] *)

Unset Elimination Schemes.
Inductive RouteNode : Type := mkRouteNode {
  pathSegment : string;
  isWildcard : bool;
  pathVariable : string;
  inspectors : list Inspector;
  childNodes : list RouteNode;
  handler : option Handler
}.
Set Elimination Schemes.

Definition newRouteNode : RouteNode := mkRouteNode "" false "" [] [] None.

Definition setPathSegment (seg : string) (n : RouteNode) : RouteNode :=
  mkRouteNode seg (isWildcard n) (pathVariable n) (inspectors n)
    (childNodes n) (handler n).

Definition setIsWildcard (w : bool) (v : string) (n : RouteNode) : RouteNode :=
  mkRouteNode (pathSegment n) w (if truthy v then v else pathVariable n)
    (inspectors n) (childNodes n) (handler n).

Definition addInspector (i : Inspector) (n : RouteNode) : RouteNode :=
  mkRouteNode (pathSegment n) (isWildcard n) (pathVariable n)
    (inspectors n ++ [i]) (childNodes n) (handler n).

Definition setHandler (h : Handler) (n : RouteNode) : RouteNode * list LogMsg :=
  match handler n with
  | Some _ => (n, [ErrSetHandlerTwice])
  | None =>
      (mkRouteNode (pathSegment n) (isWildcard n) (pathVariable n)
         (inspectors n) (childNodes n) (Some h), [])
  end.

Definition addChildNode (c : RouteNode) (n : RouteNode) : RouteNode :=
  mkRouteNode (pathSegment n) (isWildcard n) (pathVariable n) (inspectors n)
    (childNodes n ++ [c]) (handler n).

Definition setChildNodes (cs : list RouteNode) (n : RouteNode) : RouteNode :=
  mkRouteNode (pathSegment n) (isWildcard n) (pathVariable n) (inspectors n)
    cs (handler n).

(** The child found by [childNodes.find(p)] is modified through its
    reference; here the first child satisfying [p] is replaced by its new
    state. *)
Fixpoint replaceFirst (p : RouteNode -> bool) (c' : RouteNode)
    (cs : list RouteNode) : list RouteNode :=
  match cs with
  | [] => []
  | c :: rest => if p c then c' :: rest else c :: replaceFirst p c' rest
  end.

Definition SetClosure := RouteNode -> RouteNode * list LogMsg.

Definition hasSegment (seg : string) (n : RouteNode) : bool :=
  String.eqb (pathSegment n) seg.

Fixpoint addPathPropertyHelper (pathSegments : list string)
    (setClosure : SetClosure) (this : RouteNode) : RouteNode * list LogMsg :=
  match pathSegments with
  | [] => setClosure this
  | seg :: rest =>
      (* with the first segment shifted off, [rest] is what remains *)
      let descend (child : RouteNode) : RouteNode * list LogMsg :=
        match rest with
        | [] => setClosure child
        | _ :: _ => addPathPropertyHelper rest setClosure child
        end in
      if String.eqb seg "*" then
        match rest with
        | _ :: _ => (this, [ErrWildcardMoreSegments (length rest)])
        | [] =>
            let (newChild, log) := setClosure (setIsWildcard true "*" newRouteNode) in
            (addChildNode newChild this, log)
        end
      else if isVariableSegment seg then
        let variable := substring1 seg in
        let log1 :=
          if Nat.ltb 1 (length (childNodes this))
          then [ErrVariableMoreThanOneChild (length (childNodes this)) (pathSegment this)]
          else [] in
        match find isWildcard (childNodes this) with
        | Some child =>
            let log2 :=
              if String.eqb (pathVariable child) variable then []
              else [ErrVariableInconsistent (pathVariable child) variable] in
            let (child', log3) := descend child in
            (setChildNodes (replaceFirst isWildcard child' (childNodes this)) this,
             log1 ++ log2 ++ log3)
        | None =>
            let (newChild, log3) :=
              descend (setIsWildcard true variable newRouteNode) in
            (addChildNode newChild this, log1 ++ log3)
        end
      else
        match find (hasSegment seg) (childNodes this) with
        | Some child =>
            let (child', log) := descend child in
            (setChildNodes (replaceFirst (hasSegment seg) child' (childNodes this)) this,
             log)
        | None =>
            let (newChild, log) := descend (setPathSegment seg newRouteNode) in
            (addChildNode newChild this, log)
        end
  end.

Definition addPathHandler (pathSegments : list string) (h : Handler)
    (this : RouteNode) : RouteNode * list LogMsg :=
  addPathPropertyHelper pathSegments (setHandler h) this.

Definition addPathInspector (pathSegments : list string) (i : Inspector)
    (this : RouteNode) : RouteNode * list LogMsg :=
  addPathPropertyHelper pathSegments (fun n => (addInspector i n, [])) this.

(** [pathSegmentsFromPath]: split on "/" and drop the first piece. *)
Definition pathSegmentsFromPath (path : string) : list string :=
  tail (split slash path).

(** ** router.ts: [class Router] *)


(** The revision of [router.ts] without [context_metadata_constructor]
    builds the context with no metadata; it is the case of a constructor
    that returns a fixed value. *)
Record Router := mkRouter {
  get_routes : RouteNode;
  head_routes : RouteNode;
  post_routes : RouteNode;
  context_metadata_constructor : Request -> Sync Meta;
  not_found_handler : Handler;
  server_error_handler : Handler
}.

Definition default_not_found_handler : Handler :=
  mkHandler "default_not_found_handler" (fun _ c =>
    (Done (Now (mkResponse 404 "<!DOCTYPE html><html><body>Not Found</body></html>")), c)).

Definition default_server_error_handler : Handler :=
  mkHandler "default_server_error_handler" (fun _ c =>
    (Done (Now (mkResponse 500 "Internal Server Error")), c)).

(** [new Router({not_found_handler, server_error_handler, context_metadata_constructor})] *)
Definition newRouter (nf se : option Handler) (mk : Request -> Sync Meta) : Router :=
  mkRouter newRouteNode newRouteNode newRouteNode mk
    (match nf with Some h => h | None => default_not_found_handler end)
    (match se with Some h => h | None => default_server_error_handler end).


(** [paths.forEach(path => routeNode.addPath...(pathSegmentsFromPath(path), x))] *)
Fixpoint addPaths (add : list string -> RouteNode -> RouteNode * list LogMsg)
    (paths : list string) (routeNode : RouteNode) : RouteNode * list LogMsg :=
  match paths with
  | [] => (routeNode, [])
  | path :: rest =>
      let (n1, log1) := add (pathSegmentsFromPath path) routeNode in
      let (n2, log2) := addPaths add rest n1 in
      (n2, log1 ++ log2)
  end.

Definition addPathHandlerToNode (routeNode : RouteNode) (paths : Paths)
    (h : Handler) : RouteNode * list LogMsg :=
  addPaths (fun segs => addPathHandler segs h) (pathList paths) routeNode.

Definition addPathInspectorToNode (routeNode : RouteNode) (paths : Paths)
    (i : Inspector) : RouteNode * list LogMsg :=
  addPaths (fun segs => addPathInspector segs i) (pathList paths) routeNode.

Definition withGetRoutes (r : Router) (n : RouteNode) : Router :=
  mkRouter n (head_routes r) (post_routes r) (context_metadata_constructor r)
    (not_found_handler r) (server_error_handler r).
Definition withHeadRoutes (r : Router) (n : RouteNode) : Router :=
  mkRouter (get_routes r) n (post_routes r) (context_metadata_constructor r)
    (not_found_handler r) (server_error_handler r).
Definition withPostRoutes (r : Router) (n : RouteNode) : Router :=
  mkRouter (get_routes r) (head_routes r) n (context_metadata_constructor r)
    (not_found_handler r) (server_error_handler r).

Definition get (paths : Paths) (h : Handler) (r : Router) : Router * list LogMsg :=
  let (n, log) := addPathHandlerToNode (get_routes r) paths h in (withGetRoutes r n, log).
Definition head (paths : Paths) (h : Handler) (r : Router) : Router * list LogMsg :=
  let (n, log) := addPathHandlerToNode (head_routes r) paths h in (withHeadRoutes r n, log).
Definition post (paths : Paths) (h : Handler) (r : Router) : Router * list LogMsg :=
  let (n, log) := addPathHandlerToNode (post_routes r) paths h in (withPostRoutes r n, log).
Definition addGetInspector (paths : Paths) (i : Inspector) (r : Router) : Router * list LogMsg :=
  let (n, log) := addPathInspectorToNode (get_routes r) paths i in (withGetRoutes r n, log).
Definition addHeadInspector (paths : Paths) (i : Inspector) (r : Router) : Router * list LogMsg :=
  let (n, log) := addPathInspectorToNode (head_routes r) paths i in (withHeadRoutes r n, log).
Definition addPostInspector (paths : Paths) (i : Inspector) (r : Router) : Router * list LogMsg :=
  let (n, log) := addPathInspectorToNode (post_routes r) paths i in (withPostRoutes r n, log).
Definition addAllInspector (paths : Paths) (i : Inspector) (r : Router) : Router * list LogMsg :=
  let (r1, log1) := addGetInspector paths i r in
  let (r2, log2) := addHeadInspector paths i r1 in
  let (r3, log3) := addPostInspector paths i r2 in
  (r3, log1 ++ log2 ++ log3).

(** ** router.ts: dispatch *)


(** What an observer of one request sees, in program order.  A call is
    recorded with the context as the callback receives it. *)
Inductive Event : Type :=
| Logged (m : LogMsg)
| CalledHandler (site : CallSite) (h : Handler) (c : Context)
| CalledRequestInspector (i : Inspector) (c : Context)
| CalledResponseInspector (ri : ResponseInspector) (r : Response) (c : Context).


(** Statements act on the request's context and emit events. *)
Definition Exec (A : Type) : Type := Context -> Flow A * Context * list Event.

Definition ret {A : Type} (a : A) : Exec A := fun c => (Next a, c, []).

Definition bind {A B : Type} (m : Exec A) (k : A -> Exec B) : Exec B :=
  fun c =>
    match m c with
    | (Next a, c1, ev1) => let '(f, c2, ev2) := k a c1 in (f, c2, ev1 ++ ev2)
    | (Returns v, c1, ev1) => (Returns v, c1, ev1)
    | (Throws e, c1, ev1) => (Throws e, c1, ev1)
    end.

Notation "x <- m ;; k" := (bind m (fun x => k))
  (at level 100, m at next level, right associativity).
Notation "m ;;; k" := (bind m (fun _ => k))
  (at level 100, right associativity).

Definition returns {A : Type} (v : MaybePromise Response) : Exec A :=
  fun c => (Returns v, c, []).
Definition throws {A : Type} (e : Fault) : Exec A :=
  fun c => (Throws e, c, []).
Definition consoleLog (m : LogMsg) : Exec unit :=
  fun c => (Next tt, c, [Logged m]).
Definition readContext : Exec Context := fun c => (Next c, c, []).
Definition modifyContext (f : Context -> Context) : Exec unit :=
  fun c => (Next tt, f c, []).

(** A call of a callback inside the [try] block: a synchronous throw
    propagates, anything returned is a value. *)
Definition call {A : Type} (ev : Context -> Event)
    (f : Context -> Completion A * Context) : Exec (MaybePromise A) :=
  fun c =>
    match f c with
    | (Done v, c1) => (Next v, retainArray c c1, [ev c])
    | (Thrown e, c1) => (Throws e, retainArray c c1, [ev c])
    end.

(** [await v] inside the [try] block. *)
Definition await {A : Type} (v : MaybePromise A) : Exec A :=
  match v with
  | Now a => ret a
  | Later (Fulfilled a) => ret a
  | Later (Rejected e) => throws e
  end.

Definition callHandler (site : CallSite) (h : Handler) (request : Request)
  : Exec (MaybePromise Response) :=
  call (CalledHandler site h) (runHandler h request).

(** The loop of [processResponseInspectors]; the answer is the fault that
    ended it, if any. *)
Fixpoint runResponseInspectors (responseInspectors : list ResponseInspector)
    (request : Request) (responseObj : Response) (c : Context)
  : option Fault * Context * list Event :=
  match responseInspectors with
  | [] => (None, c, [])
  | ri :: rest =>
      let ev := CalledResponseInspector ri responseObj c in
      match runResponseInspector ri request responseObj c with
      | (Thrown e, c1) => (Some e, retainArray c c1, [ev])
      | (Done (Later (Rejected e)), c1) => (Some e, retainArray c c1, [ev])
      | (Done _, c1) =>
          let '(r, c2, evs) :=
            runResponseInspectors rest request responseObj (retainArray c c1) in
          (r, c2, ev :: evs)
      end
  end.

(** [processResponseInspectors]: an [async] function, so a fault inside it
    rejects the promise it returns and is never thrown at its caller. *)
Definition processResponseInspectors (responseInspectors : list ResponseInspector)
    (request : Request) (response : MaybePromise Response) (c : Context)
  : Settled Response * Context * list Event :=
  match response with
  | Later (Rejected e) => (Rejected e, c, [])
  | Now responseObj | Later (Fulfilled responseObj) =>
      match runResponseInspectors responseInspectors request responseObj c with
      | (Some e, c1, evs) => (Rejected e, c1, evs)
      | (None, c1, evs) => (Fulfilled responseObj, c1, evs)
      end
  end.

(** [return processResponseInspectors(...)]: the promise is returned without
    being awaited. *)
Definition returnProcessed {A : Type} (responseInspectors : list ResponseInspector)
    (request : Request) (response : MaybePromise Response) : Exec A :=
  fun c =>
    let '(s, c1, evs) := processResponseInspectors responseInspectors request response c in
    (Returns (Later s), c1, evs).

(** [pathParts.length == 0 || inspector.observeChildPaths] *)
Definition inScope (c : Context) (i : Inspector) : bool :=
  Nat.eqb (length (pathPartsArray c)) 0 || observeChildPaths i.

(** The body of [for (const inspector of nextRouteNode.inspectors)]. *)
Definition processInspector (router : Router) (request : Request)
    (responseInspectors : list ResponseInspector) (inspector : Inspector)
  : Exec (list ResponseInspector) :=
  (c <- readContext ;;
   match requestInspector inspector with
   | Some ri =>
       if inScope c inspector then
         v <- call (CalledRequestInspector inspector) (runRequestInspector ri request) ;;
         requestInspectorResponse <- await v ;;
         match response requestInspectorResponse with
         | Some r => returnProcessed responseInspectors request (Now r)
         | None =>
             if shouldContinue requestInspectorResponse then ret tt
             else
               (* [context.url.pathname] is read here, after the call *)
               c' <- readContext ;;
               consoleLog (ErrNoResponseNoContinue (pathname (url c'))) ;;;
               e <- callHandler ServerError (server_error_handler router) request ;;
               returnProcessed responseInspectors request e
         end
       else ret tt
   | None => ret tt
   end) ;;;
  c <- readContext ;;
  match responseInspector inspector with
  | Some rsp =>
      if inScope c inspector then ret (responseInspectors ++ [rsp])
      else ret responseInspectors
  | None => ret responseInspectors
  end.

Fixpoint processInspectors (router : Router) (request : Request)
    (inspectors : list Inspector) (responseInspectors : list ResponseInspector)
  : Exec (list ResponseInspector) :=
  match inspectors with
  | [] => ret responseInspectors
  | inspector :: rest =>
      queue <- processInspector router request responseInspectors inspector ;;
      processInspectors router request rest queue
  end.

(** [routeNode.isWildcard && routeNode.pathVariable == "*"] *)
Definition isSplat (n : RouteNode) : bool :=
  isWildcard n && String.eqb (pathVariable n) "*".

(** [routeNode.isWildcard || routeNode.pathSegment == pathSegment] *)
Definition matchesSegment (seg : string) (n : RouteNode) : bool :=
  isWildcard n || String.eqb (pathSegment n) seg.

(** The update of [closestWildcard] at one node. *)
Definition captureSplat (node : RouteNode) (closestWildcard : option RouteNode)
  : option RouteNode :=
  match find isSplat (childNodes node) with
  | Some wildcardSplitChild =>
      match handler wildcardSplitChild with
      | Some _ => Some wildcardSplitChild
      | None => closestWildcard
      end
  | None => closestWildcard
  end.

(** [if (nextRouteNode.isWildcard && nextRouteNode.pathVariable != "*")
       context.addPathVariable(nextRouteNode.pathVariable, pathSegment)] *)
Definition captureVariable (next : RouteNode) (seg : string) : Exec unit :=
  if isWildcard next && negb (String.eqb (pathVariable next) "*")
  then modifyContext (addPathVariable (pathVariable next) seg)
  else ret tt.

(** What follows the [while] loop. *)
Definition afterLoop (router : Router) (request : Request)
    (responseInspectors : list ResponseInspector)
    (closestWildcard : option RouteNode) : Exec Empty_set :=
  match closestWildcard with
  | Some w =>
      match handler w with
      | Some h =>
          v <- callHandler SplatFallback h request ;;
          returnProcessed responseInspectors request v
      | None =>
          v <- callHandler NotFound (not_found_handler router) request ;;
          returnProcessed responseInspectors request v
      end
  | None =>
      v <- callHandler NotFound (not_found_handler router) request ;;
      returnProcessed responseInspectors request v
  end.

(** What is done at a node once its inspectors have run and no path part is
    left. *)
Definition atExactMatch (router : Router) (request : Request)
    (responseInspectors : list ResponseInspector) (node : RouteNode)
  : Exec Empty_set :=
  match handler node with
  | Some h =>
      v <- callHandler ExactMatch h request ;;
      returnProcessed responseInspectors request v
  | None =>
      v <- callHandler NotFound (not_found_handler router) request ;;
      returnProcessed responseInspectors request v
  end.

(** One iteration of [while (nextRouteNode)] at [node]; [continue] is the
    rest of the loop, entered at the node that [find] selects, and
    [afterLoop] is reached when [find] selects nothing. *)
Definition iteration (router : Router) (request : Request)
    (continue : RouteNode -> list ResponseInspector -> option RouteNode -> Exec Empty_set)
    (node : RouteNode) (responseInspectors : list ResponseInspector)
    (closestWildcard : option RouteNode) : Exec Empty_set :=
  queue <- processInspectors router request (inspectors node) responseInspectors ;;
  c <- readContext ;;
  match pathPartsArray c with
  | [] => atExactMatch router request queue node
  | pathSegment :: _ =>
      modifyContext shiftPathParts ;;;
      let closest := captureSplat node closestWildcard in
      match find (matchesSegment pathSegment) (childNodes node) with
      | Some next =>
          captureVariable next pathSegment ;;;
          continue next queue closest
      | None => afterLoop router request queue closest
      end
  end.

(** The [while (nextRouteNode)] loop, entered at [node], followed by what
    comes after it.  Every iteration moves to a child of the current node,
    so the recursion is on the trie; [select] is
    [childNodes.find(matchesSegment seg)] together with the next iteration:
    [walk] is [iteration] continued by [walk] (lemma [walk_eq]). *)
Fixpoint walk (router : Router) (request : Request) (node : RouteNode)
    (responseInspectors : list ResponseInspector)
    (closestWildcard : option RouteNode) {struct node} : Exec Empty_set :=
  queue <- processInspectors router request (inspectors node) responseInspectors ;;
  c <- readContext ;;
  match pathPartsArray c with
  | [] => atExactMatch router request queue node
  | pathSegment :: _ =>
      modifyContext shiftPathParts ;;;
      let closest := captureSplat node closestWildcard in
      (fix select (children : list RouteNode) : Exec Empty_set :=
         match children with
         | [] => afterLoop router request queue closest
         | child :: others =>
             if matchesSegment pathSegment child then
               captureVariable child pathSegment ;;;
               walk router request child queue closest
             else select others
         end) (childNodes node)
  end.

(** The [try] block of [requestHandler]. *)
Definition tryBlock (router : Router) (request : Request) : Exec Empty_set :=
  let nextRouteNode :=
    if String.eqb (method request) "GET" then Some (get_routes router)
    else if String.eqb (method request) "HEAD" then Some (head_routes router)
    else if String.eqb (method request) "POST" then Some (post_routes router)
    else None in
  match nextRouteNode with
  | None =>
      consoleLog (WarnUnsupportedMethod (method request)) ;;;
      v <- callHandler NotFound (not_found_handler router) request ;;
      returns v
  | Some root =>
      (fun c => (Next tt, snd (getPathParts c), [])) ;;;
      modifyContext shiftPathParts ;;;
      walk router request root [] None
  end.

(** How the promise of an [async] function settles when its body ends with
    [return v]. *)
Definition settle {A : Type} (v : MaybePromise A) : Settled A :=
  match v with
  | Now a => Fulfilled a
  | Later s => s
  end.

(** What follows the [try] block of the [async] function: a [return]
    settles the promise; a fault thrown in the block is caught and logged,
    and the answer of the server-error handler is returned. *)
Definition afterTry (router : Router) (request : Request)
    (out : Flow Empty_set * Context * list Event) : Settled Response * list Event :=
  match out with
  | (Next impossible, _, _) => match impossible with end
  | (Returns v, _, evs) => (settle v, evs)
  | (Throws error, c, evs) =>
      let h := server_error_handler router in
      let evs' := evs ++ [Logged (ErrCaught error); CalledHandler ServerError h c] in
      match runHandler h request c with
      | (Done v, _) => (settle v, evs')
      | (Thrown e, _) => (Rejected e, evs')
      end
  end.

(** [requestHandler]: the settlement of the promise it returns, and the
    events of the request.  The context is built before the [try] block is
    entered. *)
Definition requestHandler (router : Router) (request : Request)
  : Settled Response * list Event :=
  match context_metadata_constructor router request with
  | Raise e => (Rejected e, [])
  | Ok m => afterTry router request (tryBlock router request (newContext request m))
  end.

End Model.

Arguments newRouteNode {Meta}.
Arguments default_not_found_handler {Meta}.
Arguments default_server_error_handler {Meta}.
Arguments Logged {Meta} m.
Arguments readContext {Meta}.
Arguments consoleLog {Meta} m.
Arguments returns {Meta A} v.
Arguments throws {Meta A} e.
Arguments ret {Meta A} a.
Arguments await {Meta A} v.
Arguments processResponseInspectors : simpl never.

Notation "x <- m ;; k" := (bind m (fun x => k))
  (at level 100, m at next level, right associativity).
Notation "m ;;; k" := (bind m (fun _ => k))
  (at level 100, right associativity).


(** * Reasoning tools *)

(** ** Induction on the trie *)

Section RouteNodeInduction.

Variable Meta : Type.
Variable P : RouteNode Meta -> Prop.
Hypothesis step : forall seg w v insps cs h,
  Forall P cs -> P (mkRouteNode seg w v insps cs h).

Fixpoint RouteNode_ind (n : RouteNode Meta) : P n :=
  match n with
  | mkRouteNode seg w v insps cs h =>
      step seg w v insps h
        ((fix children (l : list (RouteNode Meta)) : Forall P l :=
            match l with
            | [] => @List.Forall_nil _ P
            | c :: l' => @List.Forall_cons _ P c l' (RouteNode_ind c) (children l')
            end) cs)
  end.

End RouteNodeInduction.

(** ** Registrations *)

Section RegistrationModel.

Variable Meta : Type.

(** One call of the registration API on the trie of one method. *)
Inductive Registration : Type :=
| RegisterHandler (paths : Paths) (h : Handler Meta)
| RegisterInspector (paths : Paths) (i : Inspector Meta).

Definition register (reg : Registration) (root : RouteNode Meta) : RouteNode Meta :=
  match reg with
  | RegisterHandler paths h => fst (addPathHandlerToNode root paths h)
  | RegisterInspector paths i => fst (addPathInspectorToNode root paths i)
  end.

Definition registerAll (regs : list Registration) (root : RouteNode Meta)
  : RouteNode Meta :=
  fold_left (fun n reg => register reg n) regs root.

(** What identifies a node among its siblings. *)
Definition labels (n : RouteNode Meta) : string * bool * string :=
  (pathSegment n, isWildcard n, pathVariable n).

(** A wildcard child that captures a path variable (any wildcard that is
    not a splat). *)
Definition isNamedVariable (n : RouteNode Meta) : bool :=
  isWildcard n && negb (String.eqb (pathVariable n) "*").

Definition atMostOneWildcardChild (n : RouteNode Meta) : Prop :=
  length (List.filter isWildcard (childNodes n)) <= 1.

Definition atMostOneNamedVariableChild (n : RouteNode Meta) : Prop :=
  length (List.filter isNamedVariable (childNodes n)) <= 1.

Unset Elimination Schemes.

(** A property of every node of a trie. *)
Inductive everyNode (Q : RouteNode Meta -> Prop) : RouteNode Meta -> Prop :=
| everyNode_intro n :
    Q n -> Forall (everyNode Q) (childNodes n) -> everyNode Q n.

(** [extends n n']: [n'] has every node of [n] at the same position with
    the same labels; it may have more children, appended after the old
    ones. *)
Inductive extends : RouteNode Meta -> RouteNode Meta -> Prop :=
| extends_intro n n' kept added :
    labels n = labels n' ->
    childNodes n' = kept ++ added ->
    Forall2 extends (childNodes n) kept ->
    extends n n'.

Set Elimination Schemes.

(** The registration actions touch the handler and the inspectors of a
    node, never its labels or its children. *)
Definition keepsShape (sc : SetClosure Meta) : Prop :=
  forall n, labels (fst (sc n)) = labels n /\ childNodes (fst (sc n)) = childNodes n.

(** The registration action that does nothing. *)
Definition noAction : SetClosure Meta := fun n => (n, []).

(** The node that a registration path leads to in a finished trie: a
    variable segment leads to the first wildcard child, a literal segment
    to the first child with that segment. *)
Fixpoint registeredNode (segs : list string) (n : RouteNode Meta)
  : option (RouteNode Meta) :=
  match segs with
  | [] => Some n
  | seg :: rest =>
      if String.eqb seg "*" then find isSplat (childNodes n)
      else if isVariableSegment seg then
        match find isWildcard (childNodes n) with
        | Some child => registeredNode rest child
        | None => None
        end
      else
        match find (hasSegment seg) (childNodes n) with
        | Some child => registeredNode rest child
        | None => None
        end
  end.

End RegistrationModel.

Arguments everyNode {Meta} Q n.
Arguments noAction {Meta} n.

Unset Implicit Arguments.
Unset Maximal Implicit Insertion.


(** ** Concrete routers used as test inputs *)

Module Examples.

(** A handler that answers 200 with its own name as body. *)
Definition respond (name : string) : Handler unit :=
  mkHandler name (fun _ c => (Done (Now (mkResponse 200 name)), c)).

(** An [async] handler whose promise rejects. *)
Definition rejecting (name : string) (e : Fault) : Handler unit :=
  mkHandler name (fun _ c => (Done (Later (Rejected e)), c)).

(** A handler that throws. *)
Definition throwing (name : string) (e : Fault) : Handler unit :=
  mkHandler name (fun _ c => (Thrown e, c)).

(** A request inspector with a fixed outcome. *)
Definition answering (name : string) (o : RequestInspectorResponse)
  : RequestInspector unit :=
  mkRequestInspector name (fun _ c => (Done (Now o), c)).

(** A response inspector that only observes. *)
Definition observing (name : string) : ResponseInspector unit :=
  mkResponseInspector name (fun _ _ c => (Done (Now tt), c)).

(** A response inspector that throws. *)
Definition failing (name : string) (e : Fault) : ResponseInspector unit :=
  mkResponseInspector name (fun _ _ c => (Thrown e, c)).

(** [new Router({context_metadata_constructor: () => undefined})] *)
Definition freshRouter : Router unit := newRouter None None (fun _ => Ok tt).

Definition GET (path : string) : Request := mkRequest "GET" (mkURL path).

(** A context in the middle of a walk with [parts] left. *)
Definition contextWith (parts : list string) : Context unit :=
  mkContext (mkURL "/") None tt (Some parts).

Definition emptyTrie : RouteNode unit := newRouteNode.

End Examples.

(** ** Vocabulary of the statements about dispatch *)

Section DispatchVocabulary.

Variable Meta : Type.

(** [v], once awaited if it is a promise, is the value [a]. *)
Definition fulfilledWith {A : Type} (v : MaybePromise A) (a : A) : Prop :=
  v = Now a \/ v = Later (Fulfilled a).

(** A response inspector that, on this request and response, neither throws
    nor returns a promise that rejects, whatever the context. *)
Definition completes (request : Request) (r : Response)
    (ri : ResponseInspector Meta) : Prop :=
  forall c, exists v c1,
    runResponseInspector ri request r c = (Done v, c1) /\
    forall e, v <> Later (Rejected e).

(** The response inspectors called in a list of events, with the response
    each one was given. *)
Fixpoint responseInspectorCalls (evs : list (Event Meta))
  : list (ResponseInspector Meta * Response) :=
  match evs with
  | [] => []
  | CalledResponseInspector ri r _ :: rest => (ri, r) :: responseInspectorCalls rest
  | _ :: rest => responseInspectorCalls rest
  end.

(** The handlers called in a list of events: where, which one, and the path
    parts and path variables it could read from the context. *)
Fixpoint handlerCalls (evs : list (Event Meta))
  : list (CallSite * string * list string * option (gmap string string)) :=
  match evs with
  | [] => []
  | CalledHandler site h c :: rest =>
      (site, handlerName h, fst (getPathParts c), pathVariables c) :: handlerCalls rest
  | _ :: rest => handlerCalls rest
  end.

(** The request inspectors called in a list of events, by name. *)
Fixpoint requestInspectorCalls (evs : list (Event Meta)) : list string :=
  match evs with
  | [] => []
  | CalledRequestInspector i _ :: rest =>
      match requestInspector i with
      | Some ri => requestInspectorName ri :: requestInspectorCalls rest
      | None => requestInspectorCalls rest
      end
  | _ :: rest => requestInspectorCalls rest
  end.

(** The path parts of a request as the walk starts: the pathname split on
    "/", without the first piece. *)
Definition requestParts (request : Request) : list string :=
  let p := pathname (requestUrl request) in
  tail (split slash (if truthy p then p else "/")).

(** The context as the walk starts. *)
Definition startContext (request : Request) (m : Meta) : Context Meta :=
  shiftPathParts (snd (getPathParts (newContext request m))).

(** The array of path parts exists. *)
Definition attached (c : Context Meta) : Prop := pathParts c <> None.

(** The facts that hold whenever a callback is called: a handler found by
    exact match is called with no path part left in the array, and a request
    inspector is called only when it is in scope. *)
Definition eventOk (ev : Event Meta) : Prop :=
  match ev with
  | CalledHandler ExactMatch _ c => pathParts c = Some []
  | CalledRequestInspector i c => inScope c i = true
  | _ => True
  end.

Definition outcomeOk {A : Type} (out : Flow A * Context Meta * list (Event Meta)) : Prop :=
  attached (snd (fst out)) /\ Forall eventOk (snd out).

Definition isHandlerCall (ev : Event Meta) : bool :=
  match ev with
  | CalledHandler _ _ _ => true
  | _ => false
  end.

Definition isServerErrorCall (ev : Event Meta) : bool :=
  match ev with
  | CalledHandler ServerError _ _ => true
  | _ => false
  end.

Definition isResponseInspectorCall (ev : Event Meta) : bool :=
  match ev with
  | CalledResponseInspector _ _ _ => true
  | _ => false
  end.

End DispatchVocabulary.

Arguments fulfilledWith {A} v a.
Arguments completes {Meta} request r ri.
Arguments responseInspectorCalls {Meta} evs.
Arguments handlerCalls {Meta} evs.
Arguments requestInspectorCalls {Meta} evs.
Arguments isHandlerCall {Meta} ev.
Arguments attached {Meta} c.
Arguments eventOk {Meta} ev.
Arguments outcomeOk {Meta A} out.
Arguments isServerErrorCall {Meta} ev.
Arguments startContext {Meta} request m.
Arguments isResponseInspectorCall {Meta} ev.

(** ** One route on an empty trie *)

Section SingleRoute.

Variable Meta : Type.

(** A segment that registration treats as a literal. *)
Definition isLiteralSegment (seg : string) : bool :=
  negb (String.eqb seg "*") && negb (isVariableSegment seg).

(** A path that registration accepts: a [*] can only come last. *)
Fixpoint splatOnlyLast (segs : list string) : bool :=
  match segs with
  | [] => true
  | seg :: rest =>
      (negb (String.eqb seg "*") || Nat.eqb (length rest) 0) && splatOnlyLast rest
  end.

(** The child that [addPathPropertyHelper] creates for a segment. *)
Definition freshChild (seg : string) : RouteNode Meta :=
  if String.eqb seg "*" then setIsWildcard true "*" newRouteNode
  else if isVariableSegment seg then setIsWildcard true (substring1 seg) newRouteNode
  else setPathSegment seg newRouteNode.

(** The chain of nodes that registering [segs] with handler [h] hangs below
    a node without children (lemma [addPathHandler_route]). *)
Fixpoint route (segs : list string) (h : Handler Meta) (this : RouteNode Meta)
  : RouteNode Meta :=
  match segs with
  | [] => fst (setHandler h this)
  | seg :: rest => addChildNode (route rest h (freshChild seg)) this
  end.

(** A request segment fits a registered segment. *)
Definition fits (seg val : string) : Prop :=
  seg = "*" \/ isVariableSegment seg = true \/ seg = val.

(** What the walk does to the context when it moves to the child created
    for [seg] with [val] as the popped segment. *)
Definition advance (seg val : string) (c : Context Meta) : Context Meta :=
  let c1 := shiftPathParts c in
  if isVariableSegment seg && negb (String.eqb (substring1 seg) "*")
  then addPathVariable (substring1 seg) val c1
  else c1.

Fixpoint advanceAll (segs vals : list string) (c : Context Meta) : Context Meta :=
  match segs, vals with
  | seg :: segs', val :: vals' => advanceAll segs' vals' (advance seg val c)
  | _, _ => c
  end.

End SingleRoute.

Arguments freshChild {Meta} seg.
Arguments route {Meta} segs h this.
Arguments advance {Meta} seg val c.
Arguments advanceAll {Meta} segs vals c.

(** ** Routers of the counterexamples *)

Module Scenarios.

Import Examples.

(** [router.get("/", async () => { throw "boom" })] *)
Definition asyncFailure : Router unit :=
  fst (get (OnePath "/") (rejecting "home" "boom") freshRouter).

(** [router.get("/", () => { throw "boom" })] behind a response inspector. *)
Definition syncFailure : Router unit :=
  fst (get (OnePath "/") (throwing "home" "boom")
         (fst (addGetInspector (OnePath "")
                 (newInspector None (Some (observing "audit")) None) freshRouter))).

(** A response inspector that throws, in front of a handler that answers. *)
Definition inspectorFailure : Router unit :=
  fst (get (OnePath "/") (respond "home")
         (fst (addGetInspector (OnePath "")
                 (newInspector None (Some (failing "audit" "boom")) None) freshRouter))).

(** A metadata constructor that throws. *)
Definition factoryFailure : Router unit :=
  fst (get (OnePath "/") (respond "home")
         (newRouter None None (fun _ => Raise "boom"))).

(** [/:id] registered before [/a]. *)
Definition variableThenLiteral : Router unit :=
  fst (get (OnePath "/a") (respond "exact")
         (fst (get (OnePath "/:id") (respond "user") freshRouter))).

(** [/a] registered before [/:id]. *)
Definition literalThenVariable : Router unit :=
  fst (get (OnePath "/:id") (respond "user")
         (fst (get (OnePath "/a") (respond "exact") freshRouter))).

(** [/*] registered before [/files/*]. *)
Definition shallowThenNested : Router unit :=
  fst (get (OnePath "/files/*") (respond "nested")
         (fst (get (OnePath "/*") (respond "shallow") freshRouter))).

(** [/files/*] registered before [/*]. *)
Definition nestedThenShallow : Router unit :=
  fst (get (OnePath "/*") (respond "shallow")
         (fst (get (OnePath "/files/*") (respond "nested") freshRouter))).

(** An inspector that only audits responses, then a gate that answers 401
    and has a response inspector of its own, in front of a handler. *)
Definition auditOnly : Inspector unit :=
  newInspector None (Some (observing "audit")) None.

Definition denied : Response := mkResponse 401 "denied".

Definition gate (shouldContinue : bool) : Inspector unit :=
  newInspector
    (Some (answering "gate" (mkRequestInspectorResponse shouldContinue (Some denied))))
    (Some (observing "own")) None.

Definition gated (shouldContinue : bool) : Router unit :=
  fst (get (OnePath "/") (respond "home")
         (fst (addGetInspector (OnePath "") (gate shouldContinue)
                 (fst (addGetInspector (OnePath "") auditOnly freshRouter))))).

(** The test "request inspector on sub path, observeChildPaths false":
    handlers at [/sub] and [/sub/path], an inspector at [/sub]. *)
Definition subInspector (observeChildPaths : bool) : Inspector unit :=
  newInspector
    (Some (answering "watch" (mkRequestInspectorResponse true None)))
    (Some (observing "seen")) (Some observeChildPaths).

Definition subRouter (observeChildPaths : bool) : Router unit :=
  fst (addGetInspector (OnePath "/sub") (subInspector observeChildPaths)
         (fst (get (ManyPaths ["/sub"; "/sub/path"]) (respond "page") freshRouter))).

(** [/users/:id] *)
Definition users : Router unit :=
  fst (get (OnePath "/users/:id") (respond "user") freshRouter).

End Scenarios.

(** ** Further vocabulary: paths as strings *)

(** [pieces.join("/")] *)
Fixpoint joinSlash (pieces : list string) : string :=
  match pieces with
  | [] => ""
  | [piece] => piece
  | piece :: rest => piece ++ String slash (joinSlash rest)
  end.

(** The string has no "/". *)
Fixpoint slashFree (s : string) : bool :=
  match s with
  | EmptyString => true
  | String c s' => negb (Ascii.eqb c slash) && slashFree s'
  end.

(** No segment of the path is the splat. *)
Definition noSplat (segs : list string) : bool :=
  forallb (fun seg => negb (String.eqb seg "*")) segs.

Section Monotone.

Variable Meta : Type.

Unset Elimination Schemes.

(** [grows n n']: [n'] has every node of [n] at the same position, with
    the same labels, the same handler if [n] had one, and the same
    inspectors in the same order followed by new ones; new children come
    after the old ones. *)
Inductive grows : RouteNode Meta -> RouteNode Meta -> Prop :=
| grows_intro n n' more kept added :
    labels n = labels n' ->
    (forall h, handler n = Some h -> handler n' = Some h) ->
    inspectors n' = inspectors n ++ more ->
    childNodes n' = kept ++ added ->
    Forall2 grows (childNodes n) kept ->
    grows n n'.

Set Elimination Schemes.

(** A registration action under which a node grows, keeping its children. *)
Definition growing (sc : SetClosure Meta) : Prop :=
  forall n,
    labels (fst (sc n)) = labels n /\
    childNodes (fst (sc n)) = childNodes n /\
    (forall h, handler n = Some h -> handler (fst (sc n)) = Some h) /\
    exists more, inspectors (fst (sc n)) = inspectors n ++ more.

End Monotone.

Arguments grows {Meta} n n'.
Arguments growing {Meta} sc.

Section DispatchVocabularyExtra.

Variable Meta : Type.

(** The request's method is one of the three that have a trie. *)
Definition supportedMethod (request : Request) : bool :=
  String.eqb (method request) "GET" || String.eqb (method request) "HEAD"
  || String.eqb (method request) "POST".

(** The trie that serves the request's method. *)
Definition routesFor (router : Router Meta) (request : Request) : option (RouteNode Meta) :=
  if String.eqb (method request) "GET" then Some (get_routes router)
  else if String.eqb (method request) "HEAD" then Some (head_routes router)
  else if String.eqb (method request) "POST" then Some (post_routes router)
  else None.

Definition isInspectorCall (ev : Event Meta) : bool :=
  match ev with
  | CalledRequestInspector _ _ => true
  | CalledResponseInspector _ _ _ => true
  | _ => false
  end.

(** A response inspector that, on this request and response, throws [e] or
    returns a promise rejected with [e], whatever the context. *)
Definition faults (request : Request) (r : Response) (e : Fault)
    (ri : ResponseInspector Meta) : Prop :=
  forall c,
    fst (runResponseInspector ri request r c) = Thrown e \/
    fst (runResponseInspector ri request r c) = Done (Later (Rejected e)).

End DispatchVocabularyExtra.

Arguments routesFor {Meta} router request.
Arguments isInspectorCall {Meta} ev.
Arguments faults {Meta} request r e ri.

(** A call of a handler of a route (found by exact match or as the splat
    fallback), as opposed to a call of a fallback handler of the router. *)
Definition isRouteHandlerCall {Meta : Type} (ev : Event Meta) : bool :=
  match ev with
  | CalledHandler ExactMatch _ _ => true
  | CalledHandler SplatFallback _ _ => true
  | _ => false
  end.

(** The pathname has no "/" at all and is not empty.  This is never so
    for a URL with a hierarchical path (http:, https:), whose pathname
    starts with "/"; it is so for a URL with an opaque path ([foo:bar] has
    the pathname [bar]). *)
Definition isOpaquePathname (p : string) : bool := truthy p && slashFree p.

(** The outcome of calling a request inspector is the fault [e]: it throws
    [e], or returns a promise rejected with [e]. *)
Definition faultOf {A : Type} (res : Completion A) (e : Fault) : Prop :=
  res = Thrown e \/ res = Done (Later (Rejected e)).

(** ** More test inputs *)

Module MoreExamples.

Import Examples.

(** An [async] request inspector whose promise rejects. *)
Definition rejectingInspector (name : string) (e : Fault) : RequestInspector unit :=
  mkRequestInspector name (fun _ c => (Done (Later (Rejected e)), c)).

Definition broken : Inspector unit :=
  newInspector (Some (rejectingInspector "auth" "no session")) (Some (observing "own")) None.

(** An audit-only inspector, then one whose promise rejects, at the root. *)
Definition breakingRouter : Router unit :=
  fst (get (OnePath "/") (respond "home")
         (fst (addGetInspector (OnePath "") broken
                 (fst (addGetInspector (OnePath "") Scenarios.auditOnly freshRouter))))).

Definition serverError : Response := mkResponse 500 "Internal Server Error".

(** A request inspector that reassigns [context.url] and answers neither a
    response nor "continue". *)
Definition rewriting : Inspector unit :=
  newInspector
    (Some (mkRequestInspector "rewriting" (fun _ c =>
       (Done (Now (mkRequestInspectorResponse false None)),
        mkContext (mkURL "/elsewhere") (pathVariables c) (meta c) (pathParts c)))))
    (Some (observing "own")) None.

End MoreExamples.

(** ** Path variables of a route *)

(** The value bound to [name] once the walk has followed the route [segs]
    on the request segments [vals]: the segment at the last position where
    the route has the variable [:name] (a variable called [*] binds
    nothing). *)
Fixpoint lastBinding (name : string) (segs vals : list string) : option string :=
  match segs, vals with
  | seg :: segs', val :: vals' =>
      match lastBinding name segs' vals' with
      | Some v => Some v
      | None =>
          if isVariableSegment seg && String.eqb (substring1 seg) name
             && negb (String.eqb name "*")
          then Some val else None
      end
  | _, _ => None
  end.

(** The lookup of a name in the path-variable map of a context. *)
Definition pathVariable_of {Meta : Type} (c : Context Meta) (name : string) : option string :=
  match pathVariables c with
  | Some m => m !! name
  | None => None
  end.

(** ** Literal routes *)

Section LiteralRoutes.

Variable Meta : Type.

(** A node as literal routes leave it: not a wildcard, and without
    inspector. *)
Definition literalNode (n : RouteNode Meta) : Prop :=
  isWildcard n = false /\ inspectors n = [].

(** The path has literal segments only. *)
Definition literalPath (path : string) : bool :=
  forallb isLiteralSegment (pathSegmentsFromPath path).

(** The handler held under a path: from a node, follow for each segment the
    first child that has this segment. *)
Fixpoint handlerAt (segs : list string) (n : RouteNode Meta) : option (Handler Meta) :=
  match segs with
  | [] => handler n
  | seg :: rest =>
      match find (hasSegment seg) (childNodes n) with
      | Some child => handlerAt rest child
      | None => None
      end
  end.

(** [router.get(path, h)] for each [(path, h)] of a list, in order. *)
Definition getAll (regs : list (string * Handler Meta)) (r : Router Meta) : Router Meta :=
  fold_left (fun r reg => fst (get (OnePath (fst reg)) (snd reg) r)) regs r.

(** The handler of the first registration whose path has the segments
    [segs]. *)
Definition firstRegistered (segs : list string) (regs : list (string * Handler Meta))
  : option (Handler Meta) :=
  option_map snd
    (find (fun reg => bool_decide (pathSegmentsFromPath (fst reg) = segs)) regs).

End LiteralRoutes.

Arguments literalNode {Meta} n.
Arguments handlerAt {Meta} segs n.
Arguments getAll {Meta} regs r.
Arguments firstRegistered {Meta} segs regs.

(** ** server.ts *)

Module ServerModel.

(** [type Callback = (() => void) | (() => Promise<void>)].  A callback is
    taken with the outcome of its call; callbacks that call back into the
    server object are not covered. *)
Record Callback := mkCallback {
  callbackName : string;
  runCallback : Completion unit
}.

(** The signals for which [serve] installs a listener. *)
Inductive Signal : Type := SIGINT | SIGTERM | SIGUSR1.

Definition signalName (signal : Signal) : string :=
  match signal with
  | SIGINT => "SIGINT"
  | SIGTERM => "SIGTERM"
  | SIGUSR1 => "SIGUSR1"
  end.

(** Lines written with [console.log] by the server. *)
Inductive ServerLog : Type :=
| CloseTriggered (reason : string)
| ServerStarted (hostname : string) (port : nat)
| CaughtOnListen (e : Fault)
| ServerClosing
| CaughtOnClosing (e : Fault)
| ServerClosed
| ReceivedSignal (signal : string).

(** What the server does to the outside, in program order.  An
    [AbortController] is identified by the rank of its creation. *)
Inductive ServerEvent : Type :=
| ServerLogged (m : ServerLog)
| CalledCallback (cb : Callback)
| Aborted (controller : nat) (reason : string)
| Exited (code : nat).

Section Server.

Variable Meta : Type.

(** [class Server].  The field [#abortController] is only written by
    [serve], which stores a new controller in it, and by [close] and the
    signal listeners, which reset it: it is undefined, or it holds the
    controller created by the last [serve].  The state records how many
    times [serve] was called ([served]: as many controllers were created,
    and as many listeners installed for each signal) and whether the field
    was reset since the last call ([forgotten]). *)
Record Server := mkServer {
  router : Router Meta;
  server_listen_callbacks : list Callback;
  server_finished_callbacks : list Callback;
  served : nat;
  forgotten : bool
}.

(** The field [#abortController]. *)
Definition abortController (s : Server) : option nat :=
  match served s with
  | 0 => None
  | S latest => if forgotten s then None else Some latest
  end.

(** The number of [AbortController]s created so far. *)
Definition controllers (s : Server) : nat := served s.

(** [new Server(router)] *)
Definition newServer (r : Router Meta) : Server := mkServer r [] [] 0 false.

Definition addServerListenCallback (callback : Callback) (s : Server) : Server :=
  mkServer (router s) (server_listen_callbacks s ++ [callback])
    (server_finished_callbacks s) (served s) (forgotten s).

Definition addServerFinishedCallback (callback : Callback) (s : Server) : Server :=
  mkServer (router s) (server_listen_callbacks s)
    (server_finished_callbacks s ++ [callback]) (served s) (forgotten s).

(** [this.#abortController?.abort(reason); this.#abortController = undefined] *)
Definition abortAndForget (reason : string) (s : Server) : Server * list ServerEvent :=
  (mkServer (router s) (server_listen_callbacks s) (server_finished_callbacks s)
     (served s) true,
   match abortController s with
   | Some a => [Aborted a reason]
   | None => []
   end).

(** A template literal shows a missing argument as "undefined". *)
Definition shown (reason : option string) : string :=
  match reason with
  | Some r => r
  | None => "undefined"
  end.

(** [close(reason?)] *)
Definition close (reason : option string) (s : Server) : Server * list ServerEvent :=
  let (s', evs) := abortAndForget ("Closing due to: " ++ shown reason) s in
  (s', ServerLogged (CloseTriggered (shown reason)) :: evs).

(** One listener that [serve] installs for a signal. *)
Definition signalListener (signal : Signal) (s : Server) : Server * list ServerEvent :=
  let (s', evs) := abortAndForget ("Received " ++ signalName signal) s in
  (s', ServerLogged (ReceivedSignal (signalName signal)) :: evs).

(** A signal runs the listeners installed for it, in the order of their
    installation; [n] of them are left to run. *)
Fixpoint runListeners (n : nat) (signal : Signal) (s : Server)
  : Server * list ServerEvent :=
  match n with
  | 0 => (s, [])
  | S n' =>
      let (s1, evs1) := signalListener signal s in
      let (s2, evs2) := runListeners n' signal s1 in
      (s2, evs1 ++ evs2)
  end.

(** [for (const callback of callbacks) { try { await callback() }
    catch (e) { console.log(..., e) } }] *)
Fixpoint runCallbacks (caught : Fault -> ServerLog) (callbacks : list Callback)
  : list ServerEvent :=
  match callbacks with
  | [] => []
  | callback :: rest =>
      CalledCallback callback ::
      match runCallback callback with
      | Thrown e => ServerLogged (caught e) :: runCallbacks caught rest
      | Done (Later (Rejected e)) => ServerLogged (caught e) :: runCallbacks caught rest
      | Done _ => runCallbacks caught rest
      end
  end.

(** The [onListen] function that [serve] hands to [Deno.serve]. *)
Definition onListen (hostname : string) (port : nat) (s : Server) : list ServerEvent :=
  ServerLogged (ServerStarted hostname port) ::
  runCallbacks CaughtOnListen (server_listen_callbacks s).

(** The function that [serve] chains on [server.finished]. *)
Definition onFinished (s : Server) : list ServerEvent :=
  ServerLogged ServerClosing ::
  runCallbacks CaughtOnClosing (server_finished_callbacks s)
  ++ [ServerLogged ServerClosed; Exited 0].

(** [serve(hostname, port)]: what it does to the server object, a new
    controller in [#abortController]; it also installs one more listener
    for each signal. *)
Definition serve (s : Server) : Server :=
  mkServer (router s) (server_listen_callbacks s) (server_finished_callbacks s)
    (S (served s)) false.

(** What can ask a serving server to stop. *)
Inductive Trigger : Type :=
| CloseCall (reason : option string)
| SignalReceived (signal : Signal).

(** A signal is handled by every listener installed so far, one for each
    call of [serve]. *)
Definition trigger (t : Trigger) (s : Server) : Server * list ServerEvent :=
  match t with
  | CloseCall reason => close reason s
  | SignalReceived signal => runListeners (served s) signal s
  end.

Fixpoint triggerAll (ts : list Trigger) (s : Server) : Server * list ServerEvent :=
  match ts with
  | [] => (s, [])
  | t :: rest =>
      let (s1, evs1) := trigger t s in
      let (s2, evs2) := triggerAll rest s1 in
      (s2, evs1 ++ evs2)
  end.

(** The reason given to [abort] by a trigger. *)
Definition abortReason (t : Trigger) : string :=
  match t with
  | CloseCall reason => "Closing due to: " ++ shown reason
  | SignalReceived signal => "Received " ++ signalName signal
  end.

End Server.

Arguments router {Meta} s.
Arguments server_listen_callbacks {Meta} s.
Arguments server_finished_callbacks {Meta} s.
Arguments served {Meta} s.
Arguments forgotten {Meta} s.
Arguments abortController {Meta} s.
Arguments controllers {Meta} s.
Arguments newServer {Meta} r.
Arguments addServerListenCallback {Meta} callback s.
Arguments addServerFinishedCallback {Meta} callback s.
Arguments abortAndForget {Meta} reason s.
Arguments close {Meta} reason s.
Arguments signalListener {Meta} signal s.
Arguments runListeners {Meta} n signal s.
Arguments onListen {Meta} hostname port s.
Arguments onFinished {Meta} s.
Arguments serve {Meta} s.
Arguments trigger {Meta} t s.
Arguments triggerAll {Meta} ts s.

(** The callbacks called in a list of events, in order. *)
Fixpoint callbacksCalled (evs : list ServerEvent) : list Callback :=
  match evs with
  | [] => []
  | CalledCallback cb :: rest => cb :: callbacksCalled rest
  | _ :: rest => callbacksCalled rest
  end.

(** The faults logged in a list of events, in order. *)
Fixpoint faultsLogged (evs : list ServerEvent) : list Fault :=
  match evs with
  | [] => []
  | ServerLogged (CaughtOnListen e) :: rest => e :: faultsLogged rest
  | ServerLogged (CaughtOnClosing e) :: rest => e :: faultsLogged rest
  | _ :: rest => faultsLogged rest
  end.

(** The fault a callback ends with, if any. *)
Definition callbackFault (cb : Callback) : option Fault :=
  match runCallback cb with
  | Thrown e => Some e
  | Done (Later (Rejected e)) => Some e
  | Done _ => None
  end.

(** The calls of [abort] in a list of events, in order. *)
Fixpoint aborts (evs : list ServerEvent) : list (nat * string) :=
  match evs with
  | [] => []
  | Aborted a reason :: rest => (a, reason) :: aborts rest
  | _ :: rest => aborts rest
  end.

End ServerModel.

(** ** The path that the walk follows in a trie *)

Section WalkedPath.

Variable Meta : Type.

(** No inspector of the node has a request inspector. *)
Definition withoutRequestInspector (n : RouteNode Meta) : Prop :=
  Forall (fun i : Inspector Meta => requestInspector i = None) (inspectors n).

(** The child that the walk moves to at node [n] for the part [seg]:
    [childNodes.find(routeNode => routeNode.isWildcard ||
    routeNode.pathSegment == pathSegment)]. *)
Definition selected (seg : string) (n : RouteNode Meta) : option (RouteNode Meta) :=
  find (matchesSegment seg) (childNodes n).

(** The nodes at which the walk pops a part when it starts at [n] with
    [parts] left, each with the part popped there: the walk goes on below
    the selected child as long as there is one. *)
Fixpoint walked (parts : list string) (n : RouteNode Meta)
  : list (RouteNode Meta * string) :=
  match parts with
  | [] => []
  | seg :: rest =>
      (n, seg) ::
      match selected seg n with
      | Some next => walked rest next
      | None => []
      end
  end.

(** The node at which the parts run out, if the walk gets that far. *)
Fixpoint landing (parts : list string) (n : RouteNode Meta) : option (RouteNode Meta) :=
  match parts with
  | [] => Some n
  | seg :: rest =>
      match selected seg n with
      | Some next => landing rest next
      | None => None
      end
  end.

(** The splat that the walk records at a node: the first splat child, if
    it has a handler. *)
Definition splatWithHandler (n : RouteNode Meta) : option (RouteNode Meta) :=
  match find isSplat (childNodes n) with
  | Some w => match handler w with Some _ => Some w | None => None end
  | None => None
  end.

(** The binding made when the walk leaves a node with a part: the
    variable name of the selected child, if it is a named-variable child,
    with the part. *)
Definition bound (step : RouteNode Meta * string) : option (string * string) :=
  match selected (snd step) (fst step) with
  | Some next =>
      if isNamedVariable next then Some (pathVariable next, snd step) else None
  | None => None
  end.

(** The value bound last to [name] in a list of bindings. *)
Fixpoint lastBound (name : string) (bindings : list (string * string)) : option string :=
  match bindings with
  | [] => None
  | (key, value) :: rest =>
      match lastBound name rest with
      | Some v => Some v
      | None => if String.eqb key name then Some value else None
      end
  end.

(** What one step of the walk does to the context: the part is shifted
    off the array, and the binding of the step is added. *)
Definition leave (c : Context Meta) (step : RouteNode Meta * string) : Context Meta :=
  match bound step with
  | Some (name, value) => addPathVariable name value (shiftPathParts c)
  | None => shiftPathParts c
  end.

(** The handler that ends the walk from [n] with [parts] left and
    [closest] as the splat recorded so far, and the place of its call. *)
Definition target (router : Router Meta) (parts : list string) (n : RouteNode Meta)
    (closest : option (RouteNode Meta)) : CallSite * Handler Meta :=
  match landing parts n with
  | Some node =>
      match handler node with
      | Some h => (ExactMatch, h)
      | None => (NotFound, not_found_handler router)
      end
  | None =>
      match fold_left (fun cl step => captureSplat (fst step) cl) (walked parts n) closest with
      | Some w =>
          match handler w with
          | Some h => (SplatFallback, h)
          | None => (NotFound, not_found_handler router)
          end
      | None => (NotFound, not_found_handler router)
      end
  end.

(** A registration that brings no request inspector. *)
Definition withoutRequestInspectorReg (reg : Registration Meta) : Prop :=
  match reg with
  | RegisterHandler _ _ => True
  | RegisterInspector _ i => requestInspector i = None
  end.

(** The registration action of a path abandoned at a [*]: the node is
    left as it is, and the error is logged. *)
Definition abandon (remaining : nat) : SetClosure Meta :=
  fun n => (n, [ErrWildcardMoreSegments remaining]).

(** The trie holds the route [segs] with handler [h] along first
    children: below [n], the first child of each node has the labels of
    the child made for the segment, and the last one holds [h]. *)
Fixpoint holdsFirst (segs : list string) (h : Handler Meta) (n : RouteNode Meta) : Prop :=
  match segs with
  | [] => handler n = Some h
  | seg :: rest =>
      match childNodes n with
      | child :: _ => labels child = labels (@freshChild Meta seg) /\ holdsFirst rest h child
      | [] => False
      end
  end.

End WalkedPath.

Arguments withoutRequestInspector {Meta} n.
Arguments selected {Meta} seg n.
Arguments walked {Meta} parts n.
Arguments landing {Meta} parts n.
Arguments splatWithHandler {Meta} n.
Arguments bound {Meta} step.
Arguments leave {Meta} c step.
Arguments target {Meta} router parts n closest.
Arguments withoutRequestInspectorReg {Meta} reg.
Arguments abandon {Meta} remaining n.
Arguments holdsFirst {Meta} segs h n.
(** * Registration: what the trie looks like *)

Section RegistrationFacts.

Variable Meta : Type.
Implicit Types (n this child : RouteNode Meta) (cs : list (RouteNode Meta)).
Implicit Types (sc : SetClosure Meta) (segs rest : list string).

(** The two branches of [if (pathSegments.length == 0) setClosure(child)
    else child.addPathPropertyHelper(...)] agree with a plain recursive
    call, which gives the equation used in the proofs. *)
Lemma addPathPropertyHelper_cons seg rest sc this :
  addPathPropertyHelper (seg :: rest) sc this =
  if String.eqb seg "*" then
    match rest with
    | _ :: _ => (this, [ErrWildcardMoreSegments (length rest)])
    | [] =>
        let (newChild, log) := sc (setIsWildcard true "*" newRouteNode) in
        (addChildNode newChild this, log)
    end
  else if isVariableSegment seg then
    let log1 :=
      if Nat.ltb 1 (length (childNodes this))
      then [ErrVariableMoreThanOneChild (length (childNodes this)) (pathSegment this)]
      else [] in
    match find isWildcard (childNodes this) with
    | Some child =>
        let log2 :=
          if String.eqb (pathVariable child) (substring1 seg) then []
          else [ErrVariableInconsistent (pathVariable child) (substring1 seg)] in
        let (child', log3) := addPathPropertyHelper rest sc child in
        (setChildNodes (replaceFirst isWildcard child' (childNodes this)) this,
         log1 ++ log2 ++ log3)
    | None =>
        let (newChild, log3) :=
          addPathPropertyHelper rest sc (setIsWildcard true (substring1 seg) newRouteNode) in
        (addChildNode newChild this, log1 ++ log3)
    end
  else
    match find (hasSegment seg) (childNodes this) with
    | Some child =>
        let (child', log) := addPathPropertyHelper rest sc child in
        (setChildNodes (replaceFirst (hasSegment seg) child' (childNodes this)) this, log)
    | None =>
        let (newChild, log) :=
          addPathPropertyHelper rest sc (setPathSegment seg newRouteNode) in
        (addChildNode newChild this, log)
    end.
Proof. destruct rest; reflexivity. Qed.


Lemma setHandler_keepsShape (h : Handler Meta) : keepsShape (setHandler h).
Proof. intros n. unfold setHandler. destruct (handler n); split; reflexivity. Qed.

Lemma addInspector_keepsShape (i : Inspector Meta) :
  keepsShape (fun n => (addInspector i n, [])).
Proof. intros n. split; reflexivity. Qed.

Lemma addPathPropertyHelper_labels segs sc this :
  keepsShape sc -> labels (fst (addPathPropertyHelper segs sc this)) = labels this.
Proof.
  intros Hsc. destruct segs as [|seg rest].
  - apply Hsc.
  - rewrite addPathPropertyHelper_cons.
    repeat match goal with
    | |- context [if ?b then _ else _] => destruct b
    | |- context [match ?l with [] => _ | _ :: _ => _ end] => destruct l
    | |- context [match find ?p ?l with _ => _ end] => destruct (find p l)
    | |- context [let (_, _) := ?e in _] => destruct e
    end; reflexivity.
Qed.

Lemma extends_refl n : extends n n.
Proof.
  pattern n; apply RouteNode_ind; clear n; intros seg w v insps cs h IH.
  apply (@extends_intro Meta _ _ cs []); simpl.
  - reflexivity.
  - now rewrite app_nil_r.
  - induction IH; constructor; auto.
Qed.

Lemma Forall2_extends_refl cs : Forall2 (@extends Meta) cs cs.
Proof. induction cs; constructor; auto using extends_refl. Qed.

Lemma replaceFirst_extends (p : RouteNode Meta -> bool) child child' cs :
  find p cs = Some child -> extends child child' ->
  Forall2 (@extends Meta) cs (replaceFirst p child' cs).
Proof.
  induction cs as [|c cs IH]; simpl; [discriminate|].
  destruct (p c).
  - intros [= ->] He. constructor; auto using Forall2_extends_refl.
  - intros Hf He. constructor; auto using extends_refl.
Qed.

Lemma extends_same_children n n' :
  labels n' = labels n -> childNodes n' = childNodes n -> extends n n'.
Proof.
  intros Hl Hc. apply (@extends_intro Meta _ _ (childNodes n) []).
  - now symmetry.
  - now rewrite app_nil_r.
  - apply Forall2_extends_refl.
Qed.

Lemma extends_addChildNode n c : extends n (addChildNode c n).
Proof.
  apply (@extends_intro Meta _ _ (childNodes n) [c]);
    auto using Forall2_extends_refl.
Qed.

Lemma addPathPropertyHelper_extends segs sc :
  keepsShape sc ->
  forall this, extends this (fst (addPathPropertyHelper segs sc this)).
Proof.
  intros Hsc. induction segs as [|seg rest IH]; intros this.
  - simpl. apply extends_same_children; apply Hsc.
  - rewrite addPathPropertyHelper_cons.
    destruct (String.eqb seg "*").
    { destruct rest.
      - destruct (sc _). apply extends_addChildNode.
      - apply extends_refl. }
    destruct (isVariableSegment seg).
    + destruct (find isWildcard (childNodes this)) as [child|] eqn:Hf.
      * specialize (IH child). destruct (addPathPropertyHelper rest sc child) as [child' log].
        apply (@extends_intro Meta _ _ (replaceFirst isWildcard child' (childNodes this)) []).
        -- reflexivity.
        -- simpl. now rewrite app_nil_r.
        -- eapply replaceFirst_extends; eauto.
      * destruct (addPathPropertyHelper rest sc _). apply extends_addChildNode.
    + destruct (find (hasSegment seg) (childNodes this)) as [child|] eqn:Hf.
      * specialize (IH child). destruct (addPathPropertyHelper rest sc child) as [child' log].
        apply (@extends_intro Meta _ _ (replaceFirst (hasSegment seg) child' (childNodes this)) []).
        -- reflexivity.
        -- simpl. now rewrite app_nil_r.
        -- eapply replaceFirst_extends; eauto.
      * destruct (addPathPropertyHelper rest sc _). apply extends_addChildNode.
Qed.

(** *** At most one named-variable child *)

Lemma isNamedVariable_labels n n' :
  labels n' = labels n -> isNamedVariable n' = isNamedVariable n.
Proof. unfold labels, isNamedVariable. intros [= _ -> ->]. reflexivity. Qed.

Lemma namedVariables_replaceFirst (p : RouteNode Meta -> bool) child child' cs :
  find p cs = Some child -> labels child' = labels child ->
  length (List.filter isNamedVariable (replaceFirst p child' cs)) =
  length (List.filter isNamedVariable cs).
Proof.
  intros Hf Hl. induction cs as [|c cs IH]; simpl in *; [discriminate|].
  destruct (p c).
  - injection Hf as ->. simpl. rewrite (isNamedVariable_labels _ _ Hl).
    now destruct (isNamedVariable child).
  - simpl. destruct (isNamedVariable c); simpl; auto.
Qed.

Lemma no_wildcard_no_namedVariable cs :
  find isWildcard cs = None -> List.filter (@isNamedVariable Meta) cs = [].
Proof.
  induction cs as [|c cs IH]; simpl; [reflexivity|].
  unfold isNamedVariable at 1. destruct (isWildcard c); [discriminate|]. auto.
Qed.

Lemma namedVariables_app cs c :
  length (List.filter (@isNamedVariable Meta) (cs ++ [c])) =
  length (List.filter isNamedVariable cs) + (if isNamedVariable c then 1 else 0).
Proof.
  rewrite List.filter_app, length_app. simpl. now destruct (isNamedVariable c).
Qed.

Lemma everyNode_replaceFirst (Q : RouteNode Meta -> Prop) (p : RouteNode Meta -> bool) child' cs :
  Forall (everyNode Q) cs -> everyNode Q child' ->
  Forall (everyNode Q) (replaceFirst p child' cs).
Proof.
  intros Hcs Hc. induction Hcs as [|c cs Hx Hxs IH]; simpl; [constructor|].
  destruct (p c); constructor; auto.
Qed.

Lemma everyNode_find (Q : RouteNode Meta -> Prop) (p : RouteNode Meta -> bool) child cs :
  Forall (everyNode Q) cs -> find p cs = Some child -> everyNode Q child.
Proof.
  intros Hcs Hf. apply find_some in Hf as [Hin _].
  rewrite List.Forall_forall in Hcs. auto.
Qed.

Lemma everyNode_keepsShape sc n :
  keepsShape sc ->
  everyNode atMostOneNamedVariableChild n ->
  everyNode atMostOneNamedVariableChild (fst (sc n)).
Proof.
  intros Hsc Hn. destruct (Hsc n) as [_ Hc]. inversion Hn as [? HQ Hcs]; subst.
  constructor; unfold atMostOneNamedVariableChild in *; rewrite Hc; assumption.
Qed.

Lemma everyNode_leaf n :
  childNodes n = [] -> everyNode atMostOneNamedVariableChild n.
Proof.
  intros E. constructor; [unfold atMostOneNamedVariableChild|]; rewrite E;
    [simpl; lia | constructor].
Qed.

Lemma everyNode_addChildNode n c :
  everyNode atMostOneNamedVariableChild n ->
  everyNode atMostOneNamedVariableChild c ->
  (isNamedVariable c = true -> find isWildcard (childNodes n) = None) ->
  everyNode atMostOneNamedVariableChild (addChildNode c n).
Proof.
  intros Hn Hc Hfresh. inversion Hn as [? HQ Hcs]; subst.
  constructor.
  - unfold atMostOneNamedVariableChild in *. simpl. rewrite namedVariables_app.
    destruct (isNamedVariable c) eqn:E; [|lia].
    rewrite (no_wildcard_no_namedVariable _ (Hfresh eq_refl)). simpl. lia.
  - simpl. apply Forall_app. split; [assumption|].
    constructor; [assumption|constructor].
Qed.

Lemma everyNode_setChildNodes (p : RouteNode Meta -> bool) n child child' :
  everyNode atMostOneNamedVariableChild n ->
  find p (childNodes n) = Some child ->
  labels child' = labels child ->
  everyNode atMostOneNamedVariableChild child' ->
  everyNode atMostOneNamedVariableChild
    (setChildNodes (replaceFirst p child' (childNodes n)) n).
Proof.
  intros Hn Hf Hl Hc. inversion Hn as [? HQ Hcs]; subst.
  constructor.
  - unfold atMostOneNamedVariableChild in *. simpl.
    now rewrite (namedVariables_replaceFirst _ _ _ _ Hf Hl).
  - simpl. now apply everyNode_replaceFirst.
Qed.

Lemma addPathPropertyHelper_namedVariable segs sc :
  keepsShape sc ->
  forall this,
    everyNode atMostOneNamedVariableChild this ->
    everyNode atMostOneNamedVariableChild (fst (addPathPropertyHelper segs sc this)).
Proof.
  intros Hsc. induction segs as [|seg rest IH]; intros this Hthis.
  - simpl. now apply everyNode_keepsShape.
  - rewrite addPathPropertyHelper_cons.
    destruct (String.eqb seg "*").
    { destruct rest; [|assumption].
      pose proof (everyNode_keepsShape sc (setIsWildcard true "*" newRouteNode) Hsc
                    (everyNode_leaf (setIsWildcard true "*" newRouteNode) eq_refl)) as Hnew.
      destruct (Hsc (setIsWildcard true "*" (@newRouteNode Meta))) as [Hl _].
      destruct (sc _) as [newChild log]. simpl in *.
      apply everyNode_addChildNode; auto.
      rewrite (isNamedVariable_labels _ _ Hl). discriminate. }
    destruct (isVariableSegment seg).
    + destruct (find isWildcard (childNodes this)) as [child|] eqn:Hf.
      * pose proof (addPathPropertyHelper_labels rest sc child Hsc) as Hl.
        assert (Hc : everyNode atMostOneNamedVariableChild child).
        { inversion Hthis; subst. eapply everyNode_find; eauto. }
        specialize (IH child Hc).
        destruct (addPathPropertyHelper rest sc child) as [child' log]. simpl in *.
        eapply everyNode_setChildNodes; eauto.
      * specialize (IH (setIsWildcard true (substring1 seg) newRouteNode)
                      (everyNode_leaf (setIsWildcard true (substring1 seg) newRouteNode) eq_refl)).
        destruct (addPathPropertyHelper rest sc _) as [newChild log] eqn:E. simpl in *.
        apply everyNode_addChildNode; auto.
    + destruct (find (hasSegment seg) (childNodes this)) as [child|] eqn:Hf.
      * pose proof (addPathPropertyHelper_labels rest sc child Hsc) as Hl.
        assert (Hc : everyNode atMostOneNamedVariableChild child).
        { inversion Hthis; subst. eapply everyNode_find; eauto. }
        specialize (IH child Hc).
        destruct (addPathPropertyHelper rest sc child) as [child' log]. simpl in *.
        eapply everyNode_setChildNodes; eauto.
      * pose proof (addPathPropertyHelper_labels rest sc
                      (setPathSegment seg (@newRouteNode Meta)) Hsc) as Hl.
        specialize (IH (setPathSegment seg newRouteNode)
                      (everyNode_leaf (setPathSegment seg newRouteNode) eq_refl)).
        destruct (addPathPropertyHelper rest sc _) as [newChild log] eqn:E. simpl in *.
        apply everyNode_addChildNode; auto.
        rewrite (isNamedVariable_labels _ _ Hl). discriminate.
Qed.

End RegistrationFacts.

(** * Registration: invariants and configuration errors *)

Section RegistrationClaims.

Variable Meta : Type.

Lemma addPaths_invariant (Q : RouteNode Meta -> Prop)
    (add : list string -> RouteNode Meta -> RouteNode Meta * list LogMsg) :
  (forall segs n, Q n -> Q (fst (add segs n))) ->
  forall paths n, Q n -> Q (fst (addPaths add paths n)).
Proof.
  intros Hadd paths. induction paths as [|path rest IH]; intros n Hn; simpl; auto.
  specialize (Hadd (pathSegmentsFromPath path) n Hn).
  destruct (add (pathSegmentsFromPath path) n) as [n1 log1]. simpl in Hadd.
  specialize (IH n1 Hadd). destruct (addPaths add rest n1). assumption.
Qed.

Lemma register_namedVariable (reg : Registration Meta) (root : RouteNode Meta) :
  everyNode atMostOneNamedVariableChild root ->
  everyNode atMostOneNamedVariableChild (register reg root).
Proof.
  intros H. destruct reg as [paths h|paths i]; simpl;
    unfold addPathHandlerToNode, addPathInspectorToNode;
    apply addPaths_invariant; auto; intros segs n Hn.
  - apply addPathPropertyHelper_namedVariable; auto using setHandler_keepsShape.
  - apply addPathPropertyHelper_namedVariable; auto using addInspector_keepsShape.
Qed.

Lemma extends_trans (a b c : RouteNode Meta) :
  extends a b -> extends b c -> extends a c.
Proof.
  revert b c. pattern a; apply RouteNode_ind; clear a.
  intros seg w v insps cs h IH b c Hab Hbc.
  inversion Hab as [? ? kept1 added1 Hl1 Hc1 Hk1]; subst.
  inversion Hbc as [? ? kept2 added2 Hl2 Hc2 Hk2]; subst.
  rewrite Hc1 in Hk2. apply Forall2_app_inv_l in Hk2 as (k2a & k2b & Hka & Hkb & ->).
  apply (@extends_intro Meta _ _ k2a (k2b ++ added2)).
  - congruence.
  - now rewrite Hc2, <- app_assoc.
  - simpl in *. clear Hc1 Hc2 Hab Hbc Hkb. revert kept1 Hk1 k2a Hka.
    induction IH as [|x xs Hx Hxs IHxs]; intros kept1 Hk1 k2a Hka.
    + inversion Hk1; subst. inversion Hka; subst. constructor.
    + inversion Hk1; subst. inversion Hka; subst. constructor; eauto.
Qed.

Lemma register_extends (reg : Registration Meta) (root : RouteNode Meta) :
  extends root (register reg root).
Proof.
  destruct reg as [paths h|paths i]; simpl;
    unfold addPathHandlerToNode, addPathInspectorToNode.
  - generalize (pathList paths). intros l. revert root.
    induction l as [|path rest IH]; intros root; simpl; [apply extends_refl|].
    pose proof (addPathPropertyHelper_extends Meta (pathSegmentsFromPath path)
                  (setHandler h) (setHandler_keepsShape Meta h) root) as H1.
    unfold addPathHandler.
    destruct (addPathPropertyHelper _ _ root) as [n1 log1]. simpl in H1.
    specialize (IH n1). destruct (addPaths _ rest n1) as [n2 log2]. simpl in *.
    eapply extends_trans; eauto.
  - generalize (pathList paths). intros l. revert root.
    induction l as [|path rest IH]; intros root; simpl; [apply extends_refl|].
    pose proof (addPathPropertyHelper_extends Meta (pathSegmentsFromPath path)
                  _ (addInspector_keepsShape Meta i) root) as H1.
    unfold addPathInspector.
    destruct (addPathPropertyHelper _ _ root) as [n1 log1]. simpl in H1.
    specialize (IH n1). destruct (addPaths _ rest n1) as [n2 log2]. simpl in *.
    eapply extends_trans; eauto.
Qed.

Lemma registerAll_namedVariable (regs : list (Registration Meta)) (root : RouteNode Meta) :
  everyNode atMostOneNamedVariableChild root ->
  everyNode atMostOneNamedVariableChild (registerAll regs root).
Proof.
  revert root. induction regs as [|reg regs IH]; intros root H; simpl; auto.
  apply IH. now apply register_namedVariable.
Qed.

End RegistrationClaims.

(** C3 (as stated) fails.  With [/:id] and [/*] registered, the root has two
    wildcard children; and with [/:a] registered before [/:b], the path
    [/:b] leads to the child created for [/:a], whose variable stays [a]. *)
Lemma C3_two_wildcard_children_and_renamed_variable :
  ~ everyNode atMostOneWildcardChild
      (registerAll [RegisterHandler (OnePath "/:id") (Examples.respond "user");
                    RegisterHandler (OnePath "/*") (Examples.respond "rest")]
         Examples.emptyTrie) /\
  (exists child,
     registeredNode (pathSegmentsFromPath "/:b")
       (registerAll [RegisterHandler (OnePath "/:a") (Examples.respond "first");
                     RegisterHandler (OnePath "/:b") (Examples.respond "second")]
          Examples.emptyTrie) = Some child /\
     pathVariable child = "a" /\ pathVariable child <> "b").
Proof.
  split.
  - intros H. inversion H as [n Hroot _]; subst.
    unfold atMostOneWildcardChild in Hroot. vm_compute in Hroot. lia.
  - eexists. split; [vm_compute; reflexivity|]. split; [reflexivity|discriminate].
Qed.

Section SplatRegistration.

Variable Meta : Type.


(** Once a [*] is followed by more segments, the closure is never called:
    whatever the action, the trie and the log are those of [noAction], and
    the log ends with the error. *)
Lemma segments_after_splat (sc : SetClosure Meta) (next : string) (rest : list string) :
  forall (pre : list string) (this : RouteNode Meta),
    addPathPropertyHelper (pre ++ "*" :: next :: rest) sc this =
    addPathPropertyHelper (pre ++ "*" :: next :: rest) noAction this /\
    exists log k,
      snd (addPathPropertyHelper (pre ++ "*" :: next :: rest) sc this) =
        log ++ [ErrWildcardMoreSegments k] /\ 1 <= k.
Proof.
  induction pre as [|seg pre IH]; intros this.
  - split; [reflexivity|]. exists [], (S (length rest)). split; [reflexivity|lia].
  - rewrite <- !app_comm_cons, !addPathPropertyHelper_cons.
    destruct (String.eqb seg "*").
    { destruct (pre ++ "*" :: next :: rest) as [|s l] eqn:E.
      - destruct pre; discriminate.
      - split; [reflexivity|]. exists [], (length (s :: l)). split; [reflexivity|simpl; lia]. }
    destruct (isVariableSegment seg).
    + destruct (find isWildcard (childNodes this)) as [child|].
      * destruct (IH child) as [-> (log & k & Hlog & Hk)].
        destruct (addPathPropertyHelper _ noAction child) as [child' log3].
        split; [reflexivity|]. simpl in *. subst log3.
        rewrite !app_assoc. eexists _, k. split; [reflexivity|assumption].
      * destruct (IH (setIsWildcard true (substring1 seg) newRouteNode))
          as [-> (log & k & Hlog & Hk)].
        destruct (addPathPropertyHelper _ noAction _) as [child' log3].
        split; [reflexivity|]. simpl in *. subst log3.
        rewrite !app_assoc. eexists _, k. split; [reflexivity|assumption].
    + destruct (find (hasSegment seg) (childNodes this)) as [child|].
      * destruct (IH child) as [-> (log & k & Hlog & Hk)].
        destruct (addPathPropertyHelper _ noAction child) as [child' log3].
        split; [reflexivity|]. simpl in *. eauto.
      * destruct (IH (setPathSegment seg newRouteNode)) as [-> (log & k & Hlog & Hk)].
        destruct (addPathPropertyHelper _ noAction _) as [child' log3].
        split; [reflexivity|]. simpl in *. eauto.
Qed.

End SplatRegistration.

(** C6 (as stated) fails.  Registering a handler for [/a/*/b] on an empty
    trie logs the error and leaves the node [a] without any child: there is
    no splat node, and the handler is installed nowhere. *)
Lemma C6_handler_after_splat_not_installed :
  addPathHandler (pathSegmentsFromPath "/a/*/b") (Examples.respond "h")
    Examples.emptyTrie =
  (mkRouteNode "" false "" [] [mkRouteNode "a" false "" [] [] None] None,
   [ErrWildcardMoreSegments 1]) /\
  registeredNode (pathSegmentsFromPath "/a/*")
    (fst (addPathHandler (pathSegmentsFromPath "/a/*/b") (Examples.respond "h")
            Examples.emptyTrie)) = None.
Proof. split; reflexivity. Qed.

(** * Dispatch: equations and invariants *)

Section DispatchFacts.

Variable Meta : Type.
Variable router : Router Meta.
Variable request : Request.

Implicit Types (c : Context Meta) (node : RouteNode Meta).
Implicit Types (queue : list (ResponseInspector Meta)).
Implicit Types (closest : option (RouteNode Meta)).

(** The loop as the source writes it: one [iteration], continued by the
    loop itself. *)
Lemma walk_eq node queue closest c :
  walk router request node queue closest c =
  iteration router request (walk router request) node queue closest c.
Proof.
  destruct node as [seg w v insps cs h]. unfold iteration.
  cbn [walk inspectors childNodes handler].
  set (n := mkRouteNode seg w v insps cs h).
  assert (Hselect : forall q cl seg0 children,
    (fix select (children : list (RouteNode Meta)) : Exec Meta Empty_set :=
       match children with
       | [] => afterLoop router request q cl
       | child :: others =>
           if matchesSegment seg0 child
           then captureVariable child seg0 ;;; walk router request child q cl
           else select others
       end) children =
    match find (matchesSegment seg0) children with
    | Some next => captureVariable next seg0 ;;; walk router request next q cl
    | None => afterLoop router request q cl
    end).
  { intros q cl seg0 children. induction children as [|child others IH]; [reflexivity|].
    cbn [find]. destruct (matchesSegment seg0 child); [reflexivity|exact IH]. }
  unfold bind at 1 5.
  destruct (processInspectors router request insps queue c) as [[[q| |] c1] ev1];
    [|reflexivity|reflexivity].
  unfold bind at 1 4. unfold readContext at 1 2.
  destruct (pathPartsArray c1) as [|seg0 rest]; [reflexivity|].
  unfold bind at 1 3. unfold modifyContext at 1 2.
  rewrite Hselect. reflexivity.
Qed.

Lemma exec_eta {A : Type} (out : Flow A * Context Meta * list (Event Meta)) :
  (let '(f, c2, ev2) := out in (f, c2, [] ++ ev2)) = out.
Proof. destruct out as [[f c2] ev2]. reflexivity. Qed.

(** *** The response-inspector queue *)

(** [processResponseInspectors] calls response inspectors and nothing else,
    taking them from the front of the queue, in order, each with the same
    response. *)
Lemma runResponseInspectors_calls queue (r : Response) c :
  forall fault c1 evs,
    runResponseInspectors queue request r c = (fault, c1, evs) ->
    forallb isResponseInspectorCall evs = true /\
    responseInspectorCalls evs =
      map (fun ri => (ri, r)) (firstn (length evs) queue) /\
    (fault = None -> length evs = length queue).
Proof.
  revert c. induction queue as [|ri rest IH]; intros c fault c1 evs; simpl.
  - intros [= <- <- <-]. auto.
  - destruct (runResponseInspector ri request r c) as [[[a|[a|e]]|e] c'].
    + destruct (runResponseInspectors rest request r (retainArray c c')) as [[f2 c2] evs2] eqn:E.
      intros [= <- <- <-]. destruct (IH _ _ _ _ E) as (H1 & H2 & H3).
      simpl. rewrite H1, H2. auto.
    + destruct (runResponseInspectors rest request r (retainArray c c')) as [[f2 c2] evs2] eqn:E.
      intros [= <- <- <-]. destruct (IH _ _ _ _ E) as (H1 & H2 & H3).
      simpl. rewrite H1, H2. auto.
    + intros [= <- <- <-]. simpl. repeat split; discriminate.
    + intros [= <- <- <-]. simpl. repeat split; discriminate.
Qed.

Lemma runResponseInspectors_completes queue (r : Response) c :
  Forall (completes request r) queue ->
  exists c1 evs, runResponseInspectors queue request r c = (None, c1, evs).
Proof.
  intros H. revert c. induction H as [|ri rest Hri Hrest IH]; intros c; simpl.
  - eauto.
  - destruct (Hri c) as (v & c' & -> & Hv).
    destruct (IH (retainArray c c')) as (c1 & evs & ->).
    destruct v as [a|[a|e]]; eauto. now destruct (Hv e).
Qed.

Lemma processResponseInspectors_now queue (r : Response) c :
  forall s c1 evs,
    processResponseInspectors queue request (Now r) c = (s, c1, evs) ->
    forallb isResponseInspectorCall evs = true /\
    responseInspectorCalls evs =
      map (fun ri => (ri, r)) (firstn (length evs) queue) /\
    (Forall (completes request r) queue ->
       s = Fulfilled r /\ responseInspectorCalls evs = map (fun ri => (ri, r)) queue).
Proof.
  intros s c1 evs. unfold processResponseInspectors.
  destruct (runResponseInspectors queue request r c) as [[fault c2] evs2] eqn:E.
  destruct (runResponseInspectors_calls _ _ _ _ _ _ E) as (H1 & H2 & H3).
  intros Hs. assert (evs2 = evs) as <- by (destruct fault; congruence).
  split; [assumption|]. split; [assumption|].
  intros Hq. destruct (runResponseInspectors_completes queue r c Hq) as (c3 & evs3 & E3).
  rewrite E in E3. injection E3 as -> -> ->. injection Hs as <- <-.
  split; [reflexivity|]. rewrite H2, (H3 eq_refl), firstn_all. reflexivity.
Qed.

(** *** One inspector *)

(** An inspector that is out of scope is skipped altogether. *)
Lemma processInspector_out_of_scope queue (inspector : Inspector Meta) c :
  inScope c inspector = false ->
  processInspector router request queue inspector c = (Next queue, c, []).
Proof.
  intros H. unfold processInspector, bind, readContext, ret.
  destruct (requestInspector inspector), (responseInspector inspector);
    rewrite ?H; reflexivity.
Qed.

(** An inspector without a request inspector only queues its response
    inspector, when it has one and is in scope. *)
Lemma processInspector_no_request queue (inspector : Inspector Meta) c :
  requestInspector inspector = None ->
  processInspector router request queue inspector c =
  (Next (match responseInspector inspector with
         | Some rsp => if inScope c inspector then queue ++ [rsp] else queue
         | None => queue
         end), c, []).
Proof.
  intros H. unfold processInspector, bind, readContext, ret. rewrite H.
  destruct (responseInspector inspector); [destruct (inScope c inspector)|]; reflexivity.
Qed.

(** The request inspector answers with a response: the walk ends there. *)
Lemma processInspector_halt queue (inspector : Inspector Meta) ri c v c1 o r :
  requestInspector inspector = Some ri ->
  inScope c inspector = true ->
  runRequestInspector ri request c = (Done v, c1) ->
  fulfilledWith v o ->
  response o = Some r ->
  processInspector router request queue inspector c =
  let '(s, c2, evs) :=
    processResponseInspectors queue request (Now r) (retainArray c c1) in
  (Returns (Later s), c2, CalledRequestInspector inspector c :: evs).
Proof.
  intros Hri Hscope Hrun Hv Hr.
  unfold processInspector, bind, readContext, call, returnProcessed.
  rewrite Hri, Hscope, Hrun.
  destruct Hv as [-> | ->]; simpl; rewrite Hr;
    destruct (processResponseInspectors _ _ _ _) as [[s c2] evs]; reflexivity.
Qed.

(** The request inspector answers "continue" without a response. *)
Lemma processInspector_continue queue (inspector : Inspector Meta) ri c v c1 o :
  requestInspector inspector = Some ri ->
  inScope c inspector = true ->
  runRequestInspector ri request c = (Done v, c1) ->
  fulfilledWith v o ->
  response o = None ->
  shouldContinue o = true ->
  processInspector router request queue inspector c =
  (Next (match responseInspector inspector with
         | Some rsp => if inScope (retainArray c c1) inspector then queue ++ [rsp] else queue
         | None => queue
         end), retainArray c c1, [CalledRequestInspector inspector c]).
Proof.
  intros Hri Hscope Hrun Hv Hr Hc.
  unfold processInspector, bind, readContext, call, ret.
  rewrite Hri, Hscope, Hrun.
  destruct Hv as [-> | ->]; simpl; rewrite Hr, Hc; simpl;
    (destruct (responseInspector inspector);
     [destruct (inScope (retainArray c c1) inspector)|]; reflexivity).
Qed.

(** The request inspector answers neither: the server-error handler is
    called and its answer goes through the queue. *)
Lemma processInspector_malformed queue (inspector : Inspector Meta) ri c v c1 o :
  requestInspector inspector = Some ri ->
  inScope c inspector = true ->
  runRequestInspector ri request c = (Done v, c1) ->
  fulfilledWith v o ->
  response o = None ->
  shouldContinue o = false ->
  exists f c2 evs,
    processInspector router request queue inspector c =
    (f, c2,
     CalledRequestInspector inspector c ::
     Logged (ErrNoResponseNoContinue (pathname (url (retainArray c c1)))) ::
     CalledHandler ServerError (server_error_handler router) (retainArray c c1) :: evs) /\
    (forall a, f <> Next a).
Proof.
  intros Hri Hscope Hrun Hv Hr Hc.
  unfold processInspector, bind, readContext, call, ret, consoleLog, callHandler, call,
    returnProcessed.
  rewrite Hri, Hscope, Hrun.
  destruct Hv as [-> | ->]; simpl; rewrite Hr, Hc; simpl.
  all: destruct (runHandler (server_error_handler router) request (retainArray c c1))
         as [[resp|e] c3].
  all: try destruct (processResponseInspectors queue request resp _) as [[s c4] evs].
  all: do 3 eexists; split; [reflexivity|discriminate].
Qed.

(** Inspectors without request inspector: those in scope queue their
    response inspector. *)
Lemma processInspectors_audit_scoped (insps : list (Inspector Meta)) :
  forall queue c,
    Forall (fun i => requestInspector i = None) insps ->
    processInspectors router request insps queue c =
    (Next (queue ++ omap (fun i => if inScope c i then responseInspector i else None) insps),
     c, []).
Proof.
  induction insps as [|i rest IH]; intros queue c Hall.
  - cbn. now rewrite app_nil_r.
  - apply Forall_cons in Hall as [Hi Hrest].
    cbn [processInspectors]. unfold bind.
    rewrite (processInspector_no_request queue i c Hi).
    rewrite IH by assumption. cbn [omap list_omap].
    destruct (inScope c i); [destruct (responseInspector i)|]; cbn [app];
      rewrite <- ?app_assoc; try reflexivity.
    destruct (responseInspector i); reflexivity.
Qed.

Lemma processInspectors_app (pre post : list (Inspector Meta)) queue0 c0 :
  processInspectors router request (pre ++ post) queue0 c0 =
  (queue <- processInspectors router request pre queue0 ;;
   processInspectors router request post queue) c0.
Proof.
  revert queue0 c0. induction pre as [|i pre IH]; intros queue0 c0; simpl.
  - unfold bind, ret. destruct (processInspectors router request post queue0 c0) as [[f c] ev].
    reflexivity.
  - unfold bind.
    destruct (processInspector router request queue0 i c0) as [[[q| |] c1] ev1]; auto.
    rewrite IH. unfold bind.
    destruct (processInspectors router request pre q c1) as [[[q'| |] c2] ev2]; auto.
    destruct (processInspectors router request post q' c2) as [[f c3] ev3].
    now rewrite app_assoc.
Qed.

(** *** What every callback sees *)

Lemma attached_retainArray c c1 : attached c -> attached (retainArray c c1).
Proof.
  unfold attached, retainArray. destruct (pathParts c); [|congruence].
  intros _. destruct (pathParts c1) eqn:E; [rewrite E|]; discriminate.
Qed.

Lemma attached_shiftPathParts c : attached (shiftPathParts c).
Proof. discriminate. Qed.

Lemma attached_addPathVariable name value c :
  attached c -> attached (addPathVariable name value c).
Proof. auto. Qed.

Lemma attached_getPathParts c : attached (snd (getPathParts c)).
Proof.
  unfold attached, getPathParts. destruct (pathParts c) eqn:E; simpl; [rewrite E|];
    discriminate.
Qed.

Lemma outcomeOk_bind {A B : Type} (m : Exec Meta A) (k : A -> Exec Meta B) c :
  outcomeOk (m c) ->
  (forall a c1 ev1, m c = (Next a, c1, ev1) -> attached c1 -> outcomeOk (k a c1)) ->
  outcomeOk (bind m k c).
Proof.
  unfold bind, outcomeOk. destruct (m c) as [[[a| |] c1] ev1]; simpl; auto.
  intros [Ha Hev] Hk. specialize (Hk a c1 ev1 eq_refl Ha).
  destruct (k a c1) as [[f c2] ev2]. simpl in *.
  destruct Hk. split; [assumption|]. apply Forall_app. auto.
Qed.

Lemma runResponseInspectors_ok queue (r : Response) c :
  attached c ->
  attached (snd (fst (runResponseInspectors queue request r c))) /\
  Forall eventOk (snd (runResponseInspectors queue request r c)).
Proof.
  revert c. induction queue as [|ri rest IH]; intros c Hc; simpl.
  - split; [assumption|constructor].
  - destruct (runResponseInspector ri request r c) as [[[a|[a|e]]|e] c'].
    1,2: specialize (IH (retainArray c c') (attached_retainArray c c' Hc));
      destruct (runResponseInspectors rest request r (retainArray c c')) as [[f2 c2] evs2];
      simpl in *; destruct IH; split; [assumption|constructor; simpl; auto].
    all: simpl; split; [now apply attached_retainArray|repeat constructor].
Qed.

Lemma returnProcessed_ok {A : Type} queue (v : MaybePromise Response) c :
  attached c -> outcomeOk (@returnProcessed Meta A queue request v c).
Proof.
  intros Hc. unfold returnProcessed, processResponseInspectors, outcomeOk.
  destruct v as [r|[r|e]].
  3: { simpl. split; [assumption|constructor]. }
  all: destruct (runResponseInspectors_ok queue r c Hc) as [H1 H2];
    destruct (runResponseInspectors queue request r c) as [[[e|] c1] evs]; simpl in *; auto.
Qed.

Lemma callHandler_ok site (h : Handler Meta) c :
  attached c ->
  (site = ExactMatch -> pathPartsArray c = []) ->
  outcomeOk (callHandler site h request c).
Proof.
  intros Hc Hsite. unfold callHandler, call, outcomeOk.
  assert (Hev : eventOk (CalledHandler site h c)).
  { destruct site; simpl; auto. specialize (Hsite eq_refl).
    unfold attached, pathPartsArray in *. destruct (pathParts c); congruence. }
  destruct (runHandler h request c) as [[v|e] c1]; simpl;
    (split; [now apply attached_retainArray|repeat constructor; assumption]).
Qed.

Lemma callHandler_attached site (h : Handler Meta) c a c1 ev1 :
  attached c -> callHandler site h request c = (a, c1, ev1) -> attached c1.
Proof.
  unfold callHandler, call. intros Hc.
  destruct (runHandler h request c) as [[v|e] c']; intros [= <- <- <-];
    now apply attached_retainArray.
Qed.

Lemma handler_then_queue_ok site (h : Handler Meta) queue c :
  attached c ->
  (site = ExactMatch -> pathPartsArray c = []) ->
  outcomeOk ((v <- callHandler site h request ;;
              @returnProcessed Meta Empty_set queue request v) c).
Proof.
  intros Hc Hsite. apply outcomeOk_bind.
  - now apply callHandler_ok.
  - intros v c1 ev1 E Hc1. now apply returnProcessed_ok.
Qed.

Lemma ret_ok {A : Type} (a : A) c : attached c -> outcomeOk (@ret Meta A a c).
Proof. intros Hc. split; [assumption|constructor]. Qed.

Lemma processInspector_ok queue (inspector : Inspector Meta) c :
  attached c -> outcomeOk (processInspector router request queue inspector c).
Proof.
  intros Hc. unfold processInspector.
  apply outcomeOk_bind.
  - apply outcomeOk_bind; [now apply ret_ok|].
    intros c0 c1 ev1 [= <- <- <-] _.
    destruct (requestInspector inspector) as [ri|]; [|now apply ret_ok].
    destruct (inScope c inspector) eqn:Hs; [|now apply ret_ok].
    apply outcomeOk_bind.
    { unfold call. destruct (runRequestInspector ri request c) as [[v|e] c'];
        (split; [now apply attached_retainArray|repeat constructor; assumption]). }
    intros v c2 ev2 _ Hc2. apply outcomeOk_bind.
    { destruct v as [o|[o|e]]; split; simpl; auto. }
    intros o c3 ev3 _ Hc3.
    destruct (response o) as [r|]; [now apply returnProcessed_ok|].
    destruct (shouldContinue o); [now apply ret_ok|].
    apply outcomeOk_bind; [now apply ret_ok|].
    intros c3' c3'' ev3' [= <- <- <-] _.
    apply outcomeOk_bind.
    { split; [assumption|repeat constructor]. }
    intros _ c4 ev4 _ Hc4. apply outcomeOk_bind.
    { apply callHandler_ok; [assumption|discriminate]. }
    intros v' c5 ev5 _ Hc5. now apply returnProcessed_ok.
  - intros _ c1 ev1 _ Hc1. apply outcomeOk_bind; [now apply ret_ok|].
    intros c0 c2 ev2 [= <- <- <-] _.
    destruct (responseInspector inspector); [destruct (inScope c1 inspector)|];
      now apply ret_ok.
Qed.

Lemma processInspectors_ok (inspectors : list (Inspector Meta)) queue c :
  attached c -> outcomeOk (processInspectors router request inspectors queue c).
Proof.
  revert queue c. induction inspectors as [|i rest IH]; intros queue c Hc; simpl.
  - now apply ret_ok.
  - apply outcomeOk_bind; [now apply processInspector_ok|].
    intros q c1 ev1 _ Hc1. now apply IH.
Qed.

Lemma atExactMatch_ok queue node c :
  attached c -> pathPartsArray c = [] ->
  outcomeOk (atExactMatch router request queue node c).
Proof.
  intros Hc Hp. unfold atExactMatch.
  destruct (handler node); apply handler_then_queue_ok; auto; discriminate.
Qed.

Lemma afterLoop_ok queue closest c :
  attached c -> outcomeOk (afterLoop router request queue closest c).
Proof.
  intros Hc. unfold afterLoop.
  destruct closest as [w|]; [destruct (handler w)|];
    apply handler_then_queue_ok; auto; discriminate.
Qed.

Lemma walk_ok node :
  forall queue closest c,
    attached c -> outcomeOk (walk router request node queue closest c).
Proof.
  pattern node; apply RouteNode_ind; clear node.
  intros seg w v insps cs h IH queue closest c Hc.
  rewrite walk_eq. unfold iteration.
  apply outcomeOk_bind; [now apply processInspectors_ok|].
  intros q c1 ev1 _ Hc1. apply outcomeOk_bind; [now apply ret_ok|].
  intros c0 c2 ev2 [= <- <- <-] _.
  destruct (pathPartsArray c1) as [|seg0 rest] eqn:Hp.
  - now apply atExactMatch_ok.
  - apply outcomeOk_bind.
    { split; [apply attached_shiftPathParts|constructor]. }
    intros _ c3 ev3 _ Hc3. cbn [childNodes].
    destruct (find (matchesSegment seg0) cs) as [next|] eqn:Hf.
    + apply outcomeOk_bind.
      { unfold captureVariable. destruct (_ && _); split; simpl; auto. }
      intros _ c4 ev4 _ Hc4.
      apply find_some in Hf as [Hin _].
      rewrite List.Forall_forall in IH. now apply IH.
    + now apply afterLoop_ok.
Qed.

Lemma tryBlock_ok c :
  outcomeOk (tryBlock router request c) \/
  Forall eventOk (snd (tryBlock router request c)).
Proof.
  unfold tryBlock.
  destruct (String.eqb (method request) "GET" || String.eqb (method request) "HEAD"
            || String.eqb (method request) "POST") eqn:Hm.
  - left.
    assert (Hroot : forall root,
      outcomeOk (((fun c => (Next tt, snd (getPathParts c), [])) ;;;
                  modifyContext shiftPathParts ;;;
                  walk router request root [] None) c)).
    { intros root. apply outcomeOk_bind.
      { split; [apply attached_getPathParts|constructor]. }
      intros _ c1 ev1 _ Hc1. apply outcomeOk_bind.
      { split; [apply attached_shiftPathParts|constructor]. }
      intros _ c2 ev2 _ Hc2. now apply walk_ok. }
    destruct (String.eqb (method request) "GET"); [apply Hroot|].
    destruct (String.eqb (method request) "HEAD"); [apply Hroot|].
    destruct (String.eqb (method request) "POST"); [apply Hroot|discriminate].
  - right. apply orb_false_elim in Hm as [Hm ->]. apply orb_false_elim in Hm as [-> ->].
    unfold bind, consoleLog, callHandler, call, returns.
    destruct (runHandler (not_found_handler router) request c) as [[v|e] c1]; simpl;
      repeat constructor.
Qed.

(** Every event of a request satisfies [eventOk]. *)
Lemma requestHandler_events_ok :
  Forall eventOk (snd (requestHandler router request)).
Proof.
  unfold requestHandler, afterTry.
  destruct (context_metadata_constructor router request) as [m|e]; [|constructor].
  assert (H : Forall eventOk (snd (tryBlock router request (newContext request m)))).
  { destruct (tryBlock_ok (newContext request m)) as [[_ H]|H]; exact H. }
  destruct (tryBlock router request (newContext request m)) as [[[[]|v|e] c] evs];
    simpl in *; [assumption|].
  destruct (runHandler (server_error_handler router) request c) as [[v|e'] c1]; simpl;
    (apply Forall_app; split; [assumption|repeat constructor]).
Qed.

End DispatchFacts.

(** * A single route: what registration builds and how the walk follows it *)

Section SingleRouteFacts.

Variable Meta : Type.
Variable router : Router Meta.
Variable request : Request.

Implicit Types (c : Context Meta) (this node : RouteNode Meta).
Implicit Types (queue : list (ResponseInspector Meta)).
Implicit Types (segs vals : list string).

Lemma freshChild_childless seg :
  childNodes (@freshChild Meta seg) = [] /\ handler (@freshChild Meta seg) = None /\
  inspectors (@freshChild Meta seg) = [].
Proof.
  unfold freshChild. destruct (String.eqb seg "*"); [|destruct (isVariableSegment seg)];
    repeat split.
Qed.

(** Registering an accepted path below a node without children builds
    [route], and logs nothing. *)
Lemma addPathHandler_route (h : Handler Meta) segs :
  splatOnlyLast segs = true ->
  forall this,
    childNodes this = [] -> handler this = None ->
    addPathHandler segs h this = (route segs h this, []).
Proof.
  unfold addPathHandler.
  induction segs as [|seg rest IH]; intros Hsegs this Hcs Hh.
  - simpl. unfold setHandler. now rewrite Hh.
  - rewrite addPathPropertyHelper_cons. cbn [route]. unfold freshChild.
    cbn [splatOnlyLast] in Hsegs. apply andb_prop in Hsegs as [Hstar Hrest].
    rewrite Hcs. cbn [find length Nat.ltb Nat.leb].
    destruct (String.eqb seg "*") eqn:Es.
    + destruct rest; [|discriminate]. reflexivity.
    + destruct (isVariableSegment seg).
      * rewrite IH; auto.
      * rewrite IH; auto.
Qed.

(** An iteration at a node that carries no inspector. *)
Lemma iteration_no_inspectors continue node queue closest c :
  inspectors node = [] ->
  iteration router request continue node queue closest c =
  match pathPartsArray c with
  | [] => atExactMatch router request queue node c
  | seg :: _ =>
      match find (matchesSegment seg) (childNodes node) with
      | Some next =>
          (captureVariable next seg ;;; continue next queue (captureSplat node closest))
            (shiftPathParts c)
      | None => afterLoop router request queue (captureSplat node closest) (shiftPathParts c)
      end
  end.
Proof.
  intros Hi. unfold iteration. rewrite Hi. cbn [processInspectors].
  unfold bind at 1. cbn [ret]. unfold bind at 1. cbn [readContext].
  destruct (pathPartsArray c) as [|seg rest].
  - destruct (atExactMatch router request queue node c) as [[f c2] ev2]. reflexivity.
  - unfold bind at 1. cbn [modifyContext].
    destruct (find (matchesSegment seg) (childNodes node)) as [next|].
    + destruct ((captureVariable next seg ;;; continue next queue (captureSplat node closest))
                  (shiftPathParts c)) as [[f c2] ev2]. reflexivity.
    + destruct (afterLoop router request queue (captureSplat node closest) (shiftPathParts c))
        as [[f c2] ev2]. reflexivity.
Qed.

Lemma route_labels (h : Handler Meta) segs this :
  labels (route segs h this) = labels this.
Proof.
  destruct segs; simpl; [|reflexivity].
  unfold setHandler. destruct (handler this); reflexivity.
Qed.

Lemma route_inspectors (h : Handler Meta) segs this :
  inspectors (route segs h this) = inspectors this.
Proof.
  destruct segs; simpl; [|reflexivity].
  unfold setHandler. destruct (handler this); reflexivity.
Qed.

Lemma route_handler_nil (h : Handler Meta) this :
  handler this = None -> handler (route [] h this) = Some h.
Proof. intros H. simpl. unfold setHandler. now rewrite H. Qed.

Lemma isVariableSegment_not_star seg : isVariableSegment seg = true -> String.eqb seg "*" = false.
Proof.
  destruct seg as [|a [|b s]]; try discriminate. intros _. simpl.
  destruct (Ascii.eqb a "*"); reflexivity.
Qed.

Lemma isVariableSegment_truthy seg : isVariableSegment seg = true -> truthy (substring1 seg) = true.
Proof. destruct seg as [|a [|b s]]; try discriminate. reflexivity. Qed.

Lemma freshChild_labels seg :
  labels (@freshChild Meta seg) =
  if String.eqb seg "*" then ("", true, "*")
  else if isVariableSegment seg then ("", true, substring1 seg)
  else (seg, false, "").
Proof.
  unfold freshChild. destruct (String.eqb seg "*"); [reflexivity|].
  destruct (isVariableSegment seg) eqn:E; [|reflexivity].
  unfold setIsWildcard, labels. simpl. now rewrite (isVariableSegment_truthy _ E).
Qed.

Lemma labels_fields node seg w v :
  labels node = (seg, w, v) -> pathSegment node = seg /\ isWildcard node = w /\ pathVariable node = v.
Proof. unfold labels. intros [= <- <- <-]. auto. Qed.

(** The child made for a segment is the one [find] selects for any request
    segment that fits, and [captureVariable] on it is [advance]. *)
Lemma route_child_selected (h : Handler Meta) seg rest val c :
  fits seg val ->
  matchesSegment val (route rest h (freshChild seg)) = true /\
  captureVariable (route rest h (freshChild seg)) val (shiftPathParts c) =
    (Next tt, advance seg val c, []).
Proof.
  intros Hfit.
  pose proof (eq_trans (route_labels h rest (freshChild seg)) (freshChild_labels seg)) as Hl.
  unfold matchesSegment, captureVariable, advance.
  destruct (String.eqb seg "*") eqn:Es.
  - apply labels_fields in Hl as (Hs & Hw & Hv). rewrite Hw, Hv.
    apply String.eqb_eq in Es as ->. split; reflexivity.
  - destruct (isVariableSegment seg) eqn:Ev;
      apply labels_fields in Hl as (Hs & Hw & Hv); rewrite ?Hs, Hw, Hv; simpl.
    + split; [reflexivity|]. destruct (String.eqb (substring1 seg) "*"); reflexivity.
    + destruct Hfit as [-> | [Hv' | ->]]; [discriminate Es|congruence|].
      split; [|reflexivity]. apply String.eqb_refl.
Qed.

(** One iteration of the walk along a route, with no inspector on the way. *)
Lemma walk_route_step (h : Handler Meta) seg rest this val vals queue closest c :
  childNodes this = [] -> inspectors this = [] ->
  pathPartsArray c = val :: vals ->
  fits seg val ->
  walk router request (route (seg :: rest) h this) queue closest c =
  walk router request (route rest h (freshChild seg)) queue
    (captureSplat (route (seg :: rest) h this) closest) (advance seg val c).
Proof.
  intros Hcs Hi Hp Hfit. rewrite walk_eq.
  rewrite iteration_no_inspectors by (now rewrite route_inspectors).
  rewrite Hp. cbn [route addChildNode childNodes]. rewrite Hcs. cbn [app find].
  destruct (route_child_selected h seg rest val c Hfit) as [-> Hcap].
  unfold bind at 1. rewrite Hcap.
  destruct (walk router request _ queue _ (advance seg val c)) as [[f c2] ev2].
  reflexivity.
Qed.

Lemma pathPartsArray_advance seg val vals c :
  pathPartsArray c = val :: vals -> pathPartsArray (advance seg val c) = vals.
Proof.
  intros H. unfold advance.
  assert (Hs : pathPartsArray (shiftPathParts c) = vals).
  { change (pathPartsArray (shiftPathParts c)) with (tail (pathPartsArray c)).
    now rewrite H. }
  destruct (_ && _); [|exact Hs]. exact Hs.
Qed.

Lemma pathPartsArray_advanceAll segs :
  forall vals more c,
    length segs = length vals ->
    pathPartsArray c = vals ++ more ->
    pathPartsArray (advanceAll segs vals c) = more.
Proof.
  induction segs as [|seg segs IH]; intros [|val vals] more c Hlen Hp; try discriminate.
  - assumption.
  - simpl. apply IH; [now injection Hlen|]. eapply pathPartsArray_advance. exact Hp.
Qed.

(** The walk along a route whose pattern the request fits segment by
    segment ends at the handler of the route, by exact match. *)
Lemma walk_route_exact (h : Handler Meta) segs :
  forall vals this queue closest c,
    Forall2 fits segs vals ->
    childNodes this = [] -> inspectors this = [] -> handler this = None ->
    pathPartsArray c = vals ->
    walk router request (route segs h this) queue closest c =
    (v <- callHandler ExactMatch h request ;;
     @returnProcessed Meta Empty_set queue request v) (advanceAll segs vals c).
Proof.
  induction segs as [|seg rest IH]; intros vals this queue closest c Hfit Hcs Hi Hh Hp.
  - apply Forall2_nil_inv_l in Hfit. rewrite Hfit in Hp. rewrite walk_eq.
    rewrite iteration_no_inspectors by (now rewrite route_inspectors).
    rewrite Hp. unfold atExactMatch. rewrite (route_handler_nil h this Hh).
    rewrite Hfit. reflexivity.
  - apply Forall2_cons_inv_l in Hfit as (val & vals' & Hfit1 & Hfit2 & Hvals).
    rewrite Hvals in Hp. rewrite Hvals.
    rewrite (walk_route_step h seg rest this val vals' queue closest c Hcs Hi Hp Hfit1).
    destruct (@freshChild_childless seg) as (Hc1 & Hc2 & Hc3).
    cbn [advanceAll]. apply IH; auto.
    eapply pathPartsArray_advance; eauto.
Qed.

Lemma pathPartsArray_startContext (m : Meta) :
  pathPartsArray (startContext request m) = requestParts request.
Proof. reflexivity. Qed.

(** A GET request walks the GET trie from its root, with an empty queue. *)
Lemma requestHandler_GET (m : Meta) :
  method request = "GET" ->
  context_metadata_constructor router request = Ok m ->
  requestHandler router request =
  afterTry router request
    (walk router request (get_routes router) [] None (startContext request m)).
Proof.
  intros Hm Hk. unfold requestHandler, tryBlock. rewrite Hk, Hm. cbn [String.eqb Ascii.eqb Bool.eqb].
  f_equal. unfold bind at 1. unfold bind at 1. cbn [modifyContext].
  fold (startContext request m).
  destruct (walk router request (get_routes router) [] None (startContext request m))
    as [[f c] evs].
  reflexivity.
Qed.

(** *** What the handler of a route finds in the context *)

Lemma attached_advance seg val c : attached (advance seg val c).
Proof. unfold advance. destruct (_ && _); discriminate. Qed.

Lemma attached_advanceAll segs :
  forall vals c, attached c -> attached (advanceAll segs vals c).
Proof.
  induction segs as [|seg segs IH]; intros [|val vals] c Hc; try assumption.
  simpl. apply IH, attached_advance.
Qed.

Lemma isLiteralSegment_spec seg :
  isLiteralSegment seg = true ->
  String.eqb seg "*" = false /\ isVariableSegment seg = false.
Proof.
  unfold isLiteralSegment. intros H. apply andb_prop in H as [H1 H2].
  now rewrite negb_true_iff in H1, H2.
Qed.

Lemma getPathParts_attached c :
  attached c -> fst (getPathParts c) = pathPartsArray c.
Proof.
  unfold attached, getPathParts, pathPartsArray. destruct (pathParts c); [reflexivity|congruence].
Qed.

(** The events of "call the handler, then run the queue on its answer"
    start with the call of the handler, in the current context; and so do
    the events of the request that ends that way. *)
Lemma handler_then_queue_events site (h : Handler Meta) queue c :
  exists f c2 rest,
    (v <- callHandler site h request ;;
     @returnProcessed Meta Empty_set queue request v) c =
    (f, c2, CalledHandler site h c :: rest).
Proof.
  unfold bind, callHandler, call.
  destruct (runHandler h request c) as [[v|e] c1].
  - destruct (returnProcessed queue request v (retainArray c c1)) as [[f c2] evs].
    do 3 eexists. reflexivity.
  - do 3 eexists. reflexivity.
Qed.

Lemma afterTry_events_head (f : Flow Empty_set) c (ev : Event Meta) rest :
  exists rest', snd (afterTry router request (f, c, ev :: rest)) = ev :: rest'.
Proof.
  unfold afterTry. destruct f as [[]|v|e]; simpl; [eauto|].
  destruct (runHandler (server_error_handler router) request c) as [[v|e'] c1]; simpl; eauto.
Qed.

(** A GET request whose walk ends by calling a handler: the call of that
    handler is the first event of the request. *)
Lemma request_events_head (m : Meta) site (h : Handler Meta) c :
  method request = "GET" ->
  context_metadata_constructor router request = Ok m ->
  walk router request (get_routes router) [] None (startContext request m) =
    (v <- callHandler site h request ;;
     @returnProcessed Meta Empty_set [] request v) c ->
  exists rest, snd (requestHandler router request) = CalledHandler site h c :: rest.
Proof.
  intros Hm Hk Hw. rewrite (requestHandler_GET m Hm Hk), Hw.
  destruct (handler_then_queue_events site h [] c) as (f & c2 & rest & ->).
  apply afterTry_events_head.
Qed.

End SingleRouteFacts.

Section RouterRegistrationFacts.

Variable Meta : Type.

(** The first route registered for GET on a new router. *)
Lemma get_first_route (nf se : option (Handler Meta)) (mk : Request -> Sync Meta)
    (path : string) (h : Handler Meta) :
  splatOnlyLast (pathSegmentsFromPath path) = true ->
  get (OnePath path) h (newRouter nf se mk) =
  (withGetRoutes (newRouter nf se mk) (route (pathSegmentsFromPath path) h newRouteNode), []).
Proof.
  intros H. unfold get, addPathHandlerToNode. cbn [pathList addPaths].
  cbn [newRouter get_routes].
  rewrite (addPathHandler_route Meta h _ H newRouteNode eq_refl eq_refl). reflexivity.
Qed.

(** Registering one more GET route changes the GET trie only. *)
Lemma get_fields (path : string) (h : Handler Meta) (r : Router Meta) :
  get_routes (fst (get (OnePath path) h r)) =
    fst (addPathHandler (pathSegmentsFromPath path) h (get_routes r)) /\
  context_metadata_constructor (fst (get (OnePath path) h r)) =
    context_metadata_constructor r /\
  not_found_handler (fst (get (OnePath path) h r)) = not_found_handler r /\
  server_error_handler (fst (get (OnePath path) h r)) = server_error_handler r.
Proof.
  unfold get, addPathHandlerToNode. cbn [pathList addPaths].
  destruct (addPathHandler (pathSegmentsFromPath path) h (get_routes r)) as [n log].
  repeat split.
Qed.

End RouterRegistrationFacts.


(** * Claims about dispatch *)

(** C1: a fault raised while [requestHandler] dispatches should end in the
    answer of the server-error handler, and never in a rejected promise.
    The code does this for faults thrown inside the [try] block (a handler
    that throws is answered with 500, and the queued response inspector is
    not run), but not for the others: the promise of
    [processResponseInspectors] is returned without [await], so the
    rejection of an [async] handler, or a fault of a response inspector,
    rejects the promise of [requestHandler]; and the metadata constructor
    runs before the [try] block. *)
Theorem C1_async_faults_reject_the_promise :
  (* an async handler that rejects *)
  fst (requestHandler Scenarios.asyncFailure (Examples.GET "/")) = Rejected "boom" /\
  handlerCalls (snd (requestHandler Scenarios.asyncFailure (Examples.GET "/"))) =
    [(ExactMatch, "home", [], None)] /\
  (* a response inspector that throws *)
  fst (requestHandler Scenarios.inspectorFailure (Examples.GET "/")) = Rejected "boom" /\
  (* a metadata constructor that throws *)
  requestHandler Scenarios.factoryFailure (Examples.GET "/") = (Rejected "boom", []) /\
  (* a handler that throws: caught, and the queue is not run *)
  fst (requestHandler Scenarios.syncFailure (Examples.GET "/")) =
    Fulfilled (mkResponse 500 "Internal Server Error") /\
  responseInspectorCalls (snd (requestHandler Scenarios.syncFailure (Examples.GET "/"))) = [] /\
  handlerCalls (snd (requestHandler Scenarios.syncFailure (Examples.GET "/"))) =
    [(ExactMatch, "home", [], None); (ServerError, "default_server_error_handler", [], None)].
Proof. repeat split; vm_compute; reflexivity. Qed.

Section ChildSelection.

Variable Meta : Type.
Variable router : Router Meta.
Variable request : Request.

(** [find] returns the first child, in the order of the list, that
    satisfies the predicate. *)
Lemma find_first (p : RouteNode Meta -> bool) (before after : list (RouteNode Meta))
    (next : RouteNode Meta) :
  forallb (fun n => negb (p n)) before = true -> p next = true ->
  find p (before ++ next :: after) = Some next.
Proof.
  induction before as [|b before IH]; simpl; intros Hb Hn.
  - now rewrite Hn.
  - apply andb_prop in Hb as [Hb1 Hb2]. apply negb_true_iff in Hb1. rewrite Hb1. auto.
Qed.

(** C2 (as amended): at every step of the walk, once the inspectors of the
    current node have run and a segment is popped, dispatch moves to the
    first child, in registration order, that is a wildcard or whose segment
    equals the popped one.  A literal child is selected only if no wildcard
    child was registered before it, and a wildcard child only if no matching
    literal child and no other wildcard child was registered before it. *)
Theorem C2_first_registered_matching_child_is_selected
    (node : RouteNode Meta) (queue q : list (ResponseInspector Meta))
    (closest : option (RouteNode Meta)) (c c1 : Context Meta) (ev1 : list (Event Meta))
    (seg : string) (rest : list string)
    (before after : list (RouteNode Meta)) (next : RouteNode Meta) :
  processInspectors router request (inspectors node) queue c = (Next q, c1, ev1) ->
  pathPartsArray c1 = seg :: rest ->
  childNodes node = before ++ next :: after ->
  forallb (fun n => negb (matchesSegment seg n)) before = true ->
  matchesSegment seg next = true ->
  walk router request node queue closest c =
  let '(f, c2, ev2) :=
    (captureVariable next seg ;;;
     walk router request next q (captureSplat node closest)) (shiftPathParts c1) in
  (f, c2, ev1 ++ ev2).
Proof.
  intros Hi Hp Hcs Hb Hn. rewrite walk_eq. unfold iteration.
  unfold bind at 1. rewrite Hi. unfold bind at 1. cbn [readContext]. rewrite Hp.
  unfold bind at 1. cbn [modifyContext].
  rewrite Hcs, (find_first _ _ _ _ Hb Hn).
  destruct ((captureVariable next seg ;;;
             walk router request next q (captureSplat node closest)) (shiftPathParts c1))
    as [[f c2] ev2].
  reflexivity.
Qed.

End ChildSelection.

(** C2: an instance, the router with [/a] registered before [/:id] and the
    request [GET /a]. *)
Lemma C2_first_registered_matching_child_is_selected_witness :
  walk Scenarios.literalThenVariable (Examples.GET "/a")
    (get_routes Scenarios.literalThenVariable) [] None
    (startContext (Examples.GET "/a") tt) =
  let '(f, c2, ev2) :=
    (captureVariable
       (mkRouteNode "a" false "" [] [] (Some (Examples.respond "exact"))) "a" ;;;
     walk Scenarios.literalThenVariable (Examples.GET "/a")
       (mkRouteNode "a" false "" [] [] (Some (Examples.respond "exact"))) []
       (captureSplat (get_routes Scenarios.literalThenVariable) None))
      (shiftPathParts (startContext (Examples.GET "/a") tt)) in
  (f, c2, [] ++ ev2).
Proof.
  apply (C2_first_registered_matching_child_is_selected unit
           Scenarios.literalThenVariable (Examples.GET "/a")
           (get_routes Scenarios.literalThenVariable)
           [] [] None (startContext (Examples.GET "/a") tt)
           (startContext (Examples.GET "/a") tt) [] "a" [] []
           [mkRouteNode "" true "id" [] [] (Some (Examples.respond "user"))]
           (mkRouteNode "a" false "" [] [] (Some (Examples.respond "exact"))));
    reflexivity.
Defined.

(** C2 (as stated) fails.  With [/:id] registered before [/a], the root has
    a literal child [a] and a wildcard child, and for the popped segment
    [a] the walk selects the wildcard child: [GET /a] is answered by the
    handler of [/:id], with [id] bound to [a]. *)
Lemma C2_wildcard_registered_first_wins :
  let root := get_routes Scenarios.variableThenLiteral in
  (exists literal wildcard,
     childNodes root = [wildcard; literal] /\
     isWildcard literal = false /\ pathSegment literal = "a" /\
     isWildcard wildcard = true /\
     find (matchesSegment "a") (childNodes root) = Some wildcard) /\
  handlerCalls (snd (requestHandler Scenarios.variableThenLiteral (Examples.GET "/a"))) =
    [(ExactMatch, "user", [], Some (<["id" := "a"]> ∅))].
Proof.
  split.
  - do 2 eexists. repeat split.
  - vm_compute. reflexivity.
Qed.

Section InspectorClaims.

Variable Meta : Type.
Variable router : Router Meta.
Variable request : Request.

Implicit Types (c : Context Meta) (inspector : Inspector Meta).
Implicit Types (queue : list (ResponseInspector Meta)).

Lemma no_server_error_among_response_inspectors (evs : list (Event Meta)) :
  forallb isResponseInspectorCall evs = true -> existsb isServerErrorCall evs = false.
Proof.
  induction evs as [|ev evs IH]; simpl; [reflexivity|].
  intros H. apply andb_prop in H as [H1 H2]. rewrite (IH H2).
  destruct ev as [|[] ? ?| |]; try discriminate; reflexivity.
Qed.

(** C5: when the walk reaches, at a node, an in-scope inspector whose
    request inspector answers with a response [r], the walk returns at once:
    after that call the only callbacks called are response inspectors, taken
    in order from the front of the queue collected before this inspector
    (so never the response inspector of the halting inspector itself, and
    never a handler), each with [r]; the promise of [requestHandler] settles
    as that of [processResponseInspectors]; and when none of the queued
    response inspectors faults, all of them are called and the promise is
    fulfilled with [r]. *)
Theorem C5_halt_response_short_circuits
    (node : RouteNode Meta) (pre post : list (Inspector Meta)) inspector
    (ri : RequestInspector Meta) queue0 queue (closest : option (RouteNode Meta))
    c0 c c1 (ev0 : list (Event Meta)) (v : MaybePromise RequestInspectorResponse)
    (o : RequestInspectorResponse) (r : Response) :
  inspectors node = pre ++ inspector :: post ->
  processInspectors router request pre queue0 c0 = (Next queue, c, ev0) ->
  requestInspector inspector = Some ri ->
  inScope c inspector = true ->
  runRequestInspector ri request c = (Done v, c1) ->
  fulfilledWith v o ->
  response o = Some r ->
  exists s c2 evs,
    walk router request node queue0 closest c0 =
      (Returns (Later s), c2, ev0 ++ CalledRequestInspector inspector c :: evs) /\
    fst (afterTry router request (walk router request node queue0 closest c0)) = s /\
    forallb isResponseInspectorCall evs = true /\
    responseInspectorCalls evs = map (fun ri => (ri, r)) (firstn (length evs) queue) /\
    (Forall (completes request r) queue ->
       s = Fulfilled r /\ responseInspectorCalls evs = map (fun ri => (ri, r)) queue).
Proof.
  intros Hnode Hpre Hri Hscope Hrun Hv Hr.
  pose proof (processInspector_halt Meta router request queue inspector ri c v c1 o r
                Hri Hscope Hrun Hv Hr) as Hhalt.
  destruct (processResponseInspectors queue request (Now r) (retainArray c c1))
    as [[s c2] evs] eqn:Hq.
  exists s, c2, evs.
  assert (Hwalk : walk router request node queue0 closest c0 =
                  (Returns (Later s), c2, ev0 ++ CalledRequestInspector inspector c :: evs)).
  { rewrite walk_eq. unfold iteration. unfold bind at 1.
    rewrite Hnode, processInspectors_app. unfold bind at 1. rewrite Hpre.
    cbn [processInspectors]. unfold bind at 1. rewrite Hhalt. reflexivity. }
  split; [exact Hwalk|]. split; [now rewrite Hwalk|].
  apply (processResponseInspectors_now Meta request queue r _ _ _ _ Hq).
Qed.

(** The walk at a node whose inspector answers with a response. *)
Lemma walk_halts_with_response
    (node : RouteNode Meta) (pre post : list (Inspector Meta)) inspector
    (ri : RequestInspector Meta) queue0 queue (closest : option (RouteNode Meta))
    c0 c c1 (ev0 : list (Event Meta)) (v : MaybePromise RequestInspectorResponse)
    (o : RequestInspectorResponse) (r : Response) :
  inspectors node = pre ++ inspector :: post ->
  processInspectors router request pre queue0 c0 = (Next queue, c, ev0) ->
  requestInspector inspector = Some ri ->
  inScope c inspector = true ->
  runRequestInspector ri request c = (Done v, c1) ->
  fulfilledWith v o ->
  response o = Some r ->
  exists s c2 evs,
    walk router request node queue0 closest c0 =
      (Returns (Later s), c2, ev0 ++ CalledRequestInspector inspector c :: evs) /\
    forallb isResponseInspectorCall evs = true /\
    responseInspectorCalls evs = map (fun ri => (ri, r)) (firstn (length evs) queue) /\
    (Forall (completes request r) queue ->
       s = Fulfilled r /\ responseInspectorCalls evs = map (fun ri => (ri, r)) queue).
Proof.
  intros Hnode Hpre Hri Hscope Hrun Hv Hr.
  pose proof (processInspector_halt Meta router request queue inspector ri c v c1 o r
                Hri Hscope Hrun Hv Hr) as Hhalt.
  destruct (processResponseInspectors queue request (Now r) (retainArray c c1))
    as [[s c2] evs] eqn:Hq.
  exists s, c2, evs. split.
  - rewrite walk_eq. unfold iteration. unfold bind at 1.
    rewrite Hnode, processInspectors_app. unfold bind at 1. rewrite Hpre.
    cbn [processInspectors]. unfold bind at 1. rewrite Hhalt. reflexivity.
  - apply (processResponseInspectors_now Meta request queue r _ _ _ _ Hq).
Qed.

(** C10: for a request inspector whose outcome is [o], the response field
    decides first.  If [o] carries a response [r], the walk returns at once
    as for a halt, whatever [shouldContinue] says, and so when it says
    "continue": after the call of the request inspector the only callbacks
    called are the response inspectors collected before it, from the front
    of the queue and in order, each with [r], and the promise of
    [requestHandler] settles as the walk returns; when none of them faults,
    all of them are called and the promise is fulfilled with [r].  The
    server-error handler is called exactly when [o] has no response and
    [shouldContinue] is false. *)
Theorem C10_response_takes_precedence_over_shouldContinue
    (node : RouteNode Meta) (pre post : list (Inspector Meta)) inspector
    (ri : RequestInspector Meta) queue0 queue (closest : option (RouteNode Meta))
    c0 c c1 (ev0 : list (Event Meta)) (v : MaybePromise RequestInspectorResponse)
    (o : RequestInspectorResponse) :
  inspectors node = pre ++ inspector :: post ->
  processInspectors router request pre queue0 c0 = (Next queue, c, ev0) ->
  requestInspector inspector = Some ri ->
  inScope c inspector = true ->
  runRequestInspector ri request c = (Done v, c1) ->
  fulfilledWith v o ->
  (forall r, response o = Some r ->
     exists s c2 evs,
       walk router request node queue0 closest c0 =
         (Returns (Later s), c2, ev0 ++ CalledRequestInspector inspector c :: evs) /\
       fst (afterTry router request (walk router request node queue0 closest c0)) = s /\
       forallb isResponseInspectorCall evs = true /\
       responseInspectorCalls evs = map (fun ri => (ri, r)) (firstn (length evs) queue) /\
       (Forall (completes request r) queue ->
          s = Fulfilled r /\ responseInspectorCalls evs = map (fun ri => (ri, r)) queue)) /\
  (existsb isServerErrorCall (snd (processInspector router request queue inspector c)) = true
   <-> response o = None /\ shouldContinue o = false).
Proof.
  intros Hnode Hpre Hri Hscope Hrun Hv. split.
  - intros r Hr.
    destruct (walk_halts_with_response node pre post inspector ri queue0 queue closest
                c0 c c1 ev0 v o r Hnode Hpre Hri Hscope Hrun Hv Hr)
      as (s & c2 & evs & Hwalk & H1 & H2 & H3).
    exists s, c2, evs. split; [exact Hwalk|]. split; [now rewrite Hwalk|]. auto.
  - destruct (response o) as [r|] eqn:Hr.
    + rewrite (processInspector_halt Meta router request queue inspector ri c v c1 o r
                 Hri Hscope Hrun Hv Hr).
      destruct (processResponseInspectors queue request (Now r) (retainArray c c1))
        as [[s c2] evs] eqn:Hq.
      destruct (processResponseInspectors_now Meta request queue r _ _ _ _ Hq) as (H1 & _).
      simpl. rewrite (no_server_error_among_response_inspectors evs H1).
      split; [discriminate|intros [? _]; discriminate].
    + destruct (shouldContinue o) eqn:Hc.
      * rewrite (processInspector_continue Meta router request queue inspector ri c v c1 o
                   Hri Hscope Hrun Hv Hr Hc).
        simpl. split; [discriminate|intros [_ ?]; discriminate].
      * destruct (processInspector_malformed Meta router request queue inspector ri c v c1 o
                    Hri Hscope Hrun Hv Hr Hc) as (f & c2 & evs & -> & _).
        simpl. split; auto.
Qed.

End InspectorClaims.

(** C5: an instance, the gate that answers 401 behind an audit-only
    inspector, on [GET /]. *)
Lemma C5_halt_response_short_circuits_witness :
  exists s c2 evs,
    walk (Scenarios.gated false) (Examples.GET "/")
      (get_routes (Scenarios.gated false)) [] None
      (startContext (Examples.GET "/") tt) =
      (Returns (Later s), c2,
       [] ++ CalledRequestInspector (Scenarios.gate false)
               (startContext (Examples.GET "/") tt) :: evs) /\
    fst (afterTry (Scenarios.gated false) (Examples.GET "/")
           (walk (Scenarios.gated false) (Examples.GET "/")
              (get_routes (Scenarios.gated false)) [] None
              (startContext (Examples.GET "/") tt))) = s /\
    forallb isResponseInspectorCall evs = true /\
    responseInspectorCalls evs =
      map (fun ri => (ri, Scenarios.denied))
        (firstn (length evs) [Examples.observing "audit"]) /\
    (Forall (completes (Examples.GET "/") Scenarios.denied) [Examples.observing "audit"] ->
       s = Fulfilled Scenarios.denied /\
       responseInspectorCalls evs =
         map (fun ri => (ri, Scenarios.denied)) [Examples.observing "audit"]).
Proof.
  apply (C5_halt_response_short_circuits unit (Scenarios.gated false) (Examples.GET "/")
           (get_routes (Scenarios.gated false))
           [Scenarios.auditOnly] [] (Scenarios.gate false)
           (Examples.answering "gate" (mkRequestInspectorResponse false (Some Scenarios.denied)))
           [] [Examples.observing "audit"] None
           (startContext (Examples.GET "/") tt) (startContext (Examples.GET "/") tt)
           (startContext (Examples.GET "/") tt) []
           (Now (mkRequestInspectorResponse false (Some Scenarios.denied)))
           (mkRequestInspectorResponse false (Some Scenarios.denied)) Scenarios.denied).
  - reflexivity.
  - reflexivity.
  - reflexivity.
  - reflexivity.
  - reflexivity.
  - left. reflexivity.
  - reflexivity.
Defined.

(** C10: an instance, a gate whose outcome carries a 401 response and also
    says "continue", behind an audit-only inspector, on [GET /]: the
    response inspector of the audit-only inspector is run on the 401, which
    is the answer. *)
Lemma C10_response_takes_precedence_over_shouldContinue_witness :
  exists c2 evs,
    walk (Scenarios.gated true) (Examples.GET "/")
      (get_routes (Scenarios.gated true)) [] None
      (startContext (Examples.GET "/") tt) =
      (Returns (Later (Fulfilled Scenarios.denied)), c2,
       [] ++ CalledRequestInspector (Scenarios.gate true)
               (startContext (Examples.GET "/") tt) :: evs) /\
    fst (afterTry (Scenarios.gated true) (Examples.GET "/")
           (walk (Scenarios.gated true) (Examples.GET "/")
              (get_routes (Scenarios.gated true)) [] None
              (startContext (Examples.GET "/") tt))) = Fulfilled Scenarios.denied /\
    responseInspectorCalls evs = [(Examples.observing "audit", Scenarios.denied)].
Proof.
  destruct (C10_response_takes_precedence_over_shouldContinue unit (Scenarios.gated true)
              (Examples.GET "/") (get_routes (Scenarios.gated true))
              [Scenarios.auditOnly] [] (Scenarios.gate true)
              (Examples.answering "gate"
                 (mkRequestInspectorResponse true (Some Scenarios.denied)))
              [] [Examples.observing "audit"] None
              (startContext (Examples.GET "/") tt) (startContext (Examples.GET "/") tt)
              (startContext (Examples.GET "/") tt) []
              (Now (mkRequestInspectorResponse true (Some Scenarios.denied)))
              (mkRequestInspectorResponse true (Some Scenarios.denied))
              eq_refl eq_refl eq_refl eq_refl eq_refl (or_introl eq_refl))
    as [Hhalt _].
  destruct (Hhalt Scenarios.denied eq_refl) as (s & c2 & evs & Hwalk & Hs & _ & _ & Hall).
  assert (Hq : Forall (completes (Examples.GET "/") Scenarios.denied)
                 [Examples.observing "audit"]).
  { apply List.Forall_cons; [|apply List.Forall_nil].
    intros c. exists (Now tt), c. split; [reflexivity|discriminate]. }
  destruct (Hall Hq) as [Hful Hcalls]. rewrite Hful in Hwalk, Hs.
  exists c2, evs. split; [exact Hwalk|]. split; [exact Hs|exact Hcalls].
Defined.

Section ScopeClaims.

Variable Meta : Type.
Variable router : Router Meta.
Variable request : Request.

Implicit Types (c : Context Meta) (inspector : Inspector Meta).
Implicit Types (queue : list (ResponseInspector Meta)).

Lemma inScope_spec c inspector :
  inScope c inspector = true <->
  pathPartsArray c = [] \/ observeChildPaths inspector = true.
Proof.
  unfold inScope. rewrite orb_true_iff, Nat.eqb_eq. split; intros [H|H]; auto; left.
  - now apply length_zero_iff_nil.
  - now rewrite H.
Qed.

(** An in-scope inspector with a request inspector: the first thing that
    happens is the call of that request inspector, in the current context. *)
Lemma processInspector_calls_first queue inspector (ri : RequestInspector Meta) c :
  requestInspector inspector = Some ri ->
  inScope c inspector = true ->
  exists f c' evs,
    processInspector router request queue inspector c =
    (f, c', CalledRequestInspector inspector c :: evs).
Proof.
  intros Hri Hs. unfold processInspector. unfold bind at 1. unfold bind at 1.
  cbn [readContext]. rewrite Hri, Hs. unfold bind at 1. unfold call.
  destruct (runRequestInspector ri request c) as [[v|e] c1]; [|do 3 eexists; reflexivity].
  match goal with |- context [bind ?m ?k ?x] => destruct (bind m k x) as [[[u| |] c2] ev2] end.
  - match goal with |- context [bind ?m ?k ?x] => destruct (bind m k x) as [[f c3] ev3] end.
    do 3 eexists. reflexivity.
  - do 3 eexists. reflexivity.
  - do 3 eexists. reflexivity.
Qed.

(** In a whole request, a request inspector with the flag off is only
    called with an empty array of remaining parts. *)
Lemma exact_only_called_without_parts (i : Inspector Meta) ci :
  In (CalledRequestInspector i ci) (snd (requestHandler router request)) ->
  observeChildPaths i = false -> pathPartsArray ci = [].
Proof.
  intros Hin Hflag.
  pose proof (requestHandler_events_ok Meta router request) as Hok.
  rewrite List.Forall_forall in Hok. specialize (Hok _ Hin). simpl in Hok.
  apply inScope_spec in Hok as [H|H]; [assumption|congruence].
Qed.


(** C9: [getPathParts] hands out the same array on every call, and the
    walk shifts the consumed segments off that very array.  So what a
    callback reads through [getPathParts] is what is left of the path, not
    its full split (which is never empty): a handler found by exact match
    always reads an empty array, and so does the request inspector called
    first at a node reached with no part left, as does every request
    inspector with [observeChildPaths = false]. *)
Theorem C9_callbacks_see_the_shifted_array
    (m : Meta) queue inspector (ri : RequestInspector Meta) c :
  (let '(parts, c1) := getPathParts c in
   getPathParts c1 = (parts, c1) /\
   fst (getPathParts (shiftPathParts c1)) = tail parts) /\
  fst (getPathParts (newContext request m)) <> [] /\
  (forall h ch,
     In (CalledHandler ExactMatch h ch) (snd (requestHandler router request)) ->
     fst (getPathParts ch) = []) /\
  (forall i ci,
     In (CalledRequestInspector i ci) (snd (requestHandler router request)) ->
     observeChildPaths i = false -> pathPartsArray ci = []) /\
  (requestInspector inspector = Some ri -> pathParts c = Some [] ->
   exists f c' evs,
     processInspector router request queue inspector c =
     (f, c', CalledRequestInspector inspector c :: evs) /\
     fst (getPathParts c) = []).
Proof.
  split; [|split; [|split; [|split]]].
  - unfold getPathParts. destruct (pathParts c) as [parts|] eqn:E.
    + rewrite E. split; [reflexivity|]. unfold shiftPathParts, pathPartsArray. simpl.
      now rewrite E.
    + simpl. split; reflexivity.
  - unfold getPathParts, newContext. simpl.
    destruct (truthy (pathname (requestUrl request))).
    + destruct (pathname (requestUrl request)) as [|a s]; simpl; [discriminate|].
      destruct (Ascii.eqb a slash); [discriminate|].
      destruct (split slash s); discriminate.
    + discriminate.
  - intros h ch Hin.
    pose proof (requestHandler_events_ok Meta router request) as Hok.
    rewrite List.Forall_forall in Hok. specialize (Hok _ Hin). simpl in Hok.
    unfold getPathParts. now rewrite Hok.
  - apply exact_only_called_without_parts.
  - intros Hri Hparts.
    assert (Hs : inScope c inspector = true).
    { apply inScope_spec. left. unfold pathPartsArray. now rewrite Hparts. }
    destruct (processInspector_calls_first queue inspector ri c Hri Hs) as (f & c' & evs & E).
    exists f, c', evs. split; [assumption|]. unfold getPathParts. now rewrite Hparts.
Qed.

End ScopeClaims.


(** C9: an instance, [GET /users/42] on the router with [/users/:id]: the
    full split is [""; "users"; "42"], and the handler reads []. *)
Lemma C9_callbacks_see_the_shifted_array_witness :
  fst (getPathParts (newContext (Examples.GET "/users/42") tt)) = [""; "users"; "42"] /\
  fst (getPathParts (mkContext (mkURL "/users/42") (Some (<["id" := "42"]> ∅)) tt (Some []))) = [] /\
  handlerCalls (snd (requestHandler Scenarios.users (Examples.GET "/users/42"))) =
    [(ExactMatch, "user", [], Some (<["id" := "42"]> ∅))] /\
  (exists f c' evs,
     processInspector Scenarios.users (Examples.GET "/users/42") []
       (Scenarios.subInspector false) (Examples.contextWith []) =
     (f, c', CalledRequestInspector (Scenarios.subInspector false) (Examples.contextWith []) :: evs) /\
     fst (getPathParts (Examples.contextWith [])) = []).
Proof.
  destruct (C9_callbacks_see_the_shifted_array unit Scenarios.users (Examples.GET "/users/42")
              tt [] (Scenarios.subInspector false)
              (Examples.answering "watch" (mkRequestInspectorResponse true None))
              (Examples.contextWith [])) as (_ & _ & H3 & _ & H5).
  split; [reflexivity|]. split.
  { apply (H3 (Examples.respond "user")). vm_compute. left. reflexivity. }
  split; [vm_compute; reflexivity|].
  apply H5; reflexivity.
Defined.

(** C4 (as stated) fails: the handler that is called depends on the order
    of registration.  With [/*] registered before [/files/*], the requests
    [GET /files/a] and [GET /files/a/b/c] are answered by the handler of
    [/*], although [/files/*] holds a handler and encloses them more
    closely; with the other order they are answered by [/files/*]. *)
Lemma C4_shallow_splat_registered_first_wins :
  handlerCalls (snd (requestHandler Scenarios.shallowThenNested (Examples.GET "/files/a"))) =
    [(SplatFallback, "shallow", [], None)] /\
  handlerCalls (snd (requestHandler Scenarios.shallowThenNested (Examples.GET "/files/a/b/c"))) =
    [(SplatFallback, "shallow", ["b"; "c"], None)] /\
  handlerCalls (snd (requestHandler Scenarios.nestedThenShallow (Examples.GET "/files/a"))) =
    [(ExactMatch, "nested", [], None)] /\
  handlerCalls (snd (requestHandler Scenarios.nestedThenShallow (Examples.GET "/files/a/b/c"))) =
    [(SplatFallback, "nested", ["c"], None)].
Proof. repeat split; vm_compute; reflexivity. Qed.

(** * Further properties of the code *)

(** ** Paths and their segments *)

Lemma split_nonempty (s : string) : split slash s <> [].
Proof.
  destruct s as [|c s]; simpl; [discriminate|].
  destruct (Ascii.eqb c slash); [discriminate|].
  destruct (split slash s); discriminate.
Qed.

Lemma split_slashFree (s : string) : forallb slashFree (split slash s) = true.
Proof.
  induction s as [|c s IH]; [reflexivity|]. simpl.
  destruct (Ascii.eqb c slash) eqn:E; [exact IH|].
  pose proof (split_nonempty s) as Hne.
  destruct (split slash s) as [|piece pieces]; [congruence|].
  simpl in *. now rewrite E.
Qed.

Lemma joinSlash_split (s : string) : joinSlash (split slash s) = s.
Proof.
  induction s as [|c s IH]; [reflexivity|]. simpl.
  destruct (Ascii.eqb c slash) eqn:E.
  - apply Ascii.eqb_eq in E as ->.
    pose proof (split_nonempty s) as Hne.
    destruct (split slash s) as [|piece pieces]; [congruence|].
    simpl in *. now rewrite IH.
  - pose proof (split_nonempty s) as Hne.
    destruct (split slash s) as [|piece pieces]; [congruence|].
    destruct pieces; simpl in *; now rewrite <- IH.
Qed.

Lemma split_slashFree_string (s : string) : slashFree s = true -> split slash s = [s].
Proof.
  induction s as [|c s IH]; [reflexivity|]. simpl. intros H.
  apply andb_prop in H as [H1 H2]. apply negb_true_iff in H1. rewrite H1, (IH H2).
  reflexivity.
Qed.

Lemma split_app_slash (pre rest : string) :
  slashFree pre = true ->
  split slash (pre ++ String slash rest) = pre :: split slash rest.
Proof.
  induction pre as [|c pre IH]; intros H; simpl.
  - reflexivity.
  - simpl in H. apply andb_prop in H as [H1 H2]. apply negb_true_iff in H1.
    rewrite H1, (IH H2). reflexivity.
Qed.

(** X1: [pathSegmentsFromPath] loses nothing after the first "/" and
    ignores what is before it.  The segments have no "/"; for a path
    [pre/rest] whose first piece [pre] has no "/", they are the pieces of
    [rest], so that joining them with "/" gives [rest] back, whatever [pre]
    is; and a path without any "/" has no segment at all (it designates the
    root of the trie). *)
Theorem X1_pathSegmentsFromPath_keeps_what_follows_the_first_slash
    (pre rest : string) :
  slashFree pre = true ->
  pathSegmentsFromPath (pre ++ String slash rest) = split slash rest /\
  joinSlash (pathSegmentsFromPath (pre ++ String slash rest)) = rest /\
  forallb slashFree (pathSegmentsFromPath (pre ++ String slash rest)) = true /\
  pathSegmentsFromPath (pre ++ String slash rest) <> [] /\
  pathSegmentsFromPath pre = [].
Proof.
  intros H. unfold pathSegmentsFromPath. rewrite (split_app_slash pre rest H).
  cbn [tail]. repeat split.
  - apply joinSlash_split.
  - apply split_slashFree.
  - apply split_nonempty.
  - now rewrite (split_slashFree_string pre H).
Qed.

Lemma X1_pathSegmentsFromPath_keeps_what_follows_the_first_slash_witness :
  pathSegmentsFromPath "/users/:id" = ["users"; ":id"] /\
  joinSlash (pathSegmentsFromPath "/users/:id") = "users/:id" /\
  forallb slashFree (pathSegmentsFromPath "/users/:id") = true /\
  pathSegmentsFromPath "/users/:id" <> [] /\
  pathSegmentsFromPath "" = [].
Proof.
  apply (X1_pathSegmentsFromPath_keeps_what_follows_the_first_slash "" "users/:id").
  reflexivity.
Defined.

(** ** Registering twice *)

Section ReRegistration.

Variable Meta : Type.
Implicit Types (n this child : RouteNode Meta) (cs : list (RouteNode Meta)).
Implicit Types (p : RouteNode Meta -> bool).

Lemma find_replaceFirst p child child' cs :
  find p cs = Some child -> p child' = true ->
  find p (replaceFirst p child' cs) = Some child'.
Proof.
  induction cs as [|c cs IH]; simpl; [discriminate|].
  destruct (p c) eqn:E; intros Hf Hp; simpl.
  - now rewrite Hp.
  - rewrite E. auto.
Qed.

Lemma replaceFirst_idempotent p child child' cs :
  find p cs = Some child -> p child' = true ->
  replaceFirst p child' (replaceFirst p child' cs) = replaceFirst p child' cs.
Proof.
  induction cs as [|c cs IH]; simpl; [discriminate|].
  destruct (p c) eqn:E; intros Hf Hp; simpl.
  - now rewrite Hp.
  - rewrite E. f_equal. auto.
Qed.

Lemma find_app_new p c cs :
  find p cs = None -> p c = true -> find p (cs ++ [c]) = Some c.
Proof.
  induction cs as [|x cs IH]; simpl; intros Hf Hp.
  - now rewrite Hp.
  - destruct (p x); [discriminate|auto].
Qed.

Lemma replaceFirst_app_new p c c' cs :
  find p cs = None -> p c = true -> replaceFirst p c' (cs ++ [c]) = cs ++ [c'].
Proof.
  induction cs as [|x cs IH]; simpl; intros Hf Hp.
  - now rewrite Hp.
  - destruct (p x); [discriminate|]. f_equal. auto.
Qed.

Lemma labels_isWildcard n n' : labels n' = labels n -> isWildcard n' = isWildcard n.
Proof. unfold labels. now intros [= _ -> _]. Qed.

Lemma labels_hasSegment seg n n' :
  labels n' = labels n -> hasSegment seg n' = hasSegment seg n.
Proof. unfold labels, hasSegment. now intros [= -> _ _]. Qed.

Lemma setChildNodes_twice cs cs' this :
  setChildNodes cs' (setChildNodes cs this) = setChildNodes cs' this.
Proof. reflexivity. Qed.

Lemma addPathHandler_again (h1 h2 : Handler Meta) (segs : list string) :
  noSplat segs = true ->
  forall this,
    exists log,
      addPathHandler segs h2 (fst (addPathHandler segs h1 this)) =
      (fst (addPathHandler segs h1 this), log ++ [ErrSetHandlerTwice]).
Proof.
  unfold addPathHandler.
  induction segs as [|seg rest IH]; intros Hsegs this.
  - exists []. simpl. unfold setHandler at 2 3.
    destruct (handler this) eqn:E; simpl; unfold setHandler; simpl; now rewrite ?E.
  - simpl in Hsegs. apply andb_prop in Hsegs as [Hseg Hrest].
    apply negb_true_iff in Hseg. specialize (IH Hrest).
    remember (addPathPropertyHelper (seg :: rest) (setHandler h1) this) as r1 eqn:Hr1.
    rewrite addPathPropertyHelper_cons, Hseg in Hr1.
    pose proof (setHandler_keepsShape Meta h1) as Hk.
    destruct (isVariableSegment seg) eqn:Ev.
    + destruct (find isWildcard (childNodes this)) as [child|] eqn:Hf.
      * pose proof (addPathPropertyHelper_labels Meta rest _ child Hk) as Hl.
        destruct (IH child) as (log & IHc).
        destruct (addPathPropertyHelper rest (setHandler h1) child) as [child' log1].
        subst r1. cbn [fst snd] in *.
        assert (Hw : isWildcard child' = true).
        { rewrite (labels_isWildcard _ _ Hl). now apply find_some in Hf. }
        rewrite addPathPropertyHelper_cons, Hseg, Ev.
        cbn [setChildNodes childNodes pathSegment].
        rewrite (find_replaceFirst _ _ _ _ Hf Hw), IHc.
        rewrite (replaceFirst_idempotent _ _ _ _ Hf Hw).
        eexists. unfold setChildNodes. cbn. f_equal.
        rewrite !app_assoc. reflexivity.
      * pose proof (addPathPropertyHelper_labels Meta rest _
                      (setIsWildcard true (substring1 seg) newRouteNode) Hk) as Hl.
        destruct (IH (setIsWildcard true (substring1 seg) newRouteNode)) as (log & IHc).
        destruct (addPathPropertyHelper rest (setHandler h1) _) as [child' log1].
        subst r1. cbn [fst snd] in *.
        assert (Hw : isWildcard child' = true) by now rewrite (labels_isWildcard _ _ Hl).
        rewrite addPathPropertyHelper_cons, Hseg, Ev.
        cbn [addChildNode childNodes pathSegment].
        rewrite (find_app_new _ _ _ Hf Hw), IHc.
        rewrite (replaceFirst_app_new _ _ child' _ Hf Hw).
        eexists. unfold setChildNodes, addChildNode. cbn. f_equal.
        rewrite !app_assoc. reflexivity.
    + destruct (find (hasSegment seg) (childNodes this)) as [child|] eqn:Hf.
      * pose proof (addPathPropertyHelper_labels Meta rest _ child Hk) as Hl.
        destruct (IH child) as (log & IHc).
        destruct (addPathPropertyHelper rest (setHandler h1) child) as [child' log1].
        subst r1. cbn [fst snd] in *.
        assert (Hw : hasSegment seg child' = true).
        { rewrite (labels_hasSegment seg _ _ Hl). now apply find_some in Hf. }
        rewrite addPathPropertyHelper_cons, Hseg, Ev.
        cbn [setChildNodes childNodes pathSegment].
        rewrite (find_replaceFirst _ _ _ _ Hf Hw), IHc.
        rewrite (replaceFirst_idempotent _ _ _ _ Hf Hw).
        eexists. reflexivity.
      * pose proof (addPathPropertyHelper_labels Meta rest _
                      (setPathSegment seg newRouteNode) Hk) as Hl.
        destruct (IH (setPathSegment seg newRouteNode)) as (log & IHc).
        destruct (addPathPropertyHelper rest (setHandler h1) _) as [child' log1].
        subst r1. cbn [fst snd] in *.
        assert (Hw : hasSegment seg child' = true).
        { rewrite (labels_hasSegment seg _ _ Hl). apply String.eqb_refl. }
        rewrite addPathPropertyHelper_cons, Hseg, Ev.
        cbn [addChildNode childNodes pathSegment].
        rewrite (find_app_new _ _ _ Hf Hw), IHc.
        rewrite (replaceFirst_app_new _ _ child' _ Hf Hw).
        eexists. reflexivity.
Qed.

End ReRegistration.

(** X2: registering a handler again on a path that has no [*] changes
    nothing: the router is the one left by the first registration (so the
    first handler stays the one that answers), and the log ends with the
    "setHandler called twice" error. *)
Theorem X2_handler_registered_twice_keeps_the_first
    (Meta : Type) (h1 h2 : Handler Meta) (path : string) (r : Router Meta) :
  noSplat (pathSegmentsFromPath path) = true ->
  fst (get (OnePath path) h2 (fst (get (OnePath path) h1 r))) =
    fst (get (OnePath path) h1 r) /\
  (exists log, snd (get (OnePath path) h2 (fst (get (OnePath path) h1 r))) =
                 log ++ [ErrSetHandlerTwice]) /\
  forall request,
    requestHandler (fst (get (OnePath path) h2 (fst (get (OnePath path) h1 r)))) request =
    requestHandler (fst (get (OnePath path) h1 r)) request.
Proof.
  intros Hns.
  destruct (addPathHandler_again Meta h1 h2 (pathSegmentsFromPath path) Hns (get_routes r))
    as (log & Hagain).
  assert (H : get (OnePath path) h2 (fst (get (OnePath path) h1 r)) =
              (fst (get (OnePath path) h1 r), log ++ [ErrSetHandlerTwice])).
  { unfold get at 1. unfold addPathHandlerToNode. cbn [pathList addPaths].
    destruct (get_fields Meta path h1 r) as (Hg & _).
    rewrite Hg, Hagain. rewrite app_nil_r.
    unfold get, addPathHandlerToNode. cbn [pathList addPaths].
    destruct (addPathHandler (pathSegmentsFromPath path) h1 (get_routes r)) as [n1 log1].
    reflexivity. }
  rewrite H. cbn [fst snd]. split; [reflexivity|]. split; [eauto|reflexivity].
Qed.

Lemma X2_handler_registered_twice_keeps_the_first_witness :
  fst (get (OnePath "/users/:id") (Examples.respond "second")
         (fst (get (OnePath "/users/:id") (Examples.respond "first") Examples.freshRouter))) =
    fst (get (OnePath "/users/:id") (Examples.respond "first") Examples.freshRouter) /\
  (exists log,
     snd (get (OnePath "/users/:id") (Examples.respond "second")
            (fst (get (OnePath "/users/:id") (Examples.respond "first") Examples.freshRouter))) =
       log ++ [ErrSetHandlerTwice]) /\
  forall request,
    requestHandler
      (fst (get (OnePath "/users/:id") (Examples.respond "second")
              (fst (get (OnePath "/users/:id") (Examples.respond "first")
                      Examples.freshRouter)))) request =
    requestHandler
      (fst (get (OnePath "/users/:id") (Examples.respond "first") Examples.freshRouter))
      request.
Proof.
  apply (X2_handler_registered_twice_keeps_the_first unit (Examples.respond "first")
           (Examples.respond "second") "/users/:id" Examples.freshRouter).
  reflexivity.
Defined.

(** ** Registration only adds *)

Section MonotoneFacts.

Variable Meta : Type.
Implicit Types (n this child : RouteNode Meta) (cs : list (RouteNode Meta)).

Lemma setHandler_growing (h : Handler Meta) : growing (setHandler h).
Proof.
  intros n. unfold setHandler. destruct (handler n) eqn:E; simpl.
  - split; [reflexivity|]. split; [reflexivity|]. split; [intros ?; congruence|].
    exists []. now rewrite app_nil_r.
  - split; [reflexivity|]. split; [reflexivity|]. split; [intros ?; congruence|].
    exists []. now rewrite app_nil_r.
Qed.

Lemma addInspector_growing (i : Inspector Meta) :
  growing (fun n => (addInspector i n, [])).
Proof.
  intros n. simpl. split; [reflexivity|]. split; [reflexivity|]. split; [auto|].
  now exists [i].
Qed.

Lemma growing_keepsShape (sc : SetClosure Meta) : growing sc -> keepsShape sc.
Proof. intros H n. destruct (H n) as (H1 & H2 & _). auto. Qed.

Lemma grows_refl n : grows n n.
Proof.
  pattern n; apply RouteNode_ind; clear n; intros seg w v insps cs h IH.
  apply (@grows_intro Meta _ _ [] cs []); simpl; auto.
  - now rewrite app_nil_r.
  - now rewrite app_nil_r.
  - induction IH; constructor; auto.
Qed.

Lemma Forall2_grows_refl cs : Forall2 grows cs cs.
Proof. induction cs; constructor; auto using grows_refl. Qed.

Lemma replaceFirst_grows (p : RouteNode Meta -> bool) child child' cs :
  find p cs = Some child -> grows child child' ->
  Forall2 grows cs (replaceFirst p child' cs).
Proof.
  induction cs as [|c cs IH]; simpl; [discriminate|].
  destruct (p c).
  - intros [= ->] He. constructor; auto using Forall2_grows_refl.
  - intros Hf He. constructor; auto using grows_refl.
Qed.

Lemma grows_addChildNode n c : grows n (addChildNode c n).
Proof.
  apply (@grows_intro Meta _ _ [] (childNodes n) [c]); simpl;
    auto using Forall2_grows_refl.
  now rewrite app_nil_r.
Qed.

Lemma grows_setChildNodes (p : RouteNode Meta -> bool) this child child' :
  find p (childNodes this) = Some child -> grows child child' ->
  grows this (setChildNodes (replaceFirst p child' (childNodes this)) this).
Proof.
  intros Hf Hg.
  apply (@grows_intro Meta _ _ [] (replaceFirst p child' (childNodes this)) []); simpl; auto.
  - now rewrite app_nil_r.
  - now rewrite app_nil_r.
  - eapply replaceFirst_grows; eauto.
Qed.

Lemma grows_action (sc : SetClosure Meta) n : growing sc -> grows n (fst (sc n)).
Proof.
  intros H. destruct (H n) as (Hl & Hc & Hh & more & Hi).
  apply (@grows_intro Meta _ _ more (childNodes n) []); auto.
  - now rewrite Hc, app_nil_r.
  - apply Forall2_grows_refl.
Qed.

Lemma addPathPropertyHelper_grows (segs : list string) (sc : SetClosure Meta) :
  growing sc ->
  forall this, grows this (fst (addPathPropertyHelper segs sc this)).
Proof.
  intros Hsc. induction segs as [|seg rest IH]; intros this.
  - simpl. now apply grows_action.
  - rewrite addPathPropertyHelper_cons.
    destruct (String.eqb seg "*").
    { destruct rest.
      - destruct (sc _). apply grows_addChildNode.
      - apply grows_refl. }
    destruct (isVariableSegment seg).
    + destruct (find isWildcard (childNodes this)) as [child|] eqn:Hf.
      * specialize (IH child). destruct (addPathPropertyHelper rest sc child) as [child' log].
        eapply grows_setChildNodes; eauto.
      * destruct (addPathPropertyHelper rest sc _). apply grows_addChildNode.
    + destruct (find (hasSegment seg) (childNodes this)) as [child|] eqn:Hf.
      * specialize (IH child). destruct (addPathPropertyHelper rest sc child) as [child' log].
        eapply grows_setChildNodes; eauto.
      * destruct (addPathPropertyHelper rest sc _). apply grows_addChildNode.
Qed.

Lemma grows_trans (a b c : RouteNode Meta) : grows a b -> grows b c -> grows a c.
Proof.
  revert b c. pattern a; apply RouteNode_ind; clear a.
  intros seg w v insps cs h IH b c Hab Hbc.
  inversion Hab as [? ? more1 kept1 added1 Hl1 Hh1 Hi1 Hc1 Hk1]; subst.
  inversion Hbc as [? ? more2 kept2 added2 Hl2 Hh2 Hi2 Hc2 Hk2]; subst.
  rewrite Hc1 in Hk2. apply Forall2_app_inv_l in Hk2 as (k2a & k2b & Hka & Hkb & ->).
  apply (@grows_intro Meta _ _ (more1 ++ more2) k2a (k2b ++ added2)).
  - congruence.
  - auto.
  - now rewrite Hi2, Hi1, app_assoc.
  - now rewrite Hc2, <- app_assoc.
  - simpl in *. clear Hc1 Hc2 Hab Hbc Hkb. revert kept1 Hk1 k2a Hka.
    induction IH as [|x xs Hx Hxs IHxs]; intros kept1 Hk1 k2a Hka.
    + inversion Hk1; subst. inversion Hka; subst. constructor.
    + inversion Hk1; subst. inversion Hka; subst. constructor; eauto.
Qed.

Lemma addPaths_grows
    (add : list string -> RouteNode Meta -> RouteNode Meta * list LogMsg) :
  (forall segs n, grows n (fst (add segs n))) ->
  forall paths n, grows n (fst (addPaths add paths n)).
Proof.
  intros Hadd paths. induction paths as [|path rest IH]; intros n; simpl.
  - apply grows_refl.
  - specialize (Hadd (pathSegmentsFromPath path) n).
    destruct (add (pathSegmentsFromPath path) n) as [n1 log1]. simpl in Hadd.
    specialize (IH n1). destruct (addPaths add rest n1) as [n2 log2]. simpl in *.
    eapply grows_trans; eauto.
Qed.

Lemma register_grows (reg : Registration Meta) (root : RouteNode Meta) :
  grows root (register reg root).
Proof.
  destruct reg as [paths h|paths i]; simpl;
    unfold addPathHandlerToNode, addPathInspectorToNode; apply addPaths_grows;
    intros segs n; apply addPathPropertyHelper_grows;
    auto using setHandler_growing, addInspector_growing.
Qed.

(** X3: registration only adds.  Whatever is registered, in whatever
    order, on whatever trie: every node that was there stays at its place
    with its labels, keeps its handler if it had one, and keeps its
    inspectors in their order, new ones being appended after them; new
    children are appended after the old ones. *)
Theorem X3_registration_only_adds
    (regs : list (Registration Meta)) (root : RouteNode Meta) :
  grows root (registerAll regs root).
Proof.
  revert root. induction regs as [|reg regs IH]; intros root; simpl.
  - apply grows_refl.
  - eapply grows_trans; [apply register_grows|apply IH].
Qed.

End MonotoneFacts.

(** ** Methods *)

Section MethodFacts.

Variable Meta : Type.
Implicit Types (router r : Router Meta) (request : Request) (c : Context Meta).

(** The three method tests of [requestHandler], as one lookup. *)
Lemma tryBlock_routesFor router request c :
  tryBlock router request c =
  match routesFor router request with
  | None =>
      (consoleLog (WarnUnsupportedMethod (method request)) ;;;
       v <- callHandler NotFound (not_found_handler router) request ;;
       returns v) c
  | Some root =>
      ((fun c => (Next tt, snd (getPathParts c), [])) ;;;
       modifyContext shiftPathParts ;;;
       walk router request root [] None) c
  end.
Proof.
  unfold tryBlock, routesFor.
  destruct (String.eqb (method request) "GET"); [reflexivity|].
  destruct (String.eqb (method request) "HEAD"); [reflexivity|].
  destruct (String.eqb (method request) "POST"); reflexivity.
Qed.

(** X4: a request whose method is not GET, HEAD or POST is answered by the
    not-found handler at once: the warning is logged, the handler is called
    with the context as [new Context] left it (no array of path parts yet, no
    path variable), and no trie is walked, so no inspector is called, even
    one registered for every path.  If the handler returns a response, that
    response is the answer; only if it throws is the server-error handler
    called. *)
Theorem X4_unsupported_method_goes_to_not_found
    router request (m : Meta) :
  supportedMethod request = false ->
  context_metadata_constructor router request = Ok m ->
  let c0 := newContext request m in
  let events := snd (requestHandler router request) in
  (exists rest,
     events = Logged (WarnUnsupportedMethod (method request)) ::
              CalledHandler NotFound (not_found_handler router) c0 :: rest /\
     forallb (fun ev => negb (isInspectorCall ev)) rest = true) /\
  (forall v c1,
     runHandler (not_found_handler router) request c0 = (Done v, c1) ->
     requestHandler router request =
     (settle v, [Logged (WarnUnsupportedMethod (method request));
                 CalledHandler NotFound (not_found_handler router) c0])).
Proof.
  intros Hm Hk c0 events. subst events. unfold requestHandler. rewrite Hk. fold c0.
  rewrite tryBlock_routesFor.
  assert (routesFor router request = None) as ->.
  { unfold supportedMethod in Hm. unfold routesFor.
    apply orb_false_elim in Hm as [Hm ->]. apply orb_false_elim in Hm as [-> ->].
    reflexivity. }
  unfold bind, consoleLog, callHandler, call, returns, afterTry.
  destruct (runHandler (not_found_handler router) request c0) as [[v|e] c1] eqn:E.
  - split.
    + exists []. split; reflexivity.
    + intros v' c1' [= <- <-]. reflexivity.
  - split.
    + simpl.
      destruct (runHandler (server_error_handler router) request (retainArray c0 c1))
        as [[v'|e'] c2]; eexists; split; reflexivity.
    + intros v' c1'. discriminate.
Qed.

End MethodFacts.

Lemma X4_unsupported_method_goes_to_not_found_witness :
  (exists rest,
     snd (requestHandler (Scenarios.gated false) (mkRequest "DELETE" (mkURL "/"))) =
       Logged (WarnUnsupportedMethod "DELETE") ::
       CalledHandler NotFound default_not_found_handler
         (newContext (mkRequest "DELETE" (mkURL "/")) tt) :: rest /\
     forallb (fun ev => negb (isInspectorCall ev)) rest = true) /\
  (forall v c1,
     runHandler (not_found_handler (Scenarios.gated false))
       (mkRequest "DELETE" (mkURL "/")) (newContext (mkRequest "DELETE" (mkURL "/")) tt) =
       (Done v, c1) ->
     requestHandler (Scenarios.gated false) (mkRequest "DELETE" (mkURL "/")) =
     (settle v, [Logged (WarnUnsupportedMethod "DELETE");
                 CalledHandler NotFound default_not_found_handler
                   (newContext (mkRequest "DELETE" (mkURL "/")) tt)])).
Proof.
  apply (X4_unsupported_method_goes_to_not_found unit (Scenarios.gated false)
           (mkRequest "DELETE" (mkURL "/")) tt); reflexivity.
Defined.

Section RouterExtensionality.

Variable Meta : Type.
Variable request : Request.
Variables r1 r2 : Router Meta.
Hypothesis same_not_found : not_found_handler r1 = not_found_handler r2.
Hypothesis same_server_error : server_error_handler r1 = server_error_handler r2.

(** The walk uses the router for its two fallback handlers only. *)
Lemma processInspector_ext queue (i : Inspector Meta) c :
  processInspector r1 request queue i c = processInspector r2 request queue i c.
Proof. unfold processInspector. now rewrite same_server_error. Qed.

Lemma processInspectors_ext (insps : list (Inspector Meta)) :
  forall queue c,
    processInspectors r1 request insps queue c = processInspectors r2 request insps queue c.
Proof.
  induction insps as [|i rest IH]; intros queue c; [reflexivity|].
  simpl. unfold bind. rewrite processInspector_ext.
  destruct (processInspector r2 request queue i c) as [[[q| |] c1] ev1]; auto.
  now rewrite IH.
Qed.

Lemma afterLoop_ext queue closest c :
  afterLoop r1 request queue closest c = afterLoop r2 request queue closest c.
Proof. unfold afterLoop. now rewrite same_not_found. Qed.

Lemma atExactMatch_ext queue node c :
  atExactMatch r1 request queue node c = atExactMatch r2 request queue node c.
Proof. unfold atExactMatch. now rewrite same_not_found. Qed.

Lemma walk_ext (node : RouteNode Meta) :
  forall queue closest c,
    walk r1 request node queue closest c = walk r2 request node queue closest c.
Proof.
  pattern node; apply RouteNode_ind; clear node.
  intros seg w v insps cs h IH queue closest c.
  rewrite !walk_eq. unfold iteration, bind, readContext, modifyContext.
  cbn [inspectors childNodes]. rewrite processInspectors_ext.
  destruct (processInspectors r2 request insps queue c) as [[[q| |] c1] ev1]; auto.
  destruct (pathPartsArray c1) as [|seg0 rest].
  - now rewrite atExactMatch_ext.
  - destruct (find (matchesSegment seg0) cs) as [next|] eqn:Hf.
    + destruct (captureVariable next seg0 (shiftPathParts c1))
        as [[[u| |] c2] ev2]; auto.
      apply find_some in Hf as [Hin _]. rewrite List.Forall_forall in IH.
      now rewrite (IH next Hin).
    + now rewrite afterLoop_ext.
Qed.

End RouterExtensionality.

Section MethodIsolation.

Variable Meta : Type.
Implicit Types (r : Router Meta) (request : Request).

(** A request is handled the same by two routers that agree on the
    metadata constructor, on the fallback handlers and on the trie of the
    request's method. *)
Lemma requestHandler_ext r1 r2 request :
  context_metadata_constructor r1 = context_metadata_constructor r2 ->
  not_found_handler r1 = not_found_handler r2 ->
  server_error_handler r1 = server_error_handler r2 ->
  routesFor r1 request = routesFor r2 request ->
  requestHandler r1 request = requestHandler r2 request.
Proof.
  intros Hk Hnf Hse Hroutes. unfold requestHandler. rewrite Hk.
  destruct (context_metadata_constructor r2 request) as [m|e]; [|reflexivity].
  rewrite !tryBlock_routesFor, Hroutes.
  destruct (routesFor r2 request) as [root|].
  - unfold bind, modifyContext.
    rewrite (walk_ext Meta request r1 r2 Hnf Hse root).
    destruct (walk r2 request root _ _ _) as [[f c] evs].
    unfold afterTry. now rewrite Hse.
  - unfold bind, consoleLog, callHandler, call, returns, afterTry. rewrite Hnf, Hse.
    reflexivity.
Qed.

Lemma routesFor_GET r request :
  method request = "GET" -> routesFor r request = Some (get_routes r).
Proof. intros H. unfold routesFor. now rewrite H. Qed.

Lemma routesFor_POST r request :
  method request = "POST" -> routesFor r request = Some (post_routes r).
Proof. intros H. unfold routesFor. now rewrite H. Qed.

(** X5: the tries of the three methods are separate.  A GET request is
    handled the same whatever is registered, before or after, for POST or
    HEAD (handlers or inspectors), and a POST request the same whatever is
    registered for GET or HEAD. *)
Theorem X5_registrations_for_other_methods_do_not_matter
    r request (paths : Paths) (h : Handler Meta) (i : Inspector Meta) :
  (method request = "GET" ->
     requestHandler (fst (post paths h r)) request = requestHandler r request /\
     requestHandler (fst (head paths h r)) request = requestHandler r request /\
     requestHandler (fst (addPostInspector paths i r)) request = requestHandler r request /\
     requestHandler (fst (addHeadInspector paths i r)) request = requestHandler r request) /\
  (method request = "POST" ->
     requestHandler (fst (get paths h r)) request = requestHandler r request /\
     requestHandler (fst (head paths h r)) request = requestHandler r request /\
     requestHandler (fst (addGetInspector paths i r)) request = requestHandler r request /\
     requestHandler (fst (addHeadInspector paths i r)) request = requestHandler r request).
Proof.
  split; intros Hm; repeat split.
  all: unfold post, head, get, addPostInspector, addHeadInspector, addGetInspector.
  all: match goal with
       | |- context [let (n, log) := ?e in _] => destruct e as [n log]
       end.
  all: apply requestHandler_ext; try reflexivity.
  all: first [ rewrite !(routesFor_GET _ _ Hm) | rewrite !(routesFor_POST _ _ Hm) ];
    reflexivity.
Qed.

End MethodIsolation.

(** X5: an instance, the test "return 404 for unknown http methods": a
    route registered for GET does not answer a POST. *)
Lemma X5_registrations_for_other_methods_do_not_matter_witness :
  requestHandler (fst (get (OnePath "/") (Examples.respond "home") Examples.freshRouter))
    (mkRequest "POST" (mkURL "/")) =
  requestHandler Examples.freshRouter (mkRequest "POST" (mkURL "/")) /\
  fst (requestHandler (fst (get (OnePath "/") (Examples.respond "home") Examples.freshRouter))
         (mkRequest "POST" (mkURL "/"))) =
  Fulfilled (mkResponse 404 "<!DOCTYPE html><html><body>Not Found</body></html>") /\
  requestHandler (fst (post (OnePath "/") (Examples.respond "home") Scenarios.users))
    (Examples.GET "/users/42") =
  requestHandler Scenarios.users (Examples.GET "/users/42").
Proof.
  destruct (X5_registrations_for_other_methods_do_not_matter unit Examples.freshRouter
              (mkRequest "POST" (mkURL "/")) (OnePath "/") (Examples.respond "home")
              Scenarios.auditOnly) as [_ Hpost].
  destruct (X5_registrations_for_other_methods_do_not_matter unit Scenarios.users
              (Examples.GET "/users/42") (OnePath "/") (Examples.respond "home")
              Scenarios.auditOnly) as [Hget _].
  destruct (Hpost eq_refl) as (H1 & _). destruct (Hget eq_refl) as (H2 & _).
  split; [exact H1|]. split; [rewrite H1; reflexivity|exact H2].
Defined.

(** ** The root of a trie *)

Section EmptyTrie.

Variable Meta : Type.
Implicit Types (router : Router Meta) (request : Request).

Lemma split_two (s : string) :
  slashFree s = false -> exists a b l, split slash s = a :: b :: l.
Proof.
  induction s as [|ch s IH]; [discriminate|]. simpl.
  pose proof (split_nonempty s) as Hne.
  destruct (Ascii.eqb ch slash) eqn:E; simpl.
  - intros _. destruct (split slash s) as [|b l]; [congruence|]. eauto.
  - intros H. destruct (IH H) as (a & b & l & ->). eauto.
Qed.

(** No path part is left at the root exactly for a non-empty pathname
    without "/". *)
Lemma requestParts_nil request :
  requestParts request = [] <-> isOpaquePathname (pathname (requestUrl request)) = true.
Proof.
  unfold requestParts, isOpaquePathname.
  destruct (pathname (requestUrl request)) as [|ch s] eqn:E; [split; discriminate|].
  cbn [truthy andb]. destruct (slashFree (String ch s)) eqn:Hs.
  - rewrite (split_slashFree_string _ Hs). split; reflexivity.
  - destruct (split_two _ Hs) as (a & b & l & ->). split; discriminate.
Qed.

(** The walk, entered at the root of the trie of the request's method. *)
Lemma requestHandler_routesFor router request (m : Meta) (root : RouteNode Meta) :
  routesFor router request = Some root ->
  context_metadata_constructor router request = Ok m ->
  requestHandler router request =
  afterTry router request (walk router request root [] None (startContext request m)).
Proof.
  intros Hr Hk. unfold requestHandler. rewrite Hk, tryBlock_routesFor, Hr.
  f_equal. unfold bind, modifyContext. fold (startContext request m).
  destruct (walk router request root [] None (startContext request m)) as [[f c] evs].
  reflexivity.
Qed.

(** The events and the answer of a request whose walk ends by calling one
    handler with an empty queue. *)
Lemma one_handler_outcome (router : Router Meta) (request : Request) site
    (h : Handler Meta) (c : Context Meta) :
  let out := afterTry router request
               ((v <- callHandler site h request ;;
                 @returnProcessed Meta Empty_set [] request v) c) in
  (exists rest,
     snd out = CalledHandler site h c :: rest /\
     forallb (fun ev => negb (isRouteHandlerCall ev) && negb (isInspectorCall ev)) rest = true) /\
  (forall v c1,
     runHandler h request c = (Done v, c1) -> out = (settle v, [CalledHandler site h c])).
Proof.
  unfold afterLoop, bind, callHandler, call, returnProcessed, processResponseInspectors,
    afterTry.
  destruct (runHandler h request c) as [[v|e] c1] eqn:E.
  - split.
    + destruct v as [r|[r|e]]; simpl; exists []; split; reflexivity.
    + intros v' c1' [= <- <-]. destruct v as [r|[r|e]]; reflexivity.
  - split.
    + simpl. destruct (runHandler (server_error_handler router) request _) as [[v'|e'] c2];
        eexists; split; reflexivity.
    + discriminate.
Qed.


End EmptyTrie.


(** ** The response chain *)

Section ResponseChain.

Variable Meta : Type.
Variable router : Router Meta.
Variable request : Request.

Implicit Types (c : Context Meta) (queue : list (ResponseInspector Meta)).

Lemma runResponseInspectors_stop pre (ri : ResponseInspector Meta) post
    (r : Response) (e : Fault) :
  Forall (completes request r) pre -> faults request r e ri ->
  forall c, exists c1 evs,
    runResponseInspectors (pre ++ ri :: post) request r c = (Some e, c1, evs) /\
    forallb isResponseInspectorCall evs = true /\
    responseInspectorCalls evs = map (fun x => (x, r)) (pre ++ [ri]).
Proof.
  intros Hpre Hri. induction Hpre as [|x pre Hx Hpre IH]; intros c; simpl.
  - destruct (Hri c) as [H|H];
      destruct (runResponseInspector ri request r c) as [res c1]; simpl in H; subst res;
      do 2 eexists; repeat split.
  - destruct (Hx c) as (v & c' & -> & Hv).
    destruct (IH (retainArray c c')) as (c1 & evs & -> & H1 & H2).
    destruct v as [a|[a|e']]; [| |now destruct (Hv e')];
      exists c1, (CalledResponseInspector x r c :: evs); simpl; rewrite H1, H2;
      repeat split.
Qed.

(** X7: the response inspectors are run one after the other on the
    response that the handler produced (awaited if it is a promise), in the
    order of the queue, and the promise is then fulfilled with that same
    response.  The first one that throws, or whose promise rejects, ends the
    chain: the inspectors after it are not called and the promise is
    rejected with its fault. *)
Theorem X7_response_inspectors_run_in_order_until_one_faults
    pre (ri : ResponseInspector Meta) post (v : MaybePromise Response) (r : Response)
    (e : Fault) c :
  fulfilledWith v r ->
  Forall (completes request r) pre ->
  (Forall (completes request r) (ri :: post) ->
     exists c1 evs,
       processResponseInspectors (pre ++ ri :: post) request v c = (Fulfilled r, c1, evs) /\
       forallb isResponseInspectorCall evs = true /\
       responseInspectorCalls evs = map (fun x => (x, r)) (pre ++ ri :: post)) /\
  (faults request r e ri ->
     exists c1 evs,
       processResponseInspectors (pre ++ ri :: post) request v c = (Rejected e, c1, evs) /\
       forallb isResponseInspectorCall evs = true /\
       responseInspectorCalls evs = map (fun x => (x, r)) (pre ++ [ri])).
Proof.
  intros Hv Hpre.
  assert (Hnow : processResponseInspectors (pre ++ ri :: post) request v c =
                 processResponseInspectors (pre ++ ri :: post) request (Now r) c).
  { destruct Hv as [-> | ->]; reflexivity. }
  rewrite Hnow. split.
  - intros Hrest.
    destruct (processResponseInspectors (pre ++ ri :: post) request (Now r) c)
      as [[s c1] evs] eqn:E.
    destruct (processResponseInspectors_now Meta request _ r c s c1 evs E) as (H1 & _ & H3).
    destruct H3 as [-> H4]; [apply Forall_app; auto|].
    exists c1, evs. auto.
  - intros Hri. unfold processResponseInspectors.
    destruct (runResponseInspectors_stop pre ri post r e Hpre Hri c) as (c1 & evs & -> & H).
    exists c1, evs. split; [reflexivity|exact H].
Qed.

End ResponseChain.

(** X7: an instance, an observer, an inspector that throws, and another
    observer. *)
Lemma X7_response_inspectors_run_in_order_until_one_faults_witness :
  (exists c1 evs,
     processResponseInspectors
       ([Examples.observing "first"] ++ Examples.observing "second" :: [Examples.observing "third"])
       (Examples.GET "/") (Now Scenarios.denied) (Examples.contextWith []) =
       (Fulfilled Scenarios.denied, c1, evs) /\
     forallb isResponseInspectorCall evs = true /\
     responseInspectorCalls evs =
       map (fun x => (x, Scenarios.denied))
         ([Examples.observing "first"] ++ Examples.observing "second" ::
          [Examples.observing "third"])) /\
  (exists c1 evs,
     processResponseInspectors
       ([Examples.observing "first"] ++ Examples.failing "second" "boom" ::
        [Examples.observing "third"])
       (Examples.GET "/") (Now Scenarios.denied) (Examples.contextWith []) =
       (Rejected "boom", c1, evs) /\
     forallb isResponseInspectorCall evs = true /\
     responseInspectorCalls evs =
       map (fun x => (x, Scenarios.denied))
         ([Examples.observing "first"] ++ [Examples.failing "second" "boom"])).
Proof.
  assert (Hobs : forall name,
            completes (Examples.GET "/") Scenarios.denied (Examples.observing name)).
  { intros name c. exists (Now tt), c. split; [reflexivity|discriminate]. }
  split.
  - apply (X7_response_inspectors_run_in_order_until_one_faults unit (Examples.GET "/")
             [Examples.observing "first"] (Examples.observing "second")
             [Examples.observing "third"] (Now Scenarios.denied) Scenarios.denied "boom"
             (Examples.contextWith [])).
    + left. reflexivity.
    + repeat constructor. apply Hobs.
    + repeat constructor; apply Hobs.
  - apply (X7_response_inspectors_run_in_order_until_one_faults unit (Examples.GET "/")
             [Examples.observing "first"] (Examples.failing "second" "boom")
             [Examples.observing "third"] (Now Scenarios.denied) Scenarios.denied "boom"
             (Examples.contextWith [])).
    + left. reflexivity.
    + repeat constructor. apply Hobs.
    + intros c. left. reflexivity.
Defined.

(** ** Request inspectors that misbehave *)

Section InspectorFaults.

Variable Meta : Type.
Variable router : Router Meta.
Variable request : Request.

Implicit Types (c : Context Meta) (inspector : Inspector Meta).
Implicit Types (queue : list (ResponseInspector Meta)).

Lemma url_retainArray c c1 : url (retainArray c c1) = url c1.
Proof. unfold retainArray. destruct (pathParts c), (pathParts c1); reflexivity. Qed.

(** X8: when a request inspector answers neither a response nor
    "continue", the error is logged with the pathname of the context's URL
    as the inspector left it, the server-error handler is called, and its
    response goes through the response inspectors collected so far, in
    order, before it is returned (unlike the answer given for a thrown
    fault, which bypasses them).  The inspector's own response inspector is
    not among them. *)
Theorem X8_malformed_outcome_answer_goes_through_the_queue
    queue inspector (ri : RequestInspector Meta) c c1 c2
    (v : MaybePromise RequestInspectorResponse) (o : RequestInspectorResponse)
    (v' : MaybePromise Response) (r' : Response) :
  requestInspector inspector = Some ri ->
  inScope c inspector = true ->
  runRequestInspector ri request c = (Done v, c1) ->
  fulfilledWith v o ->
  response o = None -> shouldContinue o = false ->
  runHandler (server_error_handler router) request (retainArray c c1) = (Done v', c2) ->
  fulfilledWith v' r' ->
  Forall (completes request r') queue ->
  exists c3 evs,
    processInspector router request queue inspector c =
    (Returns (Later (Fulfilled r')), c3,
     CalledRequestInspector inspector c ::
     Logged (ErrNoResponseNoContinue (pathname (url c1))) ::
     CalledHandler ServerError (server_error_handler router) (retainArray c c1) :: evs) /\
    forallb isResponseInspectorCall evs = true /\
    responseInspectorCalls evs = map (fun x => (x, r')) queue.
Proof.
  intros Hri Hscope Hrun Hv Hr Hc Hse Hv' Hq.
  rewrite <- (url_retainArray c c1).
  unfold processInspector, bind, readContext, call, ret, consoleLog, callHandler, call,
    returnProcessed.
  rewrite Hri, Hscope, Hrun.
  assert (Hnow : forall cx,
            processResponseInspectors queue request v' cx =
            processResponseInspectors queue request (Now r') cx).
  { intros cx. destruct Hv' as [-> | ->]; reflexivity. }
  destruct Hv as [-> | ->]; simpl; rewrite Hr, Hc; simpl; rewrite Hse, Hnow.
  all: destruct (processResponseInspectors queue request (Now r') _) as [[s c4] evs] eqn:E.
  all: destruct (processResponseInspectors_now Meta request queue r' _ s c4 evs E)
         as (H1 & _ & H3).
  all: destruct (H3 Hq) as [-> H4].
  all: exists c4, evs; auto.
Qed.

(** X9: a request inspector that throws, or whose promise rejects, while
    the walk is at a node: the walk is abandoned there, the fault is logged,
    and the server-error handler is called; its answer is the answer of the
    request.  Nothing else is called: no handler of a route, no further
    request inspector, and none of the response inspectors collected so
    far. *)
Theorem X9_request_inspector_fault_is_answered_by_the_server_error_handler
    (node : RouteNode Meta) (pre post : list (Inspector Meta)) inspector
    (ri : RequestInspector Meta) queue0 queue (closest : option (RouteNode Meta))
    c0 c c1 (ev0 : list (Event Meta)) (e : Fault) :
  inspectors node = pre ++ inspector :: post ->
  processInspectors router request pre queue0 c0 = (Next queue, c, ev0) ->
  requestInspector inspector = Some ri ->
  inScope c inspector = true ->
  snd (runRequestInspector ri request c) = c1 ->
  faultOf (fst (runRequestInspector ri request c)) e ->
  walk router request node queue0 closest c0 =
    (Throws e, retainArray c c1, ev0 ++ [CalledRequestInspector inspector c]) /\
  snd (afterTry router request (walk router request node queue0 closest c0)) =
    ev0 ++ [CalledRequestInspector inspector c; Logged (ErrCaught e);
            CalledHandler ServerError (server_error_handler router) (retainArray c c1)] /\
  (forall v' c2,
     runHandler (server_error_handler router) request (retainArray c c1) = (Done v', c2) ->
     fst (afterTry router request (walk router request node queue0 closest c0)) = settle v').
Proof.
  intros Hnode Hpre Hri Hscope Hc1 Hfault.
  assert (Hwalk : walk router request node queue0 closest c0 =
                  (Throws e, retainArray c c1, ev0 ++ [CalledRequestInspector inspector c])).
  { rewrite walk_eq. unfold iteration. unfold bind at 1.
    rewrite Hnode, processInspectors_app. unfold bind at 1. rewrite Hpre.
    cbn [processInspectors]. unfold bind at 1.
    unfold processInspector, bind, readContext, call. rewrite Hri, Hscope.
    destruct (runRequestInspector ri request c) as [res cx]. simpl in Hc1, Hfault.
    subst cx. destruct Hfault as [-> | ->]; reflexivity. }
  rewrite Hwalk. unfold afterTry.
  destruct (runHandler (server_error_handler router) request (retainArray c c1))
    as [[v'|e'] c2]; simpl; rewrite <- app_assoc; simpl.
  - split; [reflexivity|]. split; [reflexivity|]. now intros v'' c2' [= <- <-].
  - split; [reflexivity|]. split; [reflexivity|]. discriminate.
Qed.

End InspectorFaults.

(** X8: an instance, an inspector that reassigns [context.url] before
    answering neither a response nor "continue", with one response
    inspector collected: the log shows the new pathname. *)
Lemma X8_malformed_outcome_answer_goes_through_the_queue_witness :
  exists c3 evs,
    processInspector Examples.freshRouter (Examples.GET "/") [Examples.observing "audit"]
      MoreExamples.rewriting (startContext (Examples.GET "/") tt) =
    (Returns (Later (Fulfilled MoreExamples.serverError)), c3,
     CalledRequestInspector MoreExamples.rewriting (startContext (Examples.GET "/") tt) ::
     Logged (ErrNoResponseNoContinue "/elsewhere") ::
     CalledHandler ServerError default_server_error_handler
       (mkContext (mkURL "/elsewhere") None tt (Some [""]))
     :: evs) /\
    forallb isResponseInspectorCall evs = true /\
    responseInspectorCalls evs =
      map (fun x => (x, MoreExamples.serverError)) [Examples.observing "audit"].
Proof.
  apply (X8_malformed_outcome_answer_goes_through_the_queue unit Examples.freshRouter
           (Examples.GET "/") [Examples.observing "audit"] MoreExamples.rewriting
           (mkRequestInspector "rewriting" (fun _ c =>
              (Done (Now (mkRequestInspectorResponse false None)),
               mkContext (mkURL "/elsewhere") (pathVariables c) (meta c) (pathParts c))))
           (startContext (Examples.GET "/") tt)
           (mkContext (mkURL "/elsewhere") None tt (Some [""]))
           (mkContext (mkURL "/elsewhere") None tt (Some [""]))
           (Now (mkRequestInspectorResponse false None))
           (mkRequestInspectorResponse false None)
           (Now MoreExamples.serverError) MoreExamples.serverError).
  - reflexivity.
  - reflexivity.
  - reflexivity.
  - left. reflexivity.
  - reflexivity.
  - reflexivity.
  - reflexivity.
  - left. reflexivity.
  - repeat constructor. intros c. exists (Now tt), c. split; [reflexivity|discriminate].
Defined.

(** X9: an instance, an inspector whose promise rejects, behind an
    audit-only one, on [GET /]. *)
Lemma X9_request_inspector_fault_is_answered_by_the_server_error_handler_witness :
  walk MoreExamples.breakingRouter (Examples.GET "/")
    (get_routes MoreExamples.breakingRouter) [] None (startContext (Examples.GET "/") tt) =
    (Throws "no session",
     retainArray (startContext (Examples.GET "/") tt) (startContext (Examples.GET "/") tt),
     [] ++ [CalledRequestInspector MoreExamples.broken (startContext (Examples.GET "/") tt)]) /\
  requestHandler MoreExamples.breakingRouter (Examples.GET "/") =
    (Fulfilled MoreExamples.serverError,
     [CalledRequestInspector MoreExamples.broken (startContext (Examples.GET "/") tt);
      Logged (ErrCaught "no session");
      CalledHandler ServerError default_server_error_handler
        (startContext (Examples.GET "/") tt)]).
Proof.
  destruct (X9_request_inspector_fault_is_answered_by_the_server_error_handler unit
              MoreExamples.breakingRouter (Examples.GET "/")
              (get_routes MoreExamples.breakingRouter)
              [Scenarios.auditOnly] [] MoreExamples.broken
              (MoreExamples.rejectingInspector "auth" "no session")
              [] [Examples.observing "audit"] None
              (startContext (Examples.GET "/") tt) (startContext (Examples.GET "/") tt)
              (startContext (Examples.GET "/") tt) [] "no session"
              eq_refl eq_refl eq_refl eq_refl eq_refl (or_intror eq_refl))
    as (H1 & H2 & H3).
  split; [exact H1|].
  rewrite (requestHandler_GET unit MoreExamples.breakingRouter (Examples.GET "/") tt
             eq_refl eq_refl).
  rewrite (surjective_pairing (afterTry _ _ _)).
  rewrite H2, (H3 (Now MoreExamples.serverError) (startContext (Examples.GET "/") tt) eq_refl).
  reflexivity.
Defined.

(** ** Global inspectors *)

Section GlobalInspector.

Variable Meta : Type.
Variable router : Router Meta.
Variable request : Request.

Lemma bind_events_head {A B : Type} (m : Exec Meta A) (k : A -> Exec Meta B)
    (c : Context Meta) f c' (ev : Event Meta) evs :
  m c = (f, c', ev :: evs) -> exists rest, snd (bind m k c) = ev :: rest.
Proof.
  intros E. unfold bind. rewrite E. destruct f as [a| |]; simpl; eauto.
  destruct (k a c') as [[f2 c2] ev2]. simpl. eauto.
Qed.

(** X10: a root inspector with [observeChildPaths] on (the default),
    before which the root holds only inspectors without request inspector,
    is global: for every request of that method, whatever its path and
    whatever is registered after it or elsewhere in the trie, the first
    callback called is its request inspector, with the context as the walk
    starts. *)
Theorem X10_root_inspector_sees_every_request
    (m : Meta) (root : RouteNode Meta) (pre : list (Inspector Meta))
    (inspector : Inspector Meta) (others : list (Inspector Meta))
    (ri : RequestInspector Meta) :
  routesFor router request = Some root ->
  inspectors root = pre ++ inspector :: others ->
  Forall (fun i => requestInspector i = None) pre ->
  requestInspector inspector = Some ri ->
  observeChildPaths inspector = true ->
  context_metadata_constructor router request = Ok m ->
  exists rest,
    snd (requestHandler router request) =
    CalledRequestInspector inspector (startContext request m) :: rest.
Proof.
  intros Hr Hi Hpre Hri Hobs Hk.
  rewrite (requestHandler_routesFor Meta router request m root Hr Hk).
  assert (Hs : inScope (startContext request m) inspector = true).
  { apply inScope_spec. now right. }
  set (queue := [] ++ omap (fun i => if inScope (startContext request m) i
                                      then responseInspector i else None) pre).
  destruct (processInspector_calls_first Meta router request queue inspector ri
              (startContext request m) Hri Hs) as (f & c' & evs & E).
  assert (Hw : exists rest,
            snd (walk router request root [] None (startContext request m)) =
            CalledRequestInspector inspector (startContext request m) :: rest).
  { rewrite walk_eq. unfold iteration. unfold bind at 1.
    rewrite Hi, processInspectors_app. unfold bind at 1.
    rewrite (processInspectors_audit_scoped Meta router request pre [] _ Hpre).
    fold queue. cbn [processInspectors].
    destruct (bind_events_head _ (fun q => processInspectors router request others q)
                _ _ _ _ _ E) as (rest1 & E1).
    rewrite exec_eta.
    destruct (bind _ (fun q => processInspectors router request others q) _)
      as [[f1 c1] ev1] eqn:E2. simpl in E1. subst ev1.
    destruct f1 as [a| |]; [|simpl; eauto|simpl; eauto].
    destruct (bind readContext _ c1) as [[f2 c2] ev2]. simpl. eauto. }
  destruct Hw as (rest & Hw).
  destruct (walk router request root [] None (startContext request m)) as [[f1 c1] ev1].
  simpl in Hw. subst ev1. apply afterTry_events_head.
Qed.

End GlobalInspector.

(** X10: an instance, after the test "global request inspector": an
    audit-only inspector and then a watching inspector are registered
    under the empty path, and the request is for [/sub/path]. *)
Lemma X10_root_inspector_sees_every_request_witness :
  exists rest,
    snd (requestHandler
           (fst (addGetInspector (OnePath "") (Scenarios.subInspector true)
                   (fst (addGetInspector (OnePath "") Scenarios.auditOnly
                           (fst (get (OnePath "/sub/path") (Examples.respond "page")
                                   Examples.freshRouter))))))
           (Examples.GET "/sub/path")) =
    CalledRequestInspector (Scenarios.subInspector true)
      (startContext (Examples.GET "/sub/path") tt) :: rest.
Proof.
  apply (X10_root_inspector_sees_every_request unit _ (Examples.GET "/sub/path") tt
           (get_routes
              (fst (addGetInspector (OnePath "") (Scenarios.subInspector true)
                      (fst (addGetInspector (OnePath "") Scenarios.auditOnly
                              (fst (get (OnePath "/sub/path") (Examples.respond "page")
                                      Examples.freshRouter)))))))
           [Scenarios.auditOnly] (Scenarios.subInspector true) []
           (Examples.answering "watch" (mkRequestInspectorResponse true None))).
  - reflexivity.
  - reflexivity.
  - apply List.Forall_cons; [reflexivity|apply List.Forall_nil].
  - reflexivity.
  - reflexivity.
  - reflexivity.
Defined.

(** ** Routes with several variables *)

Section SeveralVariables.

Variable Meta : Type.

Lemma pathVariable_of_advance (seg val name : string) (c : Context Meta) :
  pathVariable_of (advance seg val c) name =
  if isVariableSegment seg && String.eqb (substring1 seg) name && negb (String.eqb name "*")
  then Some val
  else pathVariable_of c name.
Proof.
  unfold advance, pathVariable_of.
  destruct (isVariableSegment seg); [|reflexivity]. cbn [andb].
  destruct (String.eqb (substring1 seg) name) eqn:En.
  - apply String.eqb_eq in En. subst name.
    destruct (String.eqb (substring1 seg) "*"); [reflexivity|].
    cbn [negb andb addPathVariable pathVariables]. apply lookup_insert_eq.
  - apply String.eqb_neq in En. cbn [andb].
    destruct (String.eqb (substring1 seg) "*"); [reflexivity|].
    cbn [negb addPathVariable pathVariables shiftPathParts].
    rewrite lookup_insert_ne by assumption.
    destruct (pathVariables c); [reflexivity|apply lookup_empty].
Qed.

Lemma pathVariable_of_advanceAll (name : string) (segs : list string) :
  forall (vals : list string) (c : Context Meta),
    pathVariable_of (advanceAll segs vals c) name =
    match lastBinding name segs vals with
    | Some v => Some v
    | None => pathVariable_of c name
    end.
Proof.
  induction segs as [|seg segs IH]; intros [|val vals] c; try reflexivity.
  cbn [advanceAll lastBinding]. rewrite IH.
  destruct (lastBinding name segs vals); [reflexivity|].
  rewrite pathVariable_of_advance.
  destruct (_ && _ && _); reflexivity.
Qed.

(** X11: on a new router with one GET route, of any accepted shape
    (literal segments, variables, a [*] at the end), a GET request that has
    one segment for each segment of the route, equal to it where the route
    is literal, is answered by the handler of the route, by exact match.  The
    path-variable map of the context it receives binds every variable of the
    route to the request segment at its position; when a name occurs twice
    the later position wins, and neither [*] nor a variable called [*] binds
    anything. *)
Theorem X11_every_variable_of_a_route_is_bound_to_its_segment
    (nf se : option (Handler Meta)) (mk : Request -> Sync Meta)
    (h : Handler Meta) (path : string) (request : Request) (m : Meta) :
  splatOnlyLast (pathSegmentsFromPath path) = true ->
  Forall2 fits (pathSegmentsFromPath path) (requestParts request) ->
  method request = "GET" ->
  mk request = Ok m ->
  exists c rest,
    snd (requestHandler (fst (get (OnePath path) h (newRouter nf se mk))) request) =
      CalledHandler ExactMatch h c :: rest /\
    fst (getPathParts c) = [] /\
    forall name,
      pathVariable_of c name =
      lastBinding name (pathSegmentsFromPath path) (requestParts request).
Proof.
  intros Hok Hfits Hmethod Hmk.
  rewrite (get_first_route Meta nf se mk path h Hok). cbn [fst].
  set (router := withGetRoutes (newRouter nf se mk) _).
  set (c := advanceAll (pathSegmentsFromPath path) (requestParts request)
              (startContext request m)).
  destruct (request_events_head Meta router request m ExactMatch h c Hmethod Hmk)
    as (rest & Hrest).
  { subst router c. cbn [withGetRoutes get_routes].
    apply (walk_route_exact Meta _ request h _ _ newRouteNode [] None _
             Hfits eq_refl eq_refl eq_refl (pathPartsArray_startContext Meta request m)). }
  exists c, rest. split; [exact Hrest|]. split.
  - rewrite getPathParts_attached.
    + subst c. apply pathPartsArray_advanceAll.
      * eapply Forall2_length; eauto.
      * now rewrite app_nil_r.
    + subst c. apply attached_advanceAll. discriminate.
  - intros name. subst c. rewrite pathVariable_of_advanceAll.
    destruct (lastBinding name _ _); reflexivity.
Qed.

End SeveralVariables.

(** X11: an instance, [/teams/:team/users/:id/*] and
    [GET /teams/core/users/42/avatar]. *)
Lemma X11_every_variable_of_a_route_is_bound_to_its_segment_witness :
  exists c rest,
    snd (requestHandler
           (fst (get (OnePath "/teams/:team/users/:id/*") (Examples.respond "asset")
                   Examples.freshRouter))
           (Examples.GET "/teams/core/users/42/avatar")) =
      CalledHandler ExactMatch (Examples.respond "asset") c :: rest /\
    fst (getPathParts c) = [] /\
    forall name,
      pathVariable_of c name =
      lastBinding name ["teams"; ":team"; "users"; ":id"; "*"]
        ["teams"; "core"; "users"; "42"; "avatar"].
Proof.
  apply (X11_every_variable_of_a_route_is_bound_to_its_segment unit None None
           (fun _ => Ok tt) (Examples.respond "asset") "/teams/:team/users/:id/*"
           (Examples.GET "/teams/core/users/42/avatar") tt).
  - reflexivity.
  - change (Forall2 fits ["teams"; ":team"; "users"; ":id"; "*"]
              ["teams"; "core"; "users"; "42"; "avatar"]).
    repeat (apply List.Forall2_cons;
            [first [right; right; reflexivity | right; left; reflexivity | left; reflexivity]|]).
    apply List.Forall2_nil.
  - reflexivity.
  - reflexivity.
Defined.

(** ** Literal routes: the trie as a map *)

Section LiteralRouteFacts.

Variable Meta : Type.
Implicit Types (n this child : RouteNode Meta) (cs : list (RouteNode Meta)).
Implicit Types (segs rest : list string).

Lemma hasSegment_other seg seg' n :
  seg' <> seg -> hasSegment seg n = true -> hasSegment seg' n = false.
Proof.
  unfold hasSegment. intros Hne H. apply String.eqb_eq in H.
  apply String.eqb_neq. congruence.
Qed.

Lemma find_hasSegment_replaceFirst_other seg seg' child' cs :
  seg' <> seg -> hasSegment seg child' = true ->
  find (hasSegment seg') (replaceFirst (hasSegment seg) child' cs) =
  find (hasSegment seg') cs.
Proof.
  intros Hne Hc. induction cs as [|x cs IH]; simpl; [reflexivity|].
  destruct (hasSegment seg x) eqn:E; simpl.
  - now rewrite (hasSegment_other _ _ _ Hne Hc), (hasSegment_other _ _ _ Hne E).
  - now rewrite IH.
Qed.

Lemma find_hasSegment_app_other seg seg' child' cs :
  seg' <> seg -> hasSegment seg child' = true ->
  find (hasSegment seg') (cs ++ [child']) = find (hasSegment seg') cs.
Proof.
  intros Hne Hc. induction cs as [|x cs IH]; simpl.
  - now rewrite (hasSegment_other _ _ _ Hne Hc).
  - now rewrite IH.
Qed.

Lemma handlerAt_childless segs n :
  childNodes n = [] -> handler n = None -> handlerAt segs n = None.
Proof. intros Hc Hh. destruct segs; simpl; [assumption|now rewrite Hc]. Qed.

(** Registering a handler under a literal path fills the path if it held
    no handler, and changes what is held under no other path. *)
Lemma handlerAt_addPathHandler (h : Handler Meta) segs :
  forallb isLiteralSegment segs = true ->
  forall this segs',
    handlerAt segs' (fst (addPathHandler segs h this)) =
    if bool_decide (segs' = segs)
    then Some (default h (handlerAt segs this))
    else handlerAt segs' this.
Proof.
  unfold addPathHandler.
  induction segs as [|seg rest IH]; intros Hlit this segs'.
  - cbn [addPathPropertyHelper]. destruct segs' as [|s' r'].
    + rewrite bool_decide_eq_true_2 by reflexivity. cbn [handlerAt].
      unfold setHandler. destruct (handler this) eqn:E; cbn; now rewrite ?E.
    + rewrite bool_decide_eq_false_2 by discriminate. cbn [handlerAt].
      unfold setHandler. destruct (handler this) eqn:E; reflexivity.
  - cbn [forallb] in Hlit. apply andb_prop in Hlit as [Hseg Hrest].
    destruct (isLiteralSegment_spec seg Hseg) as [Hs Hv].
    specialize (IH Hrest).
    pose proof (setHandler_keepsShape Meta h) as Hk.
    rewrite addPathPropertyHelper_cons, Hs, Hv.
    destruct (find (hasSegment seg) (childNodes this)) as [child|] eqn:Hf.
    + pose proof (addPathPropertyHelper_labels Meta rest _ child Hk) as Hl.
      pose proof (IH child) as IHc.
      destruct (addPathPropertyHelper rest (setHandler h) child) as [child' log].
      cbn [fst snd] in *.
      assert (Hw : hasSegment seg child' = true).
      { rewrite (labels_hasSegment Meta seg _ _ Hl). now apply find_some in Hf. }
      destruct segs' as [|s' r'].
      * rewrite bool_decide_eq_false_2 by discriminate. reflexivity.
      * cbn [handlerAt setChildNodes childNodes]. rewrite Hf.
        destruct (decide (s' = seg)) as [->|Hne].
        -- rewrite (find_replaceFirst Meta _ _ _ _ Hf Hw), Hf, IHc.
           destruct (decide (r' = rest)) as [->|Hr].
           ++ now rewrite !bool_decide_eq_true_2 by reflexivity.
           ++ now rewrite !bool_decide_eq_false_2 by congruence.
        -- rewrite (find_hasSegment_replaceFirst_other _ _ _ _ Hne Hw).
           now rewrite bool_decide_eq_false_2 by congruence.
    + pose proof (addPathPropertyHelper_labels Meta rest _
                    (setPathSegment seg newRouteNode) Hk) as Hl.
      pose proof (IH (setPathSegment seg newRouteNode)) as IHc.
      destruct (addPathPropertyHelper rest (setHandler h) _) as [child' log].
      cbn [fst snd] in *.
      assert (Hw : hasSegment seg child' = true).
      { rewrite (labels_hasSegment Meta seg _ _ Hl). apply String.eqb_refl. }
      destruct segs' as [|s' r'].
      * rewrite bool_decide_eq_false_2 by discriminate. reflexivity.
      * cbn [handlerAt addChildNode childNodes]. rewrite Hf.
        destruct (decide (s' = seg)) as [->|Hne].
        -- rewrite (find_app_new Meta _ _ _ Hf Hw), Hf, IHc.
           rewrite !(handlerAt_childless _ (setPathSegment seg newRouteNode))
             by reflexivity.
           destruct (decide (r' = rest)) as [->|Hr].
           ++ now rewrite !bool_decide_eq_true_2 by reflexivity.
           ++ now rewrite !bool_decide_eq_false_2 by congruence.
        -- rewrite (find_hasSegment_app_other _ _ _ _ Hne Hw).
           now rewrite bool_decide_eq_false_2 by congruence.
Qed.

Lemma addPathHandler_inspectors (h : Handler Meta) segs this :
  inspectors (fst (addPathHandler segs h this)) = inspectors this.
Proof.
  unfold addPathHandler. destruct segs as [|seg rest].
  - simpl. unfold setHandler. destruct (handler this); reflexivity.
  - rewrite addPathPropertyHelper_cons.
    repeat match goal with
    | |- context [if ?b then _ else _] => destruct b
    | |- context [match ?l with [] => _ | _ :: _ => _ end] => destruct l
    | |- context [match find ?p ?l with _ => _ end] => destruct (find p l)
    | |- context [let (_, _) := ?e in _] => destruct e
    end; reflexivity.
Qed.

Lemma Forall_replaceFirst (Q : RouteNode Meta -> Prop) (p : RouteNode Meta -> bool)
    child' cs :
  Forall Q cs -> Q child' -> Forall Q (replaceFirst p child' cs).
Proof.
  intros H Hc. induction H as [|x cs Hx H IH]; simpl; [constructor|].
  destruct (p x); constructor; auto.
Qed.

Lemma everyNode_inv (Q : RouteNode Meta -> Prop) n :
  everyNode Q n -> Q n /\ Forall (everyNode Q) (childNodes n).
Proof. intros H. inversion H. auto. Qed.

(** Literal routes leave a trie of literal nodes. *)
Lemma addPathHandler_literal (h : Handler Meta) segs :
  forallb isLiteralSegment segs = true ->
  forall this,
    everyNode literalNode this ->
    everyNode literalNode (fst (addPathHandler segs h this)).
Proof.
  induction segs as [|seg rest IH]; intros Hlit this Hthis.
  - apply everyNode_inv in Hthis as [[Hw Hi] Hcs].
    unfold addPathHandler. cbn [addPathPropertyHelper]. unfold setHandler.
    destruct (handler this) eqn:E; constructor; try split; auto.
  - cbn [forallb] in Hlit. apply andb_prop in Hlit as [Hseg Hrest].
    destruct (isLiteralSegment_spec seg Hseg) as [Hs Hv].
    specialize (IH Hrest).
    apply everyNode_inv in Hthis as [[Hw Hi] Hcs].
    unfold addPathHandler in *. rewrite addPathPropertyHelper_cons, Hs, Hv.
    destruct (find (hasSegment seg) (childNodes this)) as [child|] eqn:Hf.
    + assert (Hchild : everyNode literalNode child).
      { apply find_some in Hf as [Hin _].
        rewrite List.Forall_forall in Hcs. now apply Hcs. }
      specialize (IH child Hchild).
      destruct (addPathPropertyHelper rest (setHandler h) child) as [child' log].
      cbn [fst] in *. constructor; [split; assumption|].
      cbn [setChildNodes childNodes]. now apply Forall_replaceFirst.
    + assert (Hnew : everyNode literalNode (setPathSegment seg (@newRouteNode Meta))).
      { constructor; [split; reflexivity|constructor]. }
      specialize (IH _ Hnew).
      destruct (addPathPropertyHelper rest (setHandler h) _) as [child' log].
      cbn [fst] in *. constructor; [split; assumption|].
      cbn [addChildNode childNodes]. apply Forall_app. split; [assumption|].
      constructor; [assumption|constructor].
Qed.

Lemma find_matchesSegment_literal seg cs :
  Forall (everyNode literalNode) cs ->
  find (matchesSegment seg) cs = find (hasSegment seg) cs /\
  find isSplat cs = None.
Proof.
  induction 1 as [|x cs Hx H [IH1 IH2]]; [split; reflexivity|].
  apply everyNode_inv in Hx as [[Hw _] _].
  cbn [find]. unfold matchesSegment, isSplat, hasSegment in *. rewrite Hw. simpl.
  rewrite IH1, IH2. split; reflexivity.
Qed.

(** On a trie of literal nodes the walk is a lookup: it ends at the handler
    held under the request's segments, with no part left, or at the
    not-found handler. *)
Lemma walk_literal (router : Router Meta) (request : Request) (u : URL)
    (pv : option (gmap string string)) (m : Meta) (vals : list string) :
  forall n,
    everyNode literalNode n ->
    exists remaining,
      (handlerAt vals n <> None -> remaining = []) /\
      walk router request n [] None (mkContext u pv m (Some vals)) =
        (v <- callHandler
                (match handlerAt vals n with Some _ => ExactMatch | None => NotFound end)
                (default (not_found_handler router) (handlerAt vals n)) request ;;
         @returnProcessed Meta Empty_set [] request v)
          (mkContext u pv m (Some remaining)).
Proof.
  induction vals as [|val vals IH]; intros n Hn;
    pose proof (everyNode_inv _ _ Hn) as [[Hw Hi] Hcs];
    rewrite walk_eq, iteration_no_inspectors by assumption;
    cbn [pathPartsArray pathParts].
  - exists []. split; [reflexivity|]. unfold atExactMatch. cbn [handlerAt].
    destruct (handler n); reflexivity.
  - destruct (find_matchesSegment_literal val _ Hcs) as [Hfind Hsplat].
    rewrite Hfind. unfold captureSplat. rewrite Hsplat. cbn [handlerAt].
    change (shiftPathParts (mkContext u pv m (Some (val :: vals))))
      with (mkContext u pv m (Some vals)).
    destruct (find (hasSegment val) (childNodes n)) as [child|] eqn:Hf.
    + assert (Hchild : everyNode literalNode child).
      { apply find_some in Hf as [Hin _].
        rewrite List.Forall_forall in Hcs. now apply Hcs. }
      destruct (IH child Hchild) as (remaining & Hrem & Hwalk).
      exists remaining. split; [assumption|].
      apply everyNode_inv in Hchild as [[Hwc _] _].
      unfold captureVariable. rewrite Hwc. cbn [andb].
      unfold bind at 1. cbn [ret]. rewrite Hwalk. apply exec_eta.
    + exists vals. split; [congruence|]. reflexivity.
Qed.

End LiteralRouteFacts.

Section LiteralRouter.

Variable Meta : Type.

Lemma getAll_fields (regs : list (string * Handler Meta)) :
  forall r,
    context_metadata_constructor (getAll regs r) = context_metadata_constructor r /\
    not_found_handler (getAll regs r) = not_found_handler r /\
    server_error_handler (getAll regs r) = server_error_handler r.
Proof.
  induction regs as [|[path h] regs IH]; intros r; [repeat split|].
  cbn [getAll fold_left fst snd]. fold (getAll regs (fst (get (OnePath path) h r))).
  destruct (IH (fst (get (OnePath path) h r))) as (-> & -> & ->).
  destruct (get_fields Meta path h r) as (_ & -> & -> & ->). repeat split.
Qed.

Lemma getAll_literal (regs : list (string * Handler Meta)) :
  forallb (fun reg => literalPath (fst reg)) regs = true ->
  forall r,
    everyNode literalNode (get_routes r) ->
    everyNode literalNode (get_routes (getAll regs r)).
Proof.
  induction regs as [|[path h] regs IH]; intros Hlit r Hr; [assumption|].
  cbn [forallb fst] in Hlit. apply andb_prop in Hlit as [Hp Hrest].
  cbn [getAll fold_left fst snd]. fold (getAll regs (fst (get (OnePath path) h r))).
  apply IH; [assumption|].
  destruct (get_fields Meta path h r) as (-> & _).
  now apply addPathHandler_literal.
Qed.

(** What the GET trie holds under a path after a list of literal
    registrations: what it held before or, failing that, the handler of
    the first registration for that path. *)
Lemma handlerAt_getAll (segs : list string) (regs : list (string * Handler Meta)) :
  forallb (fun reg => literalPath (fst reg)) regs = true ->
  forall r,
    handlerAt segs (get_routes (getAll regs r)) =
    match handlerAt segs (get_routes r) with
    | Some h => Some h
    | None => firstRegistered segs regs
    end.
Proof.
  induction regs as [|[path h] regs IH]; intros Hlit r.
  - cbn. now destruct (handlerAt segs (get_routes r)).
  - cbn [forallb fst] in Hlit. apply andb_prop in Hlit as [Hp Hrest].
    cbn [getAll fold_left fst snd]. fold (getAll regs (fst (get (OnePath path) h r))).
    rewrite (IH Hrest).
    destruct (get_fields Meta path h r) as (-> & _).
    rewrite (handlerAt_addPathHandler Meta h _ Hp).
    unfold firstRegistered. cbn [find fst].
    destruct (decide (pathSegmentsFromPath path = segs)) as [<-|Hne].
    + rewrite !bool_decide_eq_true_2 by reflexivity.
      now destruct (handlerAt (pathSegmentsFromPath path) (get_routes r)).
    + rewrite !bool_decide_eq_false_2 by congruence. reflexivity.
Qed.

(** X12: a router that holds literal GET routes only is a map from paths
    to handlers in which the first registration of a path wins.  After any
    list of [router.get(path, h)] with literal segments on a new router, a
    GET request is answered by the handler of the first registration whose
    segments are the request's, called by exact match with no path part
    left, and by the not-found handler when no registration has these
    segments.  The handler gets a context without path variables, it is
    the only route handler called, no inspector is called, and when it
    returns its answer is the answer of the request. *)
Theorem X12_literal_routes_first_registration_answers
    (nf se : option (Handler Meta)) (mk : Request -> Sync Meta)
    (regs : list (string * Handler Meta)) (request : Request) (m : Meta) :
  forallb (fun reg => literalPath (fst reg)) regs = true ->
  method request = "GET" ->
  mk request = Ok m ->
  let router := getAll regs (newRouter nf se mk) in
  let found := firstRegistered (requestParts request) regs in
  let site := match found with Some _ => ExactMatch | None => NotFound end in
  let h := default (not_found_handler router) found in
  exists remaining,
    let c := mkContext (requestUrl request) None m (Some remaining) in
    (found <> None -> remaining = []) /\
    (exists rest,
       snd (requestHandler router request) = CalledHandler site h c :: rest /\
       forallb (fun ev => negb (isRouteHandlerCall ev) && negb (isInspectorCall ev)) rest
         = true) /\
    (forall v c1,
       runHandler h request c = (Done v, c1) ->
       requestHandler router request = (settle v, [CalledHandler site h c])).
Proof.
  intros Hlit Hm Hk router found site h.
  destruct (getAll_fields regs (newRouter nf se mk)) as (Hmk & Hnf & Hse).
  assert (Hroot : everyNode literalNode (get_routes router)).
  { apply getAll_literal; [assumption|]. constructor; [split; reflexivity|constructor]. }
  assert (Hat : handlerAt (requestParts request) (get_routes router) = found).
  { unfold router. rewrite (handlerAt_getAll _ _ Hlit).
    rewrite handlerAt_childless by reflexivity. reflexivity. }
  assert (Hk' : context_metadata_constructor router request = Ok m).
  { unfold router. rewrite Hmk. exact Hk. }
  destruct (walk_literal Meta router request (requestUrl request) None m
              (requestParts request) _ Hroot) as (remaining & Hrem & Hwalk).
  rewrite Hat in Hrem, Hwalk. fold site h in Hwalk.
  exists remaining. intros c. split; [assumption|].
  rewrite (requestHandler_GET Meta router request m Hm Hk').
  change (startContext request m)
    with (mkContext (requestUrl request) None m (Some (requestParts request))).
  rewrite Hwalk. apply (one_handler_outcome Meta).
Qed.

End LiteralRouter.

(** X12: an instance, with ["/users"] registered twice and ["/users/list"]
    in between: a GET of ["/users/list"] is answered by its handler. *)
Lemma X12_literal_routes_first_registration_answers_witness :
  requestHandler
    (getAll [("/users", Examples.respond "users");
             ("/users/list", Examples.respond "list");
             ("/users", Examples.respond "again")] Examples.freshRouter)
    (Examples.GET "/users/list") =
  (Fulfilled (mkResponse 200 "list"),
   [CalledHandler ExactMatch (Examples.respond "list")
      (mkContext (mkURL "/users/list") None tt (Some []))]).
Proof.
  pose proof (X12_literal_routes_first_registration_answers unit None None
                (fun _ => Ok tt)
                [("/users", Examples.respond "users");
                 ("/users/list", Examples.respond "list");
                 ("/users", Examples.respond "again")]
                (Examples.GET "/users/list") tt eq_refl eq_refl eq_refl) as H.
  cbv zeta in H. destruct H as (remaining & Hrem & _ & Hans).
  assert (Hnil : remaining = []) by (apply Hrem; vm_compute; discriminate).
  rewrite Hnil in Hans.
  exact (Hans (Now (mkResponse 200 "list")) _ eq_refl).
Defined.

(** ** server.ts: callbacks and shutdown *)

Section ServerFacts.

Import ServerModel.

Variable Meta : Type.
Implicit Types (s : Server Meta) (ts : list Trigger).

Lemma runCallbacks_calls (caught : Fault -> ServerLog) (callbacks : list Callback) :
  callbacksCalled (runCallbacks caught callbacks) = callbacks.
Proof.
  induction callbacks as [|cb rest IH]; [reflexivity|].
  cbn [runCallbacks callbacksCalled].
  destruct (runCallback cb) as [[[]|[[]|e]]|e]; cbn [callbacksCalled]; now rewrite IH.
Qed.

Lemma runCallbacks_faults (caught : Fault -> ServerLog) (callbacks : list Callback) :
  (caught = CaughtOnListen \/ caught = CaughtOnClosing) ->
  faultsLogged (runCallbacks caught callbacks) = omap callbackFault callbacks.
Proof.
  intros Hc. induction callbacks as [|cb rest IH]; [reflexivity|].
  cbn [runCallbacks faultsLogged omap list_omap]. unfold callbackFault at 1.
  destruct (runCallback cb) as [[[]|[[]|e]]|e]; cbn [faultsLogged];
    try exact IH; destruct Hc as [-> | ->]; cbn [faultsLogged]; now rewrite <- IH.
Qed.

Lemma callbacksCalled_app (evs evs' : list ServerEvent) :
  callbacksCalled (evs ++ evs') = callbacksCalled evs ++ callbacksCalled evs'.
Proof.
  induction evs as [|[| | |] evs IH]; cbn [app callbacksCalled]; now rewrite ?IH.
Qed.

Lemma faultsLogged_app (evs evs' : list ServerEvent) :
  faultsLogged (evs ++ evs') = faultsLogged evs ++ faultsLogged evs'.
Proof.
  induction evs as [|[[]| | |] evs IH]; cbn [app faultsLogged]; now rewrite ?IH.
Qed.

Lemma aborts_app (evs evs' : list ServerEvent) :
  aborts (evs ++ evs') = aborts evs ++ aborts evs'.
Proof.
  induction evs as [|[| | |] evs IH]; cbn [app aborts]; now rewrite ?IH.
Qed.

Lemma abortAndForget_spec (reason : string) s :
  abortController (fst (abortAndForget reason s)) = None /\
  served (fst (abortAndForget reason s)) = served s /\
  aborts (snd (abortAndForget reason s)) =
    match abortController s with
    | Some a => [(a, reason)]
    | None => []
    end.
Proof.
  unfold abortAndForget, abortController. cbn [fst snd served forgotten].
  destruct (served s); [repeat split|]. destruct (forgotten s); repeat split.
Qed.

(** The listeners of a signal: the first one aborts the controller, if
    there is one, and the others find it forgotten. *)
Lemma runListeners_spec (n : nat) (signal : Signal) :
  forall s,
    served (fst (runListeners n signal s)) = served s /\
    (abortController s = None \/ 0 < n ->
       abortController (fst (runListeners n signal s)) = None) /\
    aborts (snd (runListeners n signal s)) =
      match n, abortController s with
      | S _, Some a => [(a, ("Received " ++ signalName signal)%string)]
      | _, _ => []
      end.
Proof.
  induction n as [|n IH]; intros s.
  - cbn [runListeners fst snd aborts]. split; [reflexivity|].
    split; [intros [H|H]; [assumption|lia]|reflexivity].
  - cbn [runListeners]. unfold signalListener.
    destruct (abortAndForget_spec ("Received " ++ signalName signal)%string s) as (Hc & Hs & Ha).
    destruct (abortAndForget _ s) as [s1 evs1]. cbn [fst snd] in *.
    destruct (IH s1) as (IHs & IHc & IHa).
    destruct (runListeners n signal s1) as [s2 evs2]. cbn [fst snd] in *.
    split; [congruence|]. split; [intros _; apply IHc; now left|].
    cbn [app aborts]. rewrite aborts_app, Ha, IHa, Hc.
    destruct n, (abortController s); reflexivity.
Qed.

Lemma trigger_spec (t : Trigger) s :
  (abortController s = None \/ 0 < served s ->
     abortController (fst (trigger t s)) = None) /\
  controllers (fst (trigger t s)) = controllers s /\
  aborts (snd (trigger t s)) =
    match abortController s with
    | Some a => [(a, abortReason t)]
    | None => []
    end.
Proof.
  destruct t as [reason|signal]; cbn [trigger abortReason].
  - unfold close.
    destruct (abortAndForget_spec ("Closing due to: " ++ shown reason)%string s) as (Hc & Hs & Ha).
    destruct (abortAndForget _ s) as [s1 evs1]. cbn [fst snd aborts] in *.
    split; [intros _; exact Hc|]. split; [exact Hs|exact Ha].
  - destruct (runListeners_spec (served s) signal s) as (Hs & Hc & Ha).
    split; [exact Hc|]. split; [exact Hs|]. rewrite Ha.
    unfold abortController. destruct (served s); reflexivity.
Qed.

(** Whatever the state, the controller is forgotten after a trigger. *)
Lemma trigger_forgets (t : Trigger) s : abortController (fst (trigger t s)) = None.
Proof.
  destruct (trigger_spec t s) as (Hc & _ & _). apply Hc.
  unfold abortController. destruct (served s); [now left|right; lia].
Qed.

(** Once the controller is forgotten, nothing is aborted any more. *)
Lemma triggerAll_idle ts :
  forall s,
    abortController s = None ->
    aborts (snd (triggerAll ts s)) = [] /\
    abortController (fst (triggerAll ts s)) = None.
Proof.
  induction ts as [|t ts IH]; intros s Hs; [split; [reflexivity|exact Hs]|].
  cbn [triggerAll].
  destruct (trigger_spec t s) as (_ & _ & Ha). rewrite Hs in Ha.
  pose proof (trigger_forgets t s) as Hc.
  destruct (trigger t s) as [s1 evs1]. cbn [fst snd] in *.
  destruct (IH s1 Hc) as [IHa IHc].
  destruct (triggerAll ts s1) as [s2 evs2]. cbn [fst snd] in *.
  rewrite aborts_app, Ha, IHa. split; [reflexivity|assumption].
Qed.

(** X13: the callbacks of a server all run, in the order in which they were
    added, whatever the others do: a callback that throws, or whose promise
    rejects, has its fault logged and the loop goes on.  This holds for
    the listen callbacks in [onListen] and for the finished callbacks once
    the server has finished, where the faults logged are exactly those of
    the faulting callbacks, in order; and the shutdown always ends with
    "Server closed" and [Deno.exit(0)]. *)
Theorem X13_server_callbacks_all_run_in_order
    s (hostname : string) (port : nat) :
  callbacksCalled (onListen hostname port s) = server_listen_callbacks s /\
  faultsLogged (onListen hostname port s) = omap callbackFault (server_listen_callbacks s) /\
  callbacksCalled (onFinished s) = server_finished_callbacks s /\
  faultsLogged (onFinished s) = omap callbackFault (server_finished_callbacks s) /\
  exists evs, onFinished s = evs ++ [ServerLogged ServerClosed; Exited 0].
Proof.
  unfold onListen, onFinished. cbn [callbacksCalled faultsLogged].
  rewrite callbacksCalled_app, faultsLogged_app, !runCallbacks_calls.
  rewrite !runCallbacks_faults by auto.
  cbn [callbacksCalled faultsLogged]. rewrite !app_nil_r.
  repeat split.
  exists (ServerLogged ServerClosing ::
          runCallbacks CaughtOnClosing (server_finished_callbacks s)).
  reflexivity.
Qed.

(** X14: a serving server is aborted once.  After [serve], whatever calls
    of [close] and signals follow, the controller created by that [serve]
    is aborted exactly once, by the first of them and with its reason; the
    later ones only log.  After a first [close] or signal nothing is
    aborted until the next [serve], and on a server that never served
    nothing is aborted at all. *)
Theorem X14_a_serving_server_is_aborted_once
    s (r : Router Meta) (t : Trigger) ts :
  aborts (snd (triggerAll (t :: ts) (serve s))) = [(controllers s, abortReason t)] /\
  abortController (fst (triggerAll (t :: ts) (serve s))) = None /\
  aborts (snd (triggerAll ts (fst (trigger t s)))) = [] /\
  aborts (snd (triggerAll ts (newServer r))) = [].
Proof.
  split; [|split; [|split]].
  - cbn [triggerAll].
    destruct (trigger_spec t (serve s)) as (_ & _ & Ha).
    pose proof (trigger_forgets t (serve s)) as Hc.
    change (abortController (serve s)) with (Some (controllers s)) in Ha.
    destruct (trigger t (serve s)) as [s1 evs1]. cbn [fst snd] in *.
    destruct (triggerAll_idle ts s1 Hc) as [IHa _].
    destruct (triggerAll ts s1) as [s2 evs2]. cbn [fst snd] in *.
    now rewrite aborts_app, Ha, IHa.
  - cbn [triggerAll].
    pose proof (trigger_forgets t (serve s)) as Hc.
    destruct (trigger t (serve s)) as [s1 evs1]. cbn [fst snd] in *.
    destruct (triggerAll_idle ts s1 Hc) as [_ IHc].
    destruct (triggerAll ts s1) as [s2 evs2]. exact IHc.
  - apply (triggerAll_idle ts _ (trigger_forgets t s)).
  - apply (triggerAll_idle ts (newServer r) eq_refl).
Qed.

End ServerFacts.

(** ** The path parts of a context *)

Section PathParts.

Variable Meta : Type.

(** X15: [getPathParts] splits the pathname once and keeps the array.  On
    a new context it returns the "/"-free pieces of the pathname (of "/"
    when the pathname is empty), so that joining them with "/" gives the
    pathname back; the array is stored in the context, and a second call
    returns the same array and leaves the context as it is. *)
Theorem X15_getPathParts_splits_the_pathname_once (request : Request) (m : Meta) :
  let p := pathname (requestUrl request) in
  let out := getPathParts (newContext request m) in
  joinSlash (fst out) = (if truthy p then p else "/") /\
  forallb slashFree (fst out) = true /\
  fst out <> [] /\
  pathPartsArray (snd out) = fst out /\
  getPathParts (snd out) = out.
Proof.
  cbv zeta. unfold getPathParts, newContext. cbn.
  repeat split.
  - apply joinSlash_split.
  - apply split_slashFree.
  - apply split_nonempty.
Qed.

End PathParts.

(** ** Two names for one variable position *)

Section RenamedVariable.

Variable Meta : Type.

(** X16: when two routes put a variable at the same position under two
    names, only the first name is ever bound.  With [/:a/x] registered
    before [/:b/y] on a new router (literal [x] and [y], different), the
    second registration logs that the variable is inconsistent and reuses
    the wildcard child named [a]; a GET of [/v/y] reaches the second
    handler by exact match, with [a] bound to [v] in its context and no
    binding for [b], the name its own route uses. *)
Theorem X16_second_name_of_a_variable_position_is_never_bound
    (nf se : option (Handler Meta)) (mk : Request -> Sync Meta)
    (h1 h2 : Handler Meta) (p1 p2 a b x y v : string) (request : Request) (m : Meta) :
  a <> "" -> b <> "" -> a <> "*" -> a <> b ->
  isLiteralSegment x = true -> isLiteralSegment y = true -> x <> y ->
  pathSegmentsFromPath p1 = [String colon a; x] ->
  pathSegmentsFromPath p2 = [String colon b; y] ->
  requestParts request = [v; y] ->
  method request = "GET" ->
  mk request = Ok m ->
  let r1 := fst (get (OnePath p1) h1 (newRouter nf se mk)) in
  let r2 := get (OnePath p2) h2 r1 in
  snd r2 = [ErrVariableInconsistent a b] /\
  exists c rest,
    snd (requestHandler (fst r2) request) = CalledHandler ExactMatch h2 c :: rest /\
    pathVariable_of c a = Some v /\
    pathVariable_of c b = None.
Proof.
  intros Ha Hb Hastar Hab Hx Hy Hxy Hp1 Hp2 Hparts Hmethod Hmk r1 r2.
  destruct (isLiteralSegment_spec x Hx) as [Hxs Hxv].
  destruct (isLiteralSegment_spec y Hy) as [Hys Hyv].
  assert (Hva : isVariableSegment (String colon a) = true) by (destruct a; [congruence|reflexivity]).
  assert (Hvb : isVariableSegment (String colon b) = true) by (destruct b; [congruence|reflexivity]).
  assert (Hr1 : r1 = withGetRoutes (newRouter nf se mk)
                       (route [String colon a; x] h1 newRouteNode)).
  { subst r1. rewrite get_first_route; rewrite Hp1; [reflexivity|].
    cbn [splatOnlyLast length Nat.eqb]. rewrite Hxs. reflexivity. }
  assert (Hbs : (String colon b =? "*") = false) by (now apply isVariableSegment_not_star).
  assert (Hr2 : r2 =
            (withGetRoutes (newRouter nf se mk)
               (mkRouteNode "" false "" []
                  [mkRouteNode "" true a []
                     [mkRouteNode x false "" [] [] (Some h1);
                      mkRouteNode y false "" [] [] (Some h2)] None] None),
             [ErrVariableInconsistent a b])).
  { subst r2. rewrite Hr1. unfold get, addPathHandlerToNode.
    cbn [pathList addPaths withGetRoutes get_routes]. rewrite Hp2.
    unfold addPathHandler. rewrite addPathPropertyHelper_cons, Hbs, Hvb.
    cbn [route addChildNode childNodes newRouteNode app length Nat.ltb Nat.leb find].
    assert (Has : (String colon a =? "*") = false) by (now apply isVariableSegment_not_star).
    assert (Hta : truthy a = true) by (destruct a; [congruence|reflexivity]).
    unfold freshChild. rewrite ?Has, ?Hva, ?Hxs, ?Hxv, ?Hys, ?Hyv.
    unfold setIsWildcard. cbn [substring1 isWildcard newRouteNode addChildNode pathVariable
      pathSegment inspectors childNodes handler setHandler setPathSegment fst].
    rewrite Hta. rewrite addPathPropertyHelper_cons, Hys, Hyv.
    cbn [childNodes find hasSegment pathSegment app addChildNode inspectors handler
      isWildcard pathVariable].
    unfold hasSegment at 1. cbn [pathSegment].
    assert (Hxy' : (x =? y) = false) by (now apply String.eqb_neq).
    assert (Hab' : (a =? b) = false) by (now apply String.eqb_neq).
    rewrite Hxy', Hab'.
    cbn [addPathPropertyHelper setHandler handler setPathSegment newRouteNode fst snd
      replaceFirst isWildcard addChildNode setChildNodes pathSegment pathVariable inspectors
      childNodes app withGetRoutes newRouter get_routes head_routes post_routes
      context_metadata_constructor not_found_handler server_error_handler].
    reflexivity. }
  rewrite Hr2. cbn [fst snd]. split; [reflexivity|].
  set (router := withGetRoutes (newRouter nf se mk) _).
  set (c := advanceAll [String colon a; y] [v; y] (startContext request m)).
  destruct (request_events_head Meta router request m ExactMatch h2 c Hmethod Hmk)
    as (rest & Hrest).
  { subst router c. cbn [withGetRoutes get_routes].
    assert (Hyx : (x =? y) = false) by (now apply String.eqb_neq).
    assert (Hastar' : (a =? "*") = false) by (now apply String.eqb_neq).
    set (X := mkRouteNode x false "" [] [] (Some h1)).
    set (Y := mkRouteNode y false "" [] [] (Some h2)).
    set (W := mkRouteNode "" true a [] [X; Y] None).
    set (root := mkRouteNode "" false "" [] [W] None).
    set (router := withGetRoutes (newRouter nf se mk) root).
    set (c0 := startContext request m).
    assert (Hc0 : pathPartsArray c0 = [v; y])
      by (subst c0; now rewrite pathPartsArray_startContext).
    rewrite walk_eq, iteration_no_inspectors by reflexivity.
    rewrite Hc0. cbn [root childNodes find matchesSegment W isWildcard orb].
    replace (captureSplat _ None) with (@None (RouteNode Meta))
      by (unfold captureSplat, isSplat;
          cbn [root childNodes find W isWildcard pathVariable andb]; now rewrite Hastar').
    unfold captureVariable.
    change (isWildcard W) with true. change (pathVariable W) with a.
    rewrite Hastar'. cbn [negb andb].
    unfold bind at 1. cbn [modifyContext].
    replace (addPathVariable a v (shiftPathParts c0)) with (advance (String colon a) v c0)
      by (unfold advance; cbn [substring1]; now rewrite Hva, Hastar').
    rewrite exec_eta. set (c1 := advance (String colon a) v c0).
    assert (Hc1 : pathPartsArray c1 = [y]) by (now apply (pathPartsArray_advance Meta _ _ _ _ Hc0)).
    rewrite walk_eq, iteration_no_inspectors by reflexivity.
    rewrite Hc1.
    change (find (matchesSegment y) (childNodes W))
      with (if (x =? y) then Some X else if (y =? y) then Some Y else None).
    rewrite Hyx, String.eqb_refl.
    unfold captureVariable. change (isWildcard Y) with false. cbn [andb].
    unfold bind at 1. cbn [ret]. rewrite exec_eta.
    rewrite walk_eq, iteration_no_inspectors by reflexivity.
    assert (Hc2 : pathPartsArray (shiftPathParts c1) = [])
      by (change (tail (pathPartsArray c1) = []); now rewrite Hc1).
    rewrite Hc2. unfold atExactMatch. cbn [Y handler].
    cbn [advanceAll]. fold c1.
    replace (advance y y c1) with (shiftPathParts c1)
      by (unfold advance; now rewrite Hyv).
    reflexivity. }
  exists c, rest. split; [exact Hrest|].
  subst c. rewrite !pathVariable_of_advanceAll. cbn [lastBinding].
  rewrite Hyv, Hva. cbn [andb substring1].
  assert (Hastar' : (a =? "*") = false) by (now apply String.eqb_neq).
  assert (Hab' : (a =? b) = false) by (now apply String.eqb_neq).
  rewrite String.eqb_refl, Hastar', Hab'. cbn [andb negb]. split; reflexivity.
Qed.

End RenamedVariable.

(** X16: an instance, [/:id/profile] then [/:user/settings], and
    [GET /42/settings]. *)
Lemma X16_second_name_of_a_variable_position_is_never_bound_witness :
  snd (get (OnePath "/:user/settings") (Examples.respond "settings")
         (fst (get (OnePath "/:id/profile") (Examples.respond "profile")
                 Examples.freshRouter))) = [ErrVariableInconsistent "id" "user"] /\
  exists c rest,
    snd (requestHandler
           (fst (get (OnePath "/:user/settings") (Examples.respond "settings")
                   (fst (get (OnePath "/:id/profile") (Examples.respond "profile")
                           Examples.freshRouter))))
           (Examples.GET "/42/settings")) =
      CalledHandler ExactMatch (Examples.respond "settings") c :: rest /\
    pathVariable_of c "id" = Some "42" /\
    pathVariable_of c "user" = None.
Proof.
  apply (X16_second_name_of_a_variable_position_is_never_bound unit None None
           (fun _ => Ok tt) (Examples.respond "profile") (Examples.respond "settings")
           "/:id/profile" "/:user/settings" "id" "user" "profile" "settings" "42"
           (Examples.GET "/42/settings") tt);
    first [reflexivity | discriminate].
Defined.

(** ** The answer of a handler and the response inspectors *)

Section AnswerThroughQueue.

Variable Meta : Type.
Variable router : Router Meta.
Variable request : Request.

Implicit Types (c : Context Meta) (node : RouteNode Meta).
Implicit Types (queue : list (ResponseInspector Meta)).

(** Inspectors without request inspector, at the node where the path ends:
    each one queues its response inspector, whatever [observeChildPaths]
    says. *)
Lemma processInspectors_audit_only (insps : list (Inspector Meta)) :
  forall queue c,
    Forall (fun i => requestInspector i = None) insps ->
    pathPartsArray c = [] ->
    processInspectors router request insps queue c =
    (Next (queue ++ omap responseInspector insps), c, []).
Proof.
  induction insps as [|i rest IH]; intros queue c Hall Hp.
  - cbn. now rewrite app_nil_r.
  - apply Forall_cons in Hall as [Hi Hrest].
    cbn [processInspectors]. unfold bind.
    rewrite (processInspector_no_request Meta router request queue i c Hi).
    assert (Hs : inScope c i = true) by (unfold inScope; now rewrite Hp).
    rewrite Hs, IH by assumption.
    cbn [omap list_omap]. destruct (responseInspector i); cbn [app].
    + now rewrite <- app_assoc.
    + reflexivity.
Qed.

(** X17: the answer of a handler goes through the response inspectors in
    the order in which they were collected.  At the node where the path
    ends, when its inspectors have no request inspector, the handler is
    called, and the response it returns is then given to the response
    inspectors collected on the way followed by those of the node itself,
    in registration order and whatever their [observeChildPaths]; when
    all of them complete, that response is the answer. *)
Theorem X17_handler_answer_goes_through_the_response_inspectors_in_order
    node queue (closest : option (RouteNode Meta)) c (h : Handler Meta)
    (v : MaybePromise Response) c1 (r : Response) :
  pathPartsArray c = [] ->
  Forall (fun i => requestInspector i = None) (inspectors node) ->
  handler node = Some h ->
  runHandler h request c = (Done v, c1) ->
  fulfilledWith v r ->
  Forall (completes request r) (queue ++ omap responseInspector (inspectors node)) ->
  exists c2 evs,
    walk router request node queue closest c =
      (Returns (Later (Fulfilled r)), c2, CalledHandler ExactMatch h c :: evs) /\
    forallb isResponseInspectorCall evs = true /\
    responseInspectorCalls evs =
      map (fun ri => (ri, r)) (queue ++ omap responseInspector (inspectors node)).
Proof.
  intros Hp Hall Hh Hrun Hv Hq.
  rewrite walk_eq. unfold iteration. unfold bind at 1.
  rewrite (processInspectors_audit_only _ queue c Hall Hp).
  unfold bind at 1. cbn [readContext]. rewrite Hp.
  unfold atExactMatch. rewrite Hh.
  unfold bind, callHandler, call. rewrite Hrun.
  unfold returnProcessed.
  set (q := queue ++ omap responseInspector (inspectors node)) in *.
  assert (Hnow : processResponseInspectors q request v (retainArray c c1) =
                 processResponseInspectors q request (Now r) (retainArray c c1))
    by (destruct Hv as [-> | ->]; reflexivity).
  rewrite Hnow.
  destruct (processResponseInspectors q request (Now r) (retainArray c c1))
    as [[s c2] evs] eqn:E.
  destruct (processResponseInspectors_now Meta request q r _ _ _ _ E) as (H1 & _ & H3).
  destruct (H3 Hq) as [-> H4].
  exists c2, evs. cbn [app]. repeat split; assumption.
Qed.

End AnswerThroughQueue.

(** X17: an instance, a node with two audit-only inspectors, the second
    one with [observeChildPaths] off, reached with one response inspector
    already collected. *)
Lemma X17_handler_answer_goes_through_the_response_inspectors_in_order_witness :
  exists c2 evs,
    walk Examples.freshRouter (Examples.GET "/home")
      (mkRouteNode "home" false ""
         [newInspector None (Some (Examples.observing "first")) None;
          newInspector None (Some (Examples.observing "second")) (Some false)]
         [] (Some (Examples.respond "home")))
      [Examples.observing "outer"] None (Examples.contextWith []) =
      (Returns (Later (Fulfilled (mkResponse 200 "home"))), c2,
       CalledHandler ExactMatch (Examples.respond "home") (Examples.contextWith []) :: evs) /\
    forallb isResponseInspectorCall evs = true /\
    responseInspectorCalls evs =
      [(Examples.observing "outer", mkResponse 200 "home");
       (Examples.observing "first", mkResponse 200 "home");
       (Examples.observing "second", mkResponse 200 "home")].
Proof.
  apply (X17_handler_answer_goes_through_the_response_inspectors_in_order unit
           Examples.freshRouter (Examples.GET "/home")
           (mkRouteNode "home" false ""
              [newInspector None (Some (Examples.observing "first")) None;
               newInspector None (Some (Examples.observing "second")) (Some false)]
              [] (Some (Examples.respond "home")))
           [Examples.observing "outer"] None (Examples.contextWith [])
           (Examples.respond "home") (Now (mkResponse 200 "home"))
           (Examples.contextWith []) (mkResponse 200 "home")).
  - reflexivity.
  - repeat (apply List.Forall_cons; [reflexivity|]). apply List.Forall_nil.
  - reflexivity.
  - reflexivity.
  - left. reflexivity.
  - repeat (apply List.Forall_cons;
            [intros c; exists (Now tt), c; split; [reflexivity|discriminate]|]).
    apply List.Forall_nil.
Defined.

(** ** Falling off the trie *)

Section NoChildMatches.

Variable Meta : Type.
Variable router : Router Meta.
Variable request : Request.

Implicit Types (c : Context Meta) (node : RouteNode Meta).
Implicit Types (queue : list (ResponseInspector Meta)).

(** A handler that returns a response, followed by a queue of response
    inspectors that complete. *)
Lemma handler_then_queue_completes site (h : Handler Meta) queue c
    (v : MaybePromise Response) c1 (r : Response) :
  runHandler h request c = (Done v, c1) ->
  fulfilledWith v r ->
  Forall (completes request r) queue ->
  exists c2 evs,
    (v <- callHandler site h request ;;
     @returnProcessed Meta Empty_set queue request v) c =
      (Returns (Later (Fulfilled r)), c2, CalledHandler site h c :: evs) /\
    forallb isResponseInspectorCall evs = true /\
    responseInspectorCalls evs = map (fun ri => (ri, r)) queue.
Proof.
  intros Hrun Hv Hq.
  unfold bind, callHandler, call. rewrite Hrun. unfold returnProcessed.
  assert (Hnow : processResponseInspectors queue request v (retainArray c c1) =
                 processResponseInspectors queue request (Now r) (retainArray c c1))
    by (destruct Hv as [-> | ->]; reflexivity).
  rewrite Hnow.
  destruct (processResponseInspectors queue request (Now r) (retainArray c c1))
    as [[s c2] evs] eqn:E.
  destruct (processResponseInspectors_now Meta request queue r _ _ _ _ E) as (H1 & _ & H3).
  destruct (H3 Hq) as [-> H4].
  exists c2, evs. cbn [app]. repeat split; assumption.
Qed.

(** X18: a not-found answer goes through the response inspectors as well.
    When the walk is at a node with a path part left that no child
    matches, and no splat handler was seen, the not-found handler of the
    router is called with the part already shifted off, and its response is
    given to the response inspectors collected on the way followed by those
    of the node's inspectors that observe child paths (the node's
    inspectors having no request inspector), in order. *)
Theorem X18_not_found_answer_goes_through_the_response_inspectors
    node queue (closest : option (RouteNode Meta)) c (seg : string) (rest : list string)
    (v : MaybePromise Response) c1 (r : Response) :
  pathPartsArray c = seg :: rest ->
  Forall (fun i => requestInspector i = None) (inspectors node) ->
  find (matchesSegment seg) (childNodes node) = None ->
  captureSplat node closest = None ->
  runHandler (not_found_handler router) request (shiftPathParts c) = (Done v, c1) ->
  fulfilledWith v r ->
  let collected :=
    queue ++ omap (fun i => if observeChildPaths i then responseInspector i else None)
               (inspectors node) in
  Forall (completes request r) collected ->
  exists c2 evs,
    walk router request node queue closest c =
      (Returns (Later (Fulfilled r)), c2,
       CalledHandler NotFound (not_found_handler router) (shiftPathParts c) :: evs) /\
    forallb isResponseInspectorCall evs = true /\
    responseInspectorCalls evs = map (fun ri => (ri, r)) collected.
Proof.
  intros Hp Hall Hfind Hsplat Hrun Hv collected Hq.
  rewrite walk_eq. unfold iteration. unfold bind at 1.
  rewrite (processInspectors_audit_scoped Meta router request _ queue c Hall).
  assert (Hscope : forall i : Inspector Meta, inScope c i = observeChildPaths i)
    by (intros i; unfold inScope; now rewrite Hp).
  assert (Heq : forall l : list (Inspector Meta),
            omap (fun i => if inScope c i then responseInspector i else None) l =
            omap (fun i => if observeChildPaths i then responseInspector i else None) l).
  { induction l as [|i l IH]; [reflexivity|]. cbn [omap list_omap].
    fold (omap (fun i => if inScope c i then responseInspector i else None) l).
    fold (omap (fun i => if observeChildPaths i then responseInspector i else None) l).
    now rewrite Hscope, IH. }
  rewrite Heq.
  fold collected.
  unfold bind at 1. cbn [readContext]. rewrite Hp.
  unfold bind at 1. cbn [modifyContext]. rewrite Hfind, Hsplat.
  unfold afterLoop.
  destruct (handler_then_queue_completes NotFound (not_found_handler router) collected
              (shiftPathParts c) v c1 r Hrun Hv Hq) as (c2 & evs & E & H1 & H2).
  rewrite E. exists c2, evs. cbn [app]. repeat split; assumption.
Qed.

End NoChildMatches.

(** X18: an instance, a node with a child [users] and two audit-only
    inspectors, the second one not observing child paths, and the part
    [other] left. *)
Lemma X18_not_found_answer_goes_through_the_response_inspectors_witness :
  exists c2 evs,
    walk Examples.freshRouter (Examples.GET "/other")
      (mkRouteNode "" false ""
         [newInspector None (Some (Examples.observing "first")) None;
          newInspector None (Some (Examples.observing "second")) (Some false)]
         [mkRouteNode "users" false "" [] [] (Some (Examples.respond "users"))] None)
      [] None (Examples.contextWith ["other"]) =
      (Returns (Later (Fulfilled
                         (mkResponse 404 "<!DOCTYPE html><html><body>Not Found</body></html>"))),
       c2,
       CalledHandler NotFound default_not_found_handler (Examples.contextWith []) :: evs) /\
    forallb isResponseInspectorCall evs = true /\
    responseInspectorCalls evs =
      [(Examples.observing "first",
        mkResponse 404 "<!DOCTYPE html><html><body>Not Found</body></html>")].
Proof.
  apply (X18_not_found_answer_goes_through_the_response_inspectors unit
           Examples.freshRouter (Examples.GET "/other")
           (mkRouteNode "" false ""
              [newInspector None (Some (Examples.observing "first")) None;
               newInspector None (Some (Examples.observing "second")) (Some false)]
              [mkRouteNode "users" false "" [] [] (Some (Examples.respond "users"))] None)
           [] None (Examples.contextWith ["other"]) "other" []
           (Now (mkResponse 404 "<!DOCTYPE html><html><body>Not Found</body></html>"))
           (Examples.contextWith [])
           (mkResponse 404 "<!DOCTYPE html><html><body>Not Found</body></html>")).
  - reflexivity.
  - repeat (apply List.Forall_cons; [reflexivity|]). apply List.Forall_nil.
  - reflexivity.
  - reflexivity.
  - reflexivity.
  - left. reflexivity.
  - repeat (apply List.Forall_cons;
            [intros c; exists (Now tt), c; split; [reflexivity|discriminate]|]).
    apply List.Forall_nil.
Defined.

(** ** Arrays of paths *)

Section ManyPathsFacts.

Variable Meta : Type.

Lemma addPaths_app (add : list string -> RouteNode Meta -> RouteNode Meta * list LogMsg)
    (ps qs : list string) :
  forall n,
    addPaths add (ps ++ qs) n =
    (fst (addPaths add qs (fst (addPaths add ps n))),
     snd (addPaths add ps n) ++ snd (addPaths add qs (fst (addPaths add ps n)))).
Proof.
  induction ps as [|p ps IH]; intros n.
  - cbn. now destruct (addPaths add qs n).
  - cbn [app addPaths]. destruct (add (pathSegmentsFromPath p) n) as [n1 log1].
    rewrite IH. destruct (addPaths add ps n1) as [n2 log2]. cbn [fst snd].
    now rewrite app_assoc.
Qed.

(** X19: registering an array of paths is registering each path in turn.
    [router.get([...ps, ...qs], h)] leaves the router, and writes the log,
    that [router.get(ps, h)] followed by [router.get(qs, h)] leave and
    write; an array of one path is that path, and an empty array changes
    nothing. *)
Theorem X19_an_array_of_paths_is_registered_path_by_path
    (h : Handler Meta) (ps qs : list string) (p : string) (r : Router Meta) :
  get (ManyPaths (ps ++ qs)) h r =
    (fst (get (ManyPaths qs) h (fst (get (ManyPaths ps) h r))),
     snd (get (ManyPaths ps) h r) ++ snd (get (ManyPaths qs) h (fst (get (ManyPaths ps) h r)))) /\
  get (ManyPaths [p]) h r = get (OnePath p) h r /\
  get (ManyPaths []) h r = (r, []).
Proof.
  split; [|split].
  - unfold get, addPathHandlerToNode. cbn [pathList].
    rewrite addPaths_app.
    destruct (addPaths _ ps (get_routes r)) as [n1 log1]. cbn [fst snd withGetRoutes get_routes].
    destruct (addPaths _ qs n1) as [n2 log2]. reflexivity.
  - reflexivity.
  - unfold get, addPathHandlerToNode. cbn. now destruct r.
Qed.

End ManyPathsFacts.

(** * Claims about registration *)

Section RegistrationClaimsFacts.

Variable Meta : Type.
Implicit Types (this child : RouteNode Meta) (sc : SetClosure Meta).

Lemma replaceFirst_length (p : RouteNode Meta -> bool) child' (cs : list (RouteNode Meta)) :
  length (replaceFirst p child' cs) = length cs.
Proof.
  induction cs as [|x cs IH]; [reflexivity|]. simpl.
  destruct (p x); simpl; [reflexivity|now rewrite IH].
Qed.

Lemma noSplat_cons seg rest :
  noSplat (seg :: rest) = true -> String.eqb seg "*" = false /\ noSplat rest = true.
Proof.
  unfold noSplat. cbn [forallb]. intros H. apply andb_prop in H as [H1 H2].
  now apply negb_true_iff in H1.
Qed.

Lemma abandon_keepsShape (k : nat) : keepsShape (@abandon Meta k).
Proof. intros n. split; reflexivity. Qed.

(** A [*] followed by more segments, after segments without [*]: the
    trie and the log are those of registering the segments before the [*]
    with the action that leaves its node alone and logs the error. *)
Lemma segments_after_splat_prefix sc (next : string) (rest : list string) :
  forall (pre : list string) this,
    noSplat pre = true ->
    addPathPropertyHelper (pre ++ "*" :: next :: rest) sc this =
    addPathPropertyHelper pre (abandon (S (length rest))) this.
Proof.
  induction pre as [|seg pre IH]; intros this Hpre; [reflexivity|].
  apply noSplat_cons in Hpre as [Hseg Hpre].
  rewrite <- app_comm_cons, !addPathPropertyHelper_cons, Hseg.
  destruct (isVariableSegment seg).
  - destruct (find isWildcard (childNodes this)) as [child|]; now rewrite IH.
  - destruct (find (hasSegment seg) (childNodes this)) as [child|]; now rewrite IH.
Qed.

(** After a path without [*] is registered, the node it leads to exists. *)
Lemma registeredNode_reached sc :
  keepsShape sc ->
  forall (segs : list string) this,
    noSplat segs = true ->
    exists node, registeredNode segs (fst (addPathPropertyHelper segs sc this)) = Some node.
Proof.
  intros Hk. induction segs as [|seg rest IH]; intros this Hsegs; [simpl; eauto|].
  apply noSplat_cons in Hsegs as [Hseg Hrest].
  rewrite addPathPropertyHelper_cons, Hseg. cbn [registeredNode]. rewrite Hseg.
  destruct (isVariableSegment seg).
  - destruct (find isWildcard (childNodes this)) as [child|] eqn:Hf.
    + pose proof (addPathPropertyHelper_labels Meta rest sc child Hk) as Hl.
      destruct (IH child Hrest) as (node & Hnode).
      destruct (addPathPropertyHelper rest sc child) as [child' log]. cbn [fst] in *.
      assert (Hw : isWildcard child' = true).
      { rewrite (labels_isWildcard Meta _ _ Hl). now apply find_some in Hf. }
      cbn [setChildNodes childNodes].
      rewrite (find_replaceFirst Meta _ _ _ _ Hf Hw). eauto.
    + pose proof (addPathPropertyHelper_labels Meta rest sc
                    (setIsWildcard true (substring1 seg) newRouteNode) Hk) as Hl.
      destruct (IH (setIsWildcard true (substring1 seg) newRouteNode) Hrest) as (node & Hnode).
      destruct (addPathPropertyHelper rest sc _) as [child' log]. cbn [fst] in *.
      assert (Hw : isWildcard child' = true) by now rewrite (labels_isWildcard Meta _ _ Hl).
      cbn [addChildNode childNodes].
      rewrite (find_app_new Meta _ _ _ Hf Hw). eauto.
  - destruct (find (hasSegment seg) (childNodes this)) as [child|] eqn:Hf.
    + pose proof (addPathPropertyHelper_labels Meta rest sc child Hk) as Hl.
      destruct (IH child Hrest) as (node & Hnode).
      destruct (addPathPropertyHelper rest sc child) as [child' log]. cbn [fst] in *.
      assert (Hw : hasSegment seg child' = true).
      { rewrite (labels_hasSegment Meta seg _ _ Hl). now apply find_some in Hf. }
      cbn [setChildNodes childNodes].
      rewrite (find_replaceFirst Meta _ _ _ _ Hf Hw). eauto.
    + pose proof (addPathPropertyHelper_labels Meta rest sc
                    (setPathSegment seg newRouteNode) Hk) as Hl.
      destruct (IH (setPathSegment seg newRouteNode) Hrest) as (node & Hnode).
      destruct (addPathPropertyHelper rest sc _) as [child' log]. cbn [fst] in *.
      assert (Hw : hasSegment seg child' = true).
      { rewrite (labels_hasSegment Meta seg _ _ Hl). apply String.eqb_refl. }
      cbn [addChildNode childNodes].
      rewrite (find_app_new Meta _ _ _ Hf Hw). eauto.
Qed.

(** C6 (as amended): a [*] that is followed by further segments is a
    non-fatal configuration error that abandons the registration.  At the
    node where the [*] is met the error is logged and the node is left as it
    is: no splat child is created.  For the whole path, whatever segments
    come before the [*], the registration action is applied nowhere:
    installing a handler or appending an inspector gives the trie and the
    log of the action that does nothing, and the log ends with the error.
    The nodes of the segments before the first [*] are created or reused
    as by a registration of these segments alone: the trie and the log are
    those of registering them with the action that leaves its node alone
    and logs the error, and the node they lead to exists afterwards. *)
Theorem C6_segments_after_splat_abandon_registration
    (pre : list string) (next : string) (rest : list string)
    (h : Handler Meta) (i : Inspector Meta) (sc : SetClosure Meta)
    (this : RouteNode Meta) :
  addPathPropertyHelper ("*" :: next :: rest) sc this =
    (this, [ErrWildcardMoreSegments (S (length rest))]) /\
  addPathHandler (pre ++ "*" :: next :: rest) h this =
    addPathPropertyHelper (pre ++ "*" :: next :: rest) noAction this /\
  addPathInspector (pre ++ "*" :: next :: rest) i this =
    addPathPropertyHelper (pre ++ "*" :: next :: rest) noAction this /\
  (exists log k,
     snd (addPathPropertyHelper (pre ++ "*" :: next :: rest) noAction this) =
       log ++ [ErrWildcardMoreSegments k] /\ 1 <= k) /\
  (noSplat pre = true ->
     addPathPropertyHelper (pre ++ "*" :: next :: rest) sc this =
       addPathPropertyHelper pre (abandon (S (length rest))) this /\
     exists node,
       registeredNode pre
         (fst (addPathPropertyHelper (pre ++ "*" :: next :: rest) sc this)) = Some node).
Proof.
  split; [reflexivity|]. split; [|split; [|split]].
  - apply segments_after_splat.
  - apply segments_after_splat.
  - apply (segments_after_splat Meta noAction).
  - intros Hpre. rewrite (segments_after_splat_prefix sc next rest pre this Hpre).
    split; [reflexivity|].
    apply registeredNode_reached; [apply abandon_keepsShape|assumption].
Qed.

(** C3 (as amended): after any sequence of registrations on an empty trie,
    every node has at most one named-variable child (a wildcard child whose
    variable is not the splat), and a further registration never renames or
    moves an existing node: every node keeps its segment, its wildcard flag
    and its variable name, new children being appended after the old ones.
    A variable segment met at a node that has a wildcard child reuses the
    first one, whatever its name: the rest of the path is registered below
    it, no child is added, the child keeps its labels, and a name that
    differs is only logged.  Met at a node without wildcard child, it
    appends a wildcard child named by the segment, below which the rest of
    the path is registered.  The action of a registration is applied where
    the path ends, and both actions keep the labels and the children of
    the node.  So the name of a variable child is the one of the
    registration that created it. *)
Theorem C3_one_named_variable_child_names_kept
    (regs : list (Registration Meta)) :
  everyNode atMostOneNamedVariableChild (registerAll regs newRouteNode) /\
  (forall reg : Registration Meta,
     extends (registerAll regs newRouteNode)
             (register reg (registerAll regs newRouteNode))) /\
  (forall sc this (seg : string) (rest : list string),
     keepsShape sc ->
     isVariableSegment seg = true ->
     let result := addPathPropertyHelper (seg :: rest) sc this in
     let crowded :=
       if Nat.ltb 1 (length (childNodes this))
       then [ErrVariableMoreThanOneChild (length (childNodes this)) (pathSegment this)]
       else [] in
     match find isWildcard (childNodes this) with
     | Some child =>
         let below := addPathPropertyHelper rest sc child in
         fst result =
           setChildNodes (replaceFirst isWildcard (fst below) (childNodes this)) this /\
         length (childNodes (fst result)) = length (childNodes this) /\
         labels (fst below) = labels child /\
         snd result =
           crowded ++
           (if String.eqb (pathVariable child) (substring1 seg) then []
            else [ErrVariableInconsistent (pathVariable child) (substring1 seg)]) ++
           snd below
     | None =>
         let below :=
           addPathPropertyHelper rest sc
             (setIsWildcard true (substring1 seg) newRouteNode) in
         fst result = addChildNode (fst below) this /\
         labels (fst below) = (""%string, true, substring1 seg) /\
         snd result = crowded ++ snd below
     end) /\
  (forall (h : Handler Meta) (i : Inspector Meta) this,
     keepsShape (setHandler h) /\
     keepsShape (fun n => (addInspector i n, [])) /\
     addPathHandler [] h this = setHandler h this /\
     addPathInspector [] i this = (addInspector i this, [])).
Proof.
  split; [|split; [|split]].
  - apply registerAll_namedVariable. apply everyNode_leaf. reflexivity.
  - intros reg. apply register_extends.
  - intros sc this seg rest Hk Hv result crowded. subst result crowded.
    rewrite addPathPropertyHelper_cons, (isVariableSegment_not_star seg Hv), Hv.
    destruct (find isWildcard (childNodes this)) as [child|] eqn:Hf.
    + pose proof (addPathPropertyHelper_labels Meta rest sc child Hk) as Hl.
      destruct (addPathPropertyHelper rest sc child) as [child' log]. cbn [fst snd] in *.
      split; [reflexivity|]. split; [apply replaceFirst_length|]. split; [exact Hl|reflexivity].
    + pose proof (addPathPropertyHelper_labels Meta rest sc
                    (setIsWildcard true (substring1 seg) newRouteNode) Hk) as Hl.
      destruct (addPathPropertyHelper rest sc _) as [child' log]. cbn [fst snd] in *.
      split; [reflexivity|]. split; [|reflexivity].
      rewrite Hl. unfold labels, setIsWildcard. cbn.
      now rewrite (isVariableSegment_truthy seg Hv).
  - intros h i this. split; [apply setHandler_keepsShape|].
    split; [apply addInspector_keepsShape|]. split; reflexivity.
Qed.

End RegistrationClaimsFacts.

(** C6: an instance, [/a/:id/*/b] on an empty trie: the nodes for [a] and
    [:id] are created, the error is logged, and there is neither a splat
    node nor a handler. *)
Lemma C6_segments_after_splat_abandon_registration_witness :
  addPathHandler (pathSegmentsFromPath "/a/:id/*/b") (Examples.respond "h")
    Examples.emptyTrie =
  (mkRouteNode "" false "" []
     [mkRouteNode "a" false "" [] [mkRouteNode "" true "id" [] [] None] None] None,
   [ErrWildcardMoreSegments 1]) /\
  exists node,
    registeredNode ["a"; ":id"]
      (fst (addPathHandler (pathSegmentsFromPath "/a/:id/*/b") (Examples.respond "h")
              Examples.emptyTrie)) = Some node.
Proof.
  destruct (C6_segments_after_splat_abandon_registration unit ["a"; ":id"] "b" []
              (Examples.respond "h") (newInspector None None None)
              (setHandler (Examples.respond "h")) Examples.emptyTrie)
    as (_ & _ & _ & _ & H).
  destruct (H eq_refl) as [Heq Hnode].
  split; [|exact Hnode].
  change (addPathHandler (pathSegmentsFromPath "/a/:id/*/b") (Examples.respond "h")
            Examples.emptyTrie)
    with (addPathPropertyHelper (["a"; ":id"] ++ "*" :: "b" :: [])
            (setHandler (Examples.respond "h")) Examples.emptyTrie).
  rewrite Heq. reflexivity.
Defined.

(** C3: an instance, [/:b] registered on the trie that holds [/:a]: the
    child named [a] is reused for the handler, the root keeps one child,
    and the mismatch is logged. *)
Lemma C3_one_named_variable_child_names_kept_witness :
  addPathHandler [":b"] (Examples.respond "second")
    (fst (addPathHandler [":a"] (Examples.respond "first") Examples.emptyTrie)) =
  (mkRouteNode "" false "" []
     [mkRouteNode "" true "a" [] [] (Some (Examples.respond "first"))] None,
   [ErrVariableInconsistent "a" "b"; ErrSetHandlerTwice]).
Proof.
  destruct (C3_one_named_variable_child_names_kept unit []) as (_ & _ & H & _).
  specialize (H (setHandler (Examples.respond "second"))
                (fst (addPathHandler [":a"] (Examples.respond "first") Examples.emptyTrie))
                ":b" [] (setHandler_keepsShape unit (Examples.respond "second")) eq_refl).
  cbv zeta in H. cbn [find childNodes addPathHandler addPathPropertyHelper] in H.
  apply injective_projections; [apply H|apply H].
Defined.

(** * Claims about the walked path *)

Section WalkedFacts.

Variable Meta : Type.
Variable router : Router Meta.
Variable request : Request.

Implicit Types (c : Context Meta) (n node next : RouteNode Meta).
Implicit Types (queue : list (ResponseInspector Meta)).
Implicit Types (closest : option (RouteNode Meta)).
Implicit Types (steps : list (RouteNode Meta * string)).

Lemma captureSplat_splatWithHandler node closest :
  captureSplat node closest =
  match splatWithHandler node with
  | Some w => Some w
  | None => closest
  end.
Proof.
  unfold captureSplat, splatWithHandler.
  destruct (find isSplat (childNodes node)) as [w|]; [|reflexivity].
  destruct (handler w); reflexivity.
Qed.

Lemma splatWithHandler_handler node w :
  splatWithHandler node = Some w -> exists h, handler w = Some h.
Proof.
  unfold splatWithHandler.
  destruct (find isSplat (childNodes node)) as [w'|]; [|discriminate].
  destruct (handler w') as [h|] eqn:E; [|discriminate].
  intros [= <-]. eauto.
Qed.

(** The splat recorded when the loop ends is the last one met. *)
Lemma recorded_last steps :
  forall closest,
    fold_left (fun cl step => captureSplat (fst step) cl) steps closest =
    match last (omap (fun step => splatWithHandler (fst step)) steps) with
    | Some w => Some w
    | None => closest
    end.
Proof.
  induction steps as [|step steps IH]; intros closest; [reflexivity|].
  cbn [fold_left omap list_omap]. rewrite IH, captureSplat_splatWithHandler.
  fold (omap (fun step => splatWithHandler (fst step)) steps).
  destruct (splatWithHandler (fst step)) as [w|]; [|reflexivity].
  rewrite last_cons. destruct (last _); reflexivity.
Qed.

Lemma last_recorded_handler steps w :
  last (omap (fun step => splatWithHandler (fst step)) steps) = Some w ->
  exists h, handler w = Some h.
Proof.
  intros H. apply last_Some_elem_of in H. apply list_elem_of_omap in H as (step & _ & H).
  eapply splatWithHandler_handler; eauto.
Qed.

(** An iteration at a node whose inspectors have no request inspector. *)
Lemma iteration_without_request_inspector continue node queue closest c :
  withoutRequestInspector node ->
  iteration router request continue node queue closest c =
  let collected :=
    queue ++ omap (fun i => if inScope c i then responseInspector i else None)
               (inspectors node) in
  match pathPartsArray c with
  | [] => atExactMatch router request collected node c
  | seg :: _ =>
      match find (matchesSegment seg) (childNodes node) with
      | Some next =>
          (captureVariable next seg ;;;
           continue next collected (captureSplat node closest)) (shiftPathParts c)
      | None =>
          afterLoop router request collected (captureSplat node closest) (shiftPathParts c)
      end
  end.
Proof.
  intros Hi. unfold iteration. unfold bind at 1.
  rewrite (processInspectors_audit_scoped Meta router request _ queue c Hi).
  cbv zeta. set (collected := queue ++ _).
  unfold bind at 1. cbn [readContext].
  destruct (pathPartsArray c) as [|seg rest].
  - destruct (atExactMatch router request collected node c) as [[f c2] ev2]. reflexivity.
  - unfold bind at 1. cbn [modifyContext].
    destruct (find (matchesSegment seg) (childNodes node)) as [next|].
    + destruct ((captureVariable next seg ;;;
                 continue next collected (captureSplat node closest)) (shiftPathParts c))
        as [[f c2] ev2]. reflexivity.
    + destruct (afterLoop router request collected (captureSplat node closest)
                  (shiftPathParts c)) as [[f c2] ev2]. reflexivity.
Qed.

Lemma captureVariable_leave node next (seg : string) c :
  selected seg node = Some next ->
  captureVariable next seg (shiftPathParts c) = (Next tt, leave c (node, seg), []).
Proof.
  intros Hs. unfold captureVariable, leave, bound. cbn [fst snd]. rewrite Hs.
  unfold isNamedVariable. destruct (isWildcard next && _); reflexivity.
Qed.

Lemma leave_fell_off node (seg : string) c :
  selected seg node = None -> leave c (node, seg) = shiftPathParts c.
Proof. intros Hs. unfold leave, bound. cbn [fst snd]. now rewrite Hs. Qed.

Lemma pathPartsArray_leave c (step : RouteNode Meta * string) :
  pathPartsArray (leave c step) = tail (pathPartsArray c).
Proof. unfold leave. destruct (bound step) as [[k v]|]; reflexivity. Qed.

Lemma pathPartsArray_leaves steps :
  forall c, pathPartsArray (fold_left leave steps c) = drop (length steps) (pathPartsArray c).
Proof.
  induction steps as [|step steps IH]; intros c; [reflexivity|].
  cbn [fold_left length]. rewrite IH, pathPartsArray_leave.
  destruct (pathPartsArray c); cbn [tail drop]; [now destruct (length steps)|reflexivity].
Qed.

Lemma pathVariable_of_addPathVariable (key value name : string) c :
  pathVariable_of (addPathVariable key value c) name =
  if String.eqb key name then Some value else pathVariable_of c name.
Proof.
  unfold pathVariable_of, addPathVariable. cbn [pathVariables].
  destruct (String.eqb key name) eqn:E.
  - apply String.eqb_eq in E as ->. apply lookup_insert_eq.
  - apply String.eqb_neq in E. rewrite lookup_insert_ne by assumption.
    destruct (pathVariables c); [reflexivity|apply lookup_empty].
Qed.

Lemma pathVariable_of_leaves (name : string) steps :
  forall c,
    pathVariable_of (fold_left leave steps c) name =
    match lastBound name (omap bound steps) with
    | Some v => Some v
    | None => pathVariable_of c name
    end.
Proof.
  induction steps as [|step steps IH]; intros c; [reflexivity|].
  cbn [fold_left omap list_omap]. rewrite IH. fold (omap bound steps).
  unfold leave. destruct (bound step) as [[key value]|].
  - cbn [lastBound]. destruct (lastBound name (omap bound steps)); [reflexivity|].
    rewrite pathVariable_of_addPathVariable. destruct (String.eqb key name); reflexivity.
  - reflexivity.
Qed.

Lemma walked_landing_length (parts : list string) :
  forall n node, landing parts n = Some node -> length (walked parts n) = length parts.
Proof.
  induction parts as [|seg rest IH]; intros n node; [reflexivity|].
  cbn [landing walked length]. destruct (selected seg n) as [next|]; [|discriminate].
  intros H. now rewrite (IH next node H).
Qed.

(** On a trie whose inspectors have no request inspector the walk is
    decided by the trie and the path parts: it ends with the call of the
    [target], in the context that the steps leave. *)
Lemma walk_walked (parts : list string) :
  forall n queue closest c,
    everyNode withoutRequestInspector n ->
    pathPartsArray c = parts ->
    exists collected,
      walk router request n queue closest c =
      (v <- callHandler (fst (target router parts n closest))
              (snd (target router parts n closest)) request ;;
       @returnProcessed Meta Empty_set collected request v)
        (fold_left leave (walked parts n) c).
Proof.
  induction parts as [|seg rest IH]; intros n queue closest c Hn Hp;
    pose proof (everyNode_inv Meta _ _ Hn) as [Hi Hcs];
    rewrite walk_eq, (iteration_without_request_inspector _ n queue closest c Hi);
    cbv zeta; rewrite Hp.
  - eexists. unfold atExactMatch, target. cbn [landing walked fold_left].
    destruct (handler n); reflexivity.
  - unfold target. cbn [landing walked fold_left].
    fold (selected seg n). destruct (selected seg n) as [next|] eqn:Hs.
    + assert (Hnext : everyNode withoutRequestInspector next).
      { apply find_some in Hs as [Hin _]. rewrite List.Forall_forall in Hcs. now apply Hcs. }
      assert (Hrest : pathPartsArray (leave c (n, seg)) = rest)
        by (now rewrite pathPartsArray_leave, Hp).
      destruct (IH next
                  (queue ++ omap (fun i => if inScope c i then responseInspector i else None)
                              (inspectors n))
                  (captureSplat n closest) _ Hnext Hrest) as (collected & Hwalk).
      exists collected. unfold bind at 1.
      rewrite (captureVariable_leave n next seg c Hs), Hwalk, exec_eta.
      unfold target. reflexivity.
    + eexists. rewrite (leave_fell_off n seg c Hs). unfold afterLoop.
      cbn [fold_left fst].
      destruct (captureSplat n closest) as [w|]; [destruct (handler w)|]; reflexivity.
Qed.

Lemma not_route_handler_call (evs : list (Event Meta)) :
  forallb isResponseInspectorCall evs = true ->
  forallb (fun ev => negb (isRouteHandlerCall ev)) evs = true.
Proof.
  induction evs as [|ev evs IH]; [reflexivity|]. cbn [forallb].
  intros H. apply andb_prop in H as [H1 H2]. rewrite (IH H2).
  destruct ev as [|[] ? ?| |]; try discriminate; reflexivity.
Qed.

(** The events of a request whose walk ends by calling a handler: the
    call, then response inspectors or the answer to a fault, and no
    handler of a route. *)
Lemma one_route_handler site (h : Handler Meta) queue c :
  exists rest,
    snd (afterTry router request
           ((v <- callHandler site h request ;;
             @returnProcessed Meta Empty_set queue request v) c)) =
      CalledHandler site h c :: rest /\
    forallb (fun ev => negb (isRouteHandlerCall ev)) rest = true.
Proof.
  unfold bind, callHandler, call, returnProcessed, afterTry.
  destruct (runHandler h request c) as [[v|e] c1].
  - destruct (processResponseInspectors queue request v (retainArray c c1))
      as [[s c2] evs] eqn:E.
    exists evs. split; [reflexivity|].
    unfold processResponseInspectors in E.
    destruct v as [r|[r|e]].
    3: { injection E as <- <- <-. reflexivity. }
    all: destruct (runResponseInspectors queue request r (retainArray c c1))
           as [[fault c3] evs3] eqn:E3;
      destruct (runResponseInspectors_calls Meta request _ _ _ _ _ _ E3) as (H1 & _);
      assert (evs3 = evs) as <- by (destruct fault; congruence);
      now apply not_route_handler_call.
  - destruct (runHandler (server_error_handler router) request (retainArray c c1))
      as [[v'|e'] c2]; eexists; split; reflexivity.
Qed.

End WalkedFacts.

Section WalkedClaims.

Variable Meta : Type.
Implicit Types (router : Router Meta) (request : Request).

(** A request on a trie whose inspectors have no request inspector: the
    first callback called is the target of the walk, in the context that
    the steps of the walk leave, and no other handler of a route is
    called. *)
Lemma request_walked router request (m : Meta) (root : RouteNode Meta) :
  routesFor router request = Some root ->
  context_metadata_constructor router request = Ok m ->
  everyNode withoutRequestInspector root ->
  exists rest,
    snd (requestHandler router request) =
      CalledHandler (fst (target router (requestParts request) root None))
        (snd (target router (requestParts request) root None))
        (fold_left leave (walked (requestParts request) root) (startContext request m))
      :: rest /\
    forallb (fun ev => negb (isRouteHandlerCall ev)) rest = true.
Proof.
  intros Hr Hk Hroot.
  rewrite (requestHandler_routesFor Meta router request m root Hr Hk).
  destruct (walk_walked Meta router request (requestParts request) root [] None
              (startContext request m) Hroot eq_refl) as (collected & ->).
  apply one_route_handler.
Qed.

(** C4 (as amended): on a trie whose inspectors have no request inspector,
    the walk pops the parts of the request's path one by one, moving at
    each node to the first child in registration order that is a wildcard
    or has the part as its segment, and at each node where it pops a part
    it records the first splat child of the node if that child has a
    handler, in place of the one recorded before.  If the parts run out at
    a node, the handler of that node is called, by exact match, whatever
    splat was recorded (the not-found handler if the node has none).  If a
    part finds no child, the handler called is that of the splat recorded
    last, the one of the deepest node on the walked path that has a splat
    child with a handler, and the not-found handler if there is none.  It
    is the first callback called and the only handler of a route that is
    called, and it finds in the array the parts that the walk did not
    pop. *)
Theorem C4_deepest_splat_on_the_walked_path_wins
    router request (m : Meta) (root : RouteNode Meta) :
  routesFor router request = Some root ->
  context_metadata_constructor router request = Ok m ->
  everyNode withoutRequestInspector root ->
  let parts := requestParts request in
  let steps := walked parts root in
  let deepest := last (omap (fun step => splatWithHandler (fst step)) steps) in
  let site :=
    match landing parts root with
    | Some node => match handler node with Some _ => ExactMatch | None => NotFound end
    | None => match deepest with Some _ => SplatFallback | None => NotFound end
    end in
  let h :=
    default (not_found_handler router)
      match landing parts root with
      | Some node => handler node
      | None => match deepest with Some w => handler w | None => None end
      end in
  exists c rest,
    snd (requestHandler router request) = CalledHandler site h c :: rest /\
    forallb (fun ev => negb (isRouteHandlerCall ev)) rest = true /\
    pathPartsArray c = drop (length steps) parts.
Proof.
  intros Hr Hk Hroot parts steps deepest site h.
  destruct (request_walked router request m root Hr Hk Hroot) as (rest & Hev & Hrest).
  exists (fold_left leave steps (startContext request m)), rest.
  split; [|split; [exact Hrest|]].
  - rewrite Hev. fold parts steps. subst site h. unfold target. fold parts steps.
    destruct (landing parts root) as [node|].
    + destruct (handler node); reflexivity.
    + rewrite recorded_last. fold deepest.
      destruct deepest as [w|] eqn:Hd; [|reflexivity].
      destruct (last_recorded_handler Meta steps w Hd) as (hw & ->). reflexivity.
  - now rewrite pathPartsArray_leaves.
Qed.

End WalkedClaims.

(** C4: an instance, [/files/*] registered before [/*], and
    [GET /files/a/b/c]: the walk goes through the node [files], enters its
    splat child with [b] and [c] left, finds no child for [b], and the
    splat of [files], recorded after the one of the root, answers. *)
Lemma C4_deepest_splat_on_the_walked_path_wins_witness :
  exists c rest,
    snd (requestHandler Scenarios.nestedThenShallow (Examples.GET "/files/a/b/c")) =
      CalledHandler SplatFallback (Examples.respond "nested") c :: rest /\
    forallb (fun ev => negb (isRouteHandlerCall ev)) rest = true /\
    pathPartsArray c = ["c"].
Proof.
  apply (C4_deepest_splat_on_the_walked_path_wins unit Scenarios.nestedThenShallow
           (Examples.GET "/files/a/b/c") tt (get_routes Scenarios.nestedThenShallow)).
  - reflexivity.
  - reflexivity.
  - repeat first [ apply everyNode_intro | apply List.Forall_cons | apply List.Forall_nil ].
Defined.

Section FirstRoute.

Variable Meta : Type.
Implicit Types (n this child : RouteNode Meta) (sc : SetClosure Meta).

(** *** Tries without request inspector *)

Lemma action_withoutRequestInspector sc n :
  keepsShape sc ->
  (forall n', withoutRequestInspector n' -> withoutRequestInspector (fst (sc n'))) ->
  everyNode withoutRequestInspector n ->
  everyNode withoutRequestInspector (fst (sc n)).
Proof.
  intros Hk Hsc Hn. apply everyNode_inv in Hn as [Hq Hcs].
  constructor; [now apply Hsc|]. destruct (Hk n) as [_ ->]. exact Hcs.
Qed.

Lemma addPathPropertyHelper_withoutRequestInspector sc :
  keepsShape sc ->
  (forall n, withoutRequestInspector n -> withoutRequestInspector (fst (sc n))) ->
  forall (segs : list string) this,
    everyNode withoutRequestInspector this ->
    everyNode withoutRequestInspector (fst (addPathPropertyHelper segs sc this)).
Proof.
  intros Hk Hsc.
  assert (Hfresh : forall n, inspectors n = [] -> childNodes n = [] ->
                     everyNode withoutRequestInspector n).
  { intros n Hi Hc. constructor; [unfold withoutRequestInspector; rewrite Hi|rewrite Hc];
      constructor. }
  induction segs as [|seg rest IH]; intros this Hthis.
  - now apply action_withoutRequestInspector.
  - pose proof (everyNode_inv Meta _ _ Hthis) as [Hq Hcs].
    rewrite addPathPropertyHelper_cons.
    destruct (String.eqb seg "*").
    { destruct rest; [|exact Hthis].
      pose proof (action_withoutRequestInspector sc (setIsWildcard true "*" newRouteNode)
                    Hk Hsc (Hfresh (setIsWildcard true "*" newRouteNode) eq_refl eq_refl))
        as Hnew.
      destruct (sc (setIsWildcard true "*" newRouteNode)) as [newChild log]. cbn [fst] in *.
      constructor; [exact Hq|]. cbn [addChildNode childNodes].
      apply Forall_app. split; [exact Hcs|]. constructor; [exact Hnew|constructor]. }
    destruct (isVariableSegment seg).
    + destruct (find isWildcard (childNodes this)) as [child|] eqn:Hf.
      * assert (Hchild : everyNode withoutRequestInspector child).
        { apply find_some in Hf as [Hin _]. rewrite List.Forall_forall in Hcs. now apply Hcs. }
        specialize (IH child Hchild).
        destruct (addPathPropertyHelper rest sc child) as [child' log]. cbn [fst] in *.
        constructor; [exact Hq|]. cbn [setChildNodes childNodes].
        now apply Forall_replaceFirst.
      * specialize (IH (setIsWildcard true (substring1 seg) newRouteNode)
                       (Hfresh (setIsWildcard true (substring1 seg) newRouteNode)
                          eq_refl eq_refl)).
        destruct (addPathPropertyHelper rest sc _) as [child' log]. cbn [fst] in *.
        constructor; [exact Hq|]. cbn [addChildNode childNodes].
        apply Forall_app. split; [exact Hcs|]. constructor; [exact IH|constructor].
    + destruct (find (hasSegment seg) (childNodes this)) as [child|] eqn:Hf.
      * assert (Hchild : everyNode withoutRequestInspector child).
        { apply find_some in Hf as [Hin _]. rewrite List.Forall_forall in Hcs. now apply Hcs. }
        specialize (IH child Hchild).
        destruct (addPathPropertyHelper rest sc child) as [child' log]. cbn [fst] in *.
        constructor; [exact Hq|]. cbn [setChildNodes childNodes].
        now apply Forall_replaceFirst.
      * specialize (IH (setPathSegment seg newRouteNode)
                       (Hfresh (setPathSegment seg newRouteNode) eq_refl eq_refl)).
        destruct (addPathPropertyHelper rest sc _) as [child' log]. cbn [fst] in *.
        constructor; [exact Hq|]. cbn [addChildNode childNodes].
        apply Forall_app. split; [exact Hcs|]. constructor; [exact IH|constructor].
Qed.

Lemma setHandler_withoutRequestInspector (h : Handler Meta) n :
  withoutRequestInspector n -> withoutRequestInspector (fst (setHandler h n)).
Proof. unfold setHandler. now destruct (handler n). Qed.

Lemma register_withoutRequestInspector (reg : Registration Meta) (root : RouteNode Meta) :
  withoutRequestInspectorReg reg ->
  everyNode withoutRequestInspector root ->
  everyNode withoutRequestInspector (register reg root).
Proof.
  intros Hreg Hroot. destruct reg as [paths h|paths i]; cbn [register];
    unfold addPathHandlerToNode, addPathInspectorToNode;
    apply addPaths_invariant; auto; intros segs n Hn.
  - apply addPathPropertyHelper_withoutRequestInspector;
      auto using setHandler_keepsShape, setHandler_withoutRequestInspector.
  - apply addPathPropertyHelper_withoutRequestInspector;
      auto using addInspector_keepsShape.
    intros n' Hn'. unfold withoutRequestInspector. cbn [fst addInspector inspectors].
    apply Forall_app. split; [exact Hn'|]. constructor; [exact Hreg|constructor].
Qed.

Lemma registerAll_withoutRequestInspector (regs : list (Registration Meta)) :
  Forall withoutRequestInspectorReg regs ->
  forall root,
    everyNode withoutRequestInspector root ->
    everyNode withoutRequestInspector (registerAll regs root).
Proof.
  induction 1 as [|reg regs Hreg Hregs IH]; intros root Hroot; [exact Hroot|].
  cbn [registerAll fold_left]. apply IH. now apply register_withoutRequestInspector.
Qed.

Lemma registerAll_grows (regs : list (Registration Meta)) :
  forall root, grows root (registerAll regs root).
Proof.
  induction regs as [|reg regs IH]; intros root; simpl.
  - apply grows_refl.
  - eapply grows_trans; [apply register_grows|apply IH].
Qed.

(** *** A route held along first children *)

Lemma route_holdsFirst (h : Handler Meta) (segs : list string) :
  forall this,
    childNodes this = [] -> handler this = None -> holdsFirst segs h (route segs h this).
Proof.
  induction segs as [|seg rest IH]; intros this Hcs Hh.
  - cbn [holdsFirst]. now apply route_handler_nil.
  - cbn [holdsFirst route addChildNode childNodes]. rewrite Hcs. cbn [app].
    destruct (freshChild_childless Meta seg) as (Hc & Hn & _).
    split; [apply route_labels|]. now apply IH.
Qed.

Lemma holdsFirst_grows (h : Handler Meta) (segs : list string) :
  forall n n', grows n n' -> holdsFirst segs h n -> holdsFirst segs h n'.
Proof.
  induction segs as [|seg rest IH]; intros n n' Hg H;
    inversion Hg as [? ? more kept added Hl Hh Hi Hc Hk]; subst.
  - cbn [holdsFirst] in *. now apply Hh.
  - cbn [holdsFirst] in *. destruct (childNodes n) as [|child others]; [contradiction|].
    destruct H as [Hlab Hrest].
    apply Forall2_cons_inv_l in Hk as (child' & kept' & Hgc & _ & ->).
    rewrite Hc. cbn [app]. split; [|now apply (IH child child')].
    inversion Hgc as [? ? ? ? ? Hl' _ _ _ _]; subst. congruence.
Qed.

(** The child made for a segment, or any node with its labels, is
    selected for a part that fits, and binds what the segment says. *)
Lemma fitting_child (seg val : string) child :
  labels child = labels (@freshChild Meta seg) ->
  fits seg val ->
  matchesSegment val child = true /\
  (if isNamedVariable child then Some (pathVariable child, val) else None) =
  (if isVariableSegment seg && negb (String.eqb (substring1 seg) "*")
   then Some (substring1 seg, val) else None).
Proof.
  intros Hl Hfit. rewrite freshChild_labels in Hl.
  unfold matchesSegment, isNamedVariable.
  destruct (String.eqb seg "*") eqn:Es.
  - apply labels_fields in Hl as (Hs & Hw & Hv). rewrite Hw, Hv.
    apply String.eqb_eq in Es as ->. split; reflexivity.
  - destruct (isVariableSegment seg) eqn:Ev;
      apply labels_fields in Hl as (Hs & Hw & Hv); rewrite ?Hs, Hw, Hv; cbn [orb andb].
    + split; [reflexivity|]. destruct (String.eqb (substring1 seg) "*"); reflexivity.
    + destruct Hfit as [-> | [Hv' | ->]]; [discriminate Es|congruence|].
      split; [apply String.eqb_refl|reflexivity].
Qed.

(** A request that fits a route held along first children lands on the
    node of its handler, and the walk binds the variables of the route. *)
Lemma holdsFirst_followed (h : Handler Meta) (segs : list string) :
  forall (vals : list string) n,
    holdsFirst segs h n ->
    Forall2 fits segs vals ->
    (exists node, landing vals n = Some node /\ handler node = Some h) /\
    forall name,
      lastBound name (omap bound (walked vals n)) = lastBinding name segs vals.
Proof.
  induction segs as [|seg rest IH]; intros vals n H Hfit.
  - apply Forall2_nil_inv_l in Hfit as ->. split; [exists n; split; [reflexivity|exact H]|].
    reflexivity.
  - apply Forall2_cons_inv_l in Hfit as (val & vals' & Hfit1 & Hfit2 & ->).
    cbn [holdsFirst] in H. destruct (childNodes n) as [|child others] eqn:E; [contradiction|].
    destruct H as [Hlab Hrest].
    destruct (fitting_child seg val child Hlab Hfit1) as [Hmatch Hbound].
    assert (Hs : selected val n = Some child).
    { unfold selected. rewrite E. cbn [find]. now rewrite Hmatch. }
    destruct (IH vals' child Hrest Hfit2) as [(node & Hland & Hnode) Hbind].
    split.
    + exists node. cbn [landing]. rewrite Hs. auto.
    + intros name. cbn [walked lastBinding]. rewrite Hs.
      cbn [omap list_omap]. fold (omap bound (walked vals' child)).
      unfold bound at 1. cbn [fst snd]. rewrite Hs, Hbound.
      destruct (isVariableSegment seg) eqn:Ev; cbn [andb].
      * destruct (String.eqb (substring1 seg) "*") eqn:Estar; cbn [negb].
        -- rewrite Hbind. destruct (lastBinding name rest vals'); [reflexivity|].
           destruct (String.eqb (substring1 seg) name) eqn:En; [|reflexivity].
           apply String.eqb_eq in En. subst name. rewrite Estar. reflexivity.
        -- cbn [lastBound]. rewrite Hbind.
           destruct (lastBinding name rest vals'); [reflexivity|].
           destruct (String.eqb (substring1 seg) name) eqn:En; [|reflexivity].
           apply String.eqb_eq in En. subst name. rewrite Estar. reflexivity.
      * rewrite Hbind. destruct (lastBinding name rest vals'); reflexivity.
Qed.

Lemma attached_leaves (steps : list (RouteNode Meta * string)) :
  forall c : Context Meta, attached c -> attached (fold_left leave steps c).
Proof.
  induction steps as [|step steps IH]; intros c Hc; [exact Hc|].
  cbn [fold_left]. apply IH. unfold leave.
  destruct (bound step) as [[k v]|]; discriminate.
Qed.

(** A request whose parts run out at a node with a handler. *)
Lemma request_lands (router : Router Meta) (request : Request) (m : Meta)
    (root node : RouteNode Meta) (h : Handler Meta) :
  routesFor router request = Some root ->
  context_metadata_constructor router request = Ok m ->
  everyNode withoutRequestInspector root ->
  landing (requestParts request) root = Some node ->
  handler node = Some h ->
  exists c rest,
    snd (requestHandler router request) = CalledHandler ExactMatch h c :: rest /\
    forallb (fun ev => negb (isRouteHandlerCall ev)) rest = true /\
    fst (getPathParts c) = [] /\
    forall name,
      pathVariable_of c name =
      lastBound name (omap bound (walked (requestParts request) root)).
Proof.
  intros Hr Hk Hroot Hland Hnode.
  destruct (request_walked Meta router request m root Hr Hk Hroot) as (rest & Hev & Hrest).
  unfold target in Hev. rewrite Hland, Hnode in Hev. cbn [fst snd] in Hev.
  eexists _, rest. split; [exact Hev|]. split; [exact Hrest|]. split.
  - rewrite getPathParts_attached.
    + rewrite pathPartsArray_leaves, (walked_landing_length Meta _ _ _ Hland).
      change (pathPartsArray (startContext request m)) with (requestParts request).
      apply drop_all.
    + apply attached_leaves. discriminate.
  - intros name. rewrite pathVariable_of_leaves.
    destruct (lastBound name _); reflexivity.
Qed.

End FirstRoute.

Section VariableClaim.

Variable Meta : Type.

(** C8 (as amended): a path variable is bound under the name of the node
    that the walk enters, which is the name given by the registration that
    created the node.  On a trie whose inspectors have no request
    inspector, a request whose parts run out at a node with a handler
    reaches that handler, by exact match and before any other callback; the
    handler finds no part left, and a path-variable map that holds, for
    each named-variable child that the walk entered, the name of that child
    bound to the part popped there (the last one, if a name occurs twice),
    and nothing else.  In particular, for a route registered first on a
    new router, whatever handlers and inspectors without request inspector
    are registered after it on the same trie, a request that fits the route
    segment by segment reaches the handler of the route with every named
    variable of the route bound to the part at its position. *)
Theorem C8_named_variable_is_bound_when_the_handler_runs :
  (forall (router : Router Meta) (request : Request) (m : Meta)
          (root node : RouteNode Meta) (h : Handler Meta),
     routesFor router request = Some root ->
     context_metadata_constructor router request = Ok m ->
     everyNode withoutRequestInspector root ->
     landing (requestParts request) root = Some node ->
     handler node = Some h ->
     exists c rest,
       snd (requestHandler router request) = CalledHandler ExactMatch h c :: rest /\
       forallb (fun ev => negb (isRouteHandlerCall ev)) rest = true /\
       fst (getPathParts c) = [] /\
       forall name,
         pathVariable_of c name =
         lastBound name (omap bound (walked (requestParts request) root))) /\
  (forall (nf se : option (Handler Meta)) (mk : Request -> Sync Meta)
          (h : Handler Meta) (path : string) (regs : list (Registration Meta))
          (request : Request) (m : Meta),
     splatOnlyLast (pathSegmentsFromPath path) = true ->
     Forall withoutRequestInspectorReg regs ->
     Forall2 fits (pathSegmentsFromPath path) (requestParts request) ->
     method request = "GET" ->
     mk request = Ok m ->
     let first := fst (get (OnePath path) h (newRouter nf se mk)) in
     let router := withGetRoutes first (registerAll regs (get_routes first)) in
     exists c rest,
       snd (requestHandler router request) = CalledHandler ExactMatch h c :: rest /\
       forallb (fun ev => negb (isRouteHandlerCall ev)) rest = true /\
       fst (getPathParts c) = [] /\
       forall name,
         pathVariable_of c name =
         lastBinding name (pathSegmentsFromPath path) (requestParts request)).
Proof.
  split.
  - intros router request m root node h. apply request_lands.
  - intros nf se mk h path regs request m Hok Hregs Hfit Hmethod Hmk first router.
    assert (Hfirst : first = withGetRoutes (newRouter nf se mk)
                               (route (pathSegmentsFromPath path) h newRouteNode)).
    { subst first. now rewrite (get_first_route Meta nf se mk path h Hok). }
    set (root := registerAll regs (route (pathSegmentsFromPath path) h newRouteNode)).
    assert (Hr : routesFor router request = Some root).
    { rewrite (routesFor_GET Meta router request Hmethod). subst router root.
      now rewrite Hfirst. }
    assert (Hk : context_metadata_constructor router request = Ok m).
    { subst router. rewrite Hfirst. exact Hmk. }
    assert (Hroot : everyNode withoutRequestInspector root).
    { subst root. apply registerAll_withoutRequestInspector; [exact Hregs|].
      replace (route (pathSegmentsFromPath path) h newRouteNode)
        with (fst (addPathHandler (pathSegmentsFromPath path) h (@newRouteNode Meta)))
        by (now rewrite (addPathHandler_route Meta h _ Hok newRouteNode eq_refl eq_refl)).
      apply addPathPropertyHelper_withoutRequestInspector;
        auto using setHandler_keepsShape, setHandler_withoutRequestInspector.
      constructor; constructor. }
    assert (Hheld : holdsFirst (pathSegmentsFromPath path) h root).
    { subst root. eapply holdsFirst_grows; [apply registerAll_grows|].
      now apply route_holdsFirst. }
    destruct (holdsFirst_followed Meta h _ _ root Hheld Hfit) as [(node & Hland & Hnode) Hbind].
    destruct (request_lands Meta router request m root node h Hr Hk Hroot Hland Hnode)
      as (c & rest & Hev & Hrest & Hparts & Hvars).
    exists c, rest. split; [exact Hev|]. split; [exact Hrest|]. split; [exact Hparts|].
    intros name. now rewrite Hvars, Hbind.
Qed.

End VariableClaim.

(** C8: an instance, [/users/:id] registered first, then [/users/:uid/x]
    and [/:other], and [GET /users/42]. *)
Lemma C8_named_variable_is_bound_when_the_handler_runs_witness :
  exists c rest,
    snd (requestHandler
           (withGetRoutes Scenarios.users
              (registerAll
                 [RegisterHandler (OnePath "/users/:uid/x") (Examples.respond "x");
                  RegisterHandler (OnePath "/:other") (Examples.respond "other")]
                 (get_routes Scenarios.users)))
           (Examples.GET "/users/42")) =
      CalledHandler ExactMatch (Examples.respond "user") c :: rest /\
    pathVariable_of c "id" = Some "42".
Proof.
  destruct (C8_named_variable_is_bound_when_the_handler_runs unit) as [_ H].
  destruct (H None None (fun _ => Ok tt) (Examples.respond "user") "/users/:id"
              [RegisterHandler (OnePath "/users/:uid/x") (Examples.respond "x");
               RegisterHandler (OnePath "/:other") (Examples.respond "other")]
              (Examples.GET "/users/42") tt)
    as (c & rest & Hev & _ & _ & Hvars).
  - reflexivity.
  - repeat (apply List.Forall_cons; [exact I|]). apply List.Forall_nil.
  - change (Forall2 fits ["users"; ":id"] ["users"; "42"]).
    apply List.Forall2_cons; [right; right; reflexivity|].
    apply List.Forall2_cons; [right; left; reflexivity|]. apply List.Forall2_nil.
  - reflexivity.
  - reflexivity.
  - exists c, rest. split; [exact Hev|]. rewrite Hvars. reflexivity.
Defined.

(** C8 (as stated) fails.  With [/users/:uid/x] registered before
    [/users/:id], the request [GET /users/42] reaches the handler of
    [/users/:id], but the segment is bound under the name of the earlier
    route: the map holds [uid], and the declared name [id] is not bound. *)
Lemma C8_earlier_route_names_the_variable :
  exists c rest,
    snd (requestHandler
           (fst (get (OnePath "/users/:id") (Examples.respond "user")
                   (fst (get (OnePath "/users/:uid/x") (Examples.respond "x")
                           Examples.freshRouter))))
           (Examples.GET "/users/42")) =
      CalledHandler ExactMatch (Examples.respond "user") c :: rest /\
    pathVariable_of c "id" = None /\
    pathVariable_of c "uid" = Some "42".
Proof.
  eexists _, _. split; [reflexivity|]. split; vm_compute; reflexivity.
Qed.
